(** * Country-scoped job ingestion: a shallow embedding

    The development follows two source files of the JobIntel backend:

    - [services/jsearchService.ts]: the location classifier
      [isLocationInCountry], the normalizer [parseJobData], the retrying
      request [makeRequestWithRetry], the paginated fetcher [searchJobs]
      and the synthetic generator [generateFallbackJobs];
    - [controllers/adminController.ts]: the upsert [saveJobsToDatabase] and
      the per-bucket orchestration started by [runCrawlers].

    JavaScript strings are sequences of UTF-16 code units.  The embedding
    covers the code units below 256 (ASCII and Latin-1), one [ascii] per code
    unit; on that range lower-casing, white space and the regular
    expressions of the source are modelled exactly.  Waiting ([delay]) and
    logging have no effect on the values computed and are left out. *)

From Stdlib Require Import Bool List ZArith NArith Lia Ascii String.
From Stdlib Require Import DecimalString DecimalPos Permutation.
Import ListNotations.

Open Scope string_scope.

(* ================================================================== *)
(** ** JavaScript strings *)
(* ================================================================== *)

Module Js.

Definition code (c : ascii) : N := N_of_ascii c.

Definition inRange (lo hi : N) (c : ascii) : bool :=
  ((lo <=? code c) && (code c <=? hi))%N.

(** White space as [String.prototype.trim] and the regex class [\s] see
    it: TAB, LF, VT, FF, CR, SPACE and NO-BREAK SPACE. *)
Definition isWhiteSpace (c : ascii) : bool :=
  inRange 9 13 c || (code c =? 32)%N || (code c =? 160)%N.

(** The regex dot matches every code unit but a line terminator. *)
Definition isLineTerminator (c : ascii) : bool :=
  ((code c =? 10) || (code c =? 13))%N.

Definition isDigit (c : ascii) : bool := inRange 48 57 c.
Definition isLowerAZ (c : ascii) : bool := inRange 97 122 c.
Definition isUpperAZ (c : ascii) : bool := inRange 65 90 c.
Definition isLetterAZ (c : ascii) : bool := isLowerAZ c || isUpperAZ c.

(** [toLowerCase] on one code unit: A-Z and the Latin-1 capitals
    U+00C0..U+00DE (the multiplication sign U+00D7 apart). *)
Definition lowerChar (c : ascii) : ascii :=
  if isUpperAZ c || (inRange 192 222 c && negb (code c =? 215)%N)
  then ascii_of_N (code c + 32) else c.

(** [toUpperCase] on one code unit.  The three Latin-1 letters whose
    capital lies outside Latin-1 (U+00B5, U+00DF, U+00FF) are left as they
    are; the source upper-cases ASCII table entries only. *)
Definition upperChar (c : ascii) : ascii :=
  if isLowerAZ c || (inRange 224 254 c && negb (code c =? 247)%N)
  then ascii_of_N (code c - 32) else c.

Fixpoint mapChars (f : ascii -> ascii) (s : string) : string :=
  match s with
  | EmptyString => EmptyString
  | String c r => String (f c) (mapChars f r)
  end.

Definition toLowerCase : string -> string := mapChars lowerChar.
Definition toUpperCase : string -> string := mapChars upperChar.

Fixpoint trimStart (s : string) : string :=
  match s with
  | String c r => if isWhiteSpace c then trimStart r else s
  | EmptyString => EmptyString
  end.

Fixpoint trimEnd (s : string) : string :=
  match s with
  | EmptyString => EmptyString
  | String c r =>
      match trimEnd r with
      | EmptyString => if isWhiteSpace c then EmptyString else String c EmptyString
      | r' => String c r'
      end
  end.

Definition trim (s : string) : string := trimEnd (trimStart s).

Definition startsWith (p s : string) : bool := String.prefix p s.

(** [s.includes(sub)] *)
Fixpoint includes (sub s : string) : bool :=
  String.prefix sub s ||
  match s with
  | String _ r => includes sub r
  | EmptyString => false
  end.

(** [s.endsWith(suf)] *)
Fixpoint endsWith (suf s : string) : bool :=
  String.eqb s suf ||
  match s with
  | String _ r => endsWith suf r
  | EmptyString => false
  end.

(** [s.split(sep)] for a one-character separator. *)
Fixpoint split (sep : ascii) (s : string) : list string :=
  match s with
  | EmptyString => [EmptyString]
  | String c r =>
      if Ascii.eqb c sep then EmptyString :: split sep r
      else match split sep r with
           | h :: t => String c h :: t
           | [] => [String c EmptyString]
           end
  end.

(** [parts.join(sep)] *)
Definition join (sep : string) (parts : list string) : string :=
  String.concat sep parts.

(** A JavaScript string in a boolean position. *)
Definition nonEmpty (s : string) : bool := negb (String.eqb s "").

(** Decimal rendering of an integer, as a template literal or [join]
    renders a number that is an integer below 10^21 in magnitude. *)
Definition ofZ (z : Z) : string := NilEmpty.string_of_int (Z.to_int z).

End Js.

(* ================================================================== *)
(** ** Regular expressions

    The patterns of the source quantify character classes only, so the
    syntax below has no general star.  Matching is the backtracking search
    of the language: leftmost start, alternatives in order, greedy
    quantifiers longest first and lazy ones shortest first.  One capture
    group is enough for the patterns at hand. *)
(* ================================================================== *)

Module Regex.

Definition cls := ascii -> bool.

Inductive t : Type :=
| Eps                                  (* the empty pattern *)
| Bol                                  (* ^ *)
| Eol                                  (* $ *)
| Set_ (c : cls)                       (* one code unit of a class *)
| Seq (a b : t)
| Alt (a b : t)
| Plus (c : cls)                       (* c+ *)
| PlusLazy (c : cls)                   (* c+? *)
| Rep (c : cls) (lo : nat) (hi : option nat)  (* c{lo,hi} and c{lo,} *)
| Group (a : t).                       (* ( ... ), capture group 1 *)

(** Matcher state: are we still at index 0, what is left of the input,
    and the text of the capture group if it has been closed. *)
Record state : Type := mkState
  { atStart : bool; rest : string; grp : option string }.

Definition cont := state -> option (option string).

Definition advance (st : state) (r : string) : state :=
  mkState false r (grp st).

Fixpoint plusGreedy (c : cls) (s : string) (st : state) (k : cont)
  : option (option string) :=
  match s with
  | String a r =>
      if c a then
        match plusGreedy c r st k with
        | Some res => Some res
        | None => k (advance st r)
        end
      else None
  | EmptyString => None
  end.

Fixpoint plusLazy (c : cls) (s : string) (st : state) (k : cont)
  : option (option string) :=
  match s with
  | String a r =>
      if c a then
        match k (advance st r) with
        | Some res => Some res
        | None => plusLazy c r st k
        end
      else None
  | EmptyString => None
  end.

Definition hiAllows (hi : option nat) : bool :=
  match hi with Some 0 => false | _ => true end.

Fixpoint repGreedy (c : cls) (lo : nat) (hi : option nat)
         (s : string) (st : state) (k : cont) : option (option string) :=
  let stop := match lo with 0 => k st | S _ => None end in
  match s with
  | String a r =>
      if c a && hiAllows hi then
        match repGreedy c (Nat.pred lo) (option_map Nat.pred hi) r
                        (advance st r) k with
        | Some res => Some res
        | None => stop
        end
      else stop
  | EmptyString => stop
  end.

Fixpoint run (re : t) (st : state) (k : cont) : option (option string) :=
  match re with
  | Eps => k st
  | Bol => if atStart st then k st else None
  | Eol => match rest st with EmptyString => k st | _ => None end
  | Set_ c =>
      match rest st with
      | String a r => if c a then k (advance st r) else None
      | EmptyString => None
      end
  | Seq a b => run a st (fun st' => run b st' k)
  | Alt a b =>
      match run a st k with
      | Some res => Some res
      | None => run b st k
      end
  | Plus c => plusGreedy c (rest st) st k
  | PlusLazy c => plusLazy c (rest st) st k
  | Rep c lo hi => repGreedy c lo hi (rest st) st k
  | Group a =>
      run a st (fun st' =>
        let n := String.length (rest st) - String.length (rest st') in
        k (mkState (atStart st') (rest st')
                   (Some (String.substring 0 n (rest st)))))
  end.

(** Try every start index, leftmost first. *)
Fixpoint searchFrom (re : t) (first : bool) (s : string)
  : option (option string) :=
  match run re (mkState first s None) (fun st => Some (grp st)) with
  | Some res => Some res
  | None =>
      match s with
      | String _ r => searchFrom re false r
      | EmptyString => None
      end
  end.

(** [re.test(s)] *)
Definition test (re : t) (s : string) : bool :=
  match searchFrom re true s with Some _ => true | None => false end.

(** [s.match(re)] read at index 1: the text of the capture group. *)
Definition match1 (re : t) (s : string) : option string :=
  match searchFrom re true s with
  | Some g => g
  | None => None
  end.

(** Pattern builders. *)
Definition chr (x : ascii) : t := Set_ (Ascii.eqb x).

(** A literal character under the [i] flag. *)
Definition chrI (x : ascii) : t :=
  Set_ (fun c => Ascii.eqb (Js.lowerChar c) (Js.lowerChar x)).

Fixpoint seqOf (f : ascii -> t) (s : string) : t :=
  match s with
  | EmptyString => Eps
  | String c EmptyString => f c
  | String c r => Seq (f c) (seqOf f r)
  end.

(** Literal text, as written and under the [i] flag. *)
Definition lit : string -> t := seqOf chr.
Definition litI : string -> t := seqOf chrI.

(** [a|b|...] *)
Fixpoint alts (l : list t) : t :=
  match l with
  | [] => Eps
  | [a] => a
  | a :: r => Alt a (alts r)
  end.

(** [a b ...] in sequence. *)
Fixpoint seqs (l : list t) : t :=
  match l with
  | [] => Eps
  | [a] => a
  | a :: r => Seq a (seqs r)
  end.

End Regex.

(* ================================================================== *)
(** ** Location classifier ([isLocationInCountry]) *)
(* ================================================================== *)

Module Classifier.

Import Js.

(** Letters of the tables that lie outside ASCII. *)
Definition a_acute : string := String (ascii_of_N 225) "".
Definition i_circ  : string := String (ascii_of_N 238) "".
Definition n_tilde : string := String (ascii_of_N 241) "".
Definition o_acute : string := String (ascii_of_N 243) "".
Definition u_uml   : string := String (ascii_of_N 252) "".

Definition table := list (string * list string).

(** [tbl[key] || []] *)
Fixpoint lookup (tbl : table) (key : string) : list string :=
  match tbl with
  | [] => []
  | (k, v) :: r => if String.eqb k key then v else lookup r key
  end.

Definition COUNTRY_LOCATIONS : table :=
  [ ("in",
     [ "bangalore"; "bengaluru"; "mumbai"; "delhi"; "gurgaon"; "gurugram";
       "pune"; "hyderabad"; "kolkata"; "chennai"; "jaipur"; "lucknow";
       "ahmedabad"; "chandigarh"; "indore"; "bhopal"; "visakhapatnam";
       "kochi"; "vadodara"; "surat"; "nagpur"; "coimbatore"; "ghaziabad";
       "ludhiana"; "noida"; "faridabad"; "trivandrum";
       "thiruvananthapuram"; "kottayam"; "thrissur"; "ernakulam";
       "kozhikode"; "kannur"; "palakkad"; "malappuram"; "pathanamthitta" ]);
    ("us",
     [ "new york"; "los angeles"; "chicago"; "houston"; "phoenix";
       "philadelphia"; "san antonio"; "san diego"; "dallas"; "san jose";
       "austin"; "jacksonville"; "fort worth"; "columbus"; "indianapolis";
       "charlotte"; "san francisco"; "seattle"; "denver"; "boston";
       "el paso"; "detroit"; "nashville"; "portland"; "memphis";
       "oklahoma city"; "las vegas"; "louisville"; "baltimore";
       "milwaukee"; "albuquerque"; "tucson"; "fresno"; "mesa";
       "sacramento"; "atlanta"; "kansas city"; "colorado springs";
       "miami"; "raleigh"; "omaha"; "long beach"; "virginia beach";
       "oakland"; "minneapolis"; "tulsa"; "arlington"; "tampa";
       "new orleans" ]);
    ("uk",
     [ "london"; "birmingham"; "manchester"; "leeds"; "glasgow";
       "newcastle"; "sheffield"; "liverpool"; "bristol"; "nottingham";
       "leicester"; "brighton"; "plymouth"; "southampton"; "reading";
       "derby"; "dundee"; "cardiff"; "edinburgh"; "belfast"; "oxford";
       "cambridge"; "york"; "bath"; "norwich"; "portsmouth" ]);
    ("ca",
     [ "toronto"; "montreal"; "vancouver"; "calgary"; "edmonton";
       "ottawa"; "winnipeg"; "quebec city"; "hamilton"; "kitchener";
       "london"; "halifax"; "victoria"; "saskatoon"; "regina";
       "sherbrooke"; "kelowna"; "abbotsford"; "sudbury"; "kingston";
       "sault ste marie"; "thunder bay"; "north bay" ]);
    ("au",
     [ "sydney"; "melbourne"; "brisbane"; "perth"; "adelaide";
       "gold coast"; "canberra"; "newcastle"; "wollongong"; "logan";
       "geelong"; "hobart"; "townsville"; "cairns"; "darwin";
       "toowoomba"; "ballarat"; "bendigo" ]);
    ("de",
     [ "berlin"; "hamburg"; "munich"; "cologne"; "frankfurt"; "stuttgart";
       "d" ++ u_uml ++ "sseldorf"; "dortmund"; "essen"; "leipzig";
       "bremen"; "dresden"; "hanover"; "nuremberg"; "duisburg"; "bochum";
       "wuppertal"; "bielefeld" ]);
    ("fr",
     [ "paris"; "marseille"; "lyon"; "toulouse"; "nice"; "nantes";
       "strasbourg"; "montpellier"; "bordeaux"; "lille"; "rennes";
       "reims"; "le havre"; "saint-etienne"; "toulon"; "grenoble";
       "dijon"; "angers"; "n" ++ i_circ ++ "mes"; "villeurbanne" ]);
    ("nl",
     [ "amsterdam"; "rotterdam"; "the hague"; "utrecht"; "eindhoven";
       "tilburg"; "groningen"; "almere"; "breda"; "nijmegen"; "enschede";
       "haarlem"; "arnhem"; "amersfoort"; "zwolle"; "zoetermeer";
       "den haag"; "apeldoorn"; "heerlen" ]);
    ("sg",
     [ "singapore"; "jurong"; "tampines"; "yishun"; "bedok"; "woodlands";
       "ang mo kio"; "hougang"; "choa chu kang"; "sengkang"; "punggol";
       "bukit batok"; "bukit panjang" ]);
    ("es",
     [ "madrid"; "barcelona"; "valencia"; "seville"; "zaragoza";
       "m" ++ a_acute ++ "laga"; "murcia"; "palma"; "las palmas";
       "bilbao"; "alicante"; "c" ++ o_acute ++ "rdoba"; "valladolid";
       "vigo"; "gij" ++ o_acute ++ "n"; "hospitalet de llobregat";
       "la coru" ++ n_tilde ++ "a"; "granada"; "vitoria-gasteiz" ]) ].

Definition COUNTRY_STATE_CODES : table :=
  [ ("in", [ "in"; "in-ka"; "in-tn"; "in-mh"; "in-dl"; "in-hr"; "in-up";
             "in-ap"; "in-jk"; "in-hp"; "in-pb"; "in-gj" ]);
    ("us", [ "al"; "ak"; "az"; "ar"; "ca"; "co"; "ct"; "de"; "fl"; "ga";
             "hi"; "id"; "il"; "in"; "ia"; "ks"; "ky"; "la"; "me"; "md";
             "ma"; "mi"; "mn"; "ms"; "mo"; "mt"; "ne"; "nv"; "nh"; "nj";
             "nm"; "ny"; "nc"; "nd"; "oh"; "ok"; "or"; "pa"; "ri"; "sc";
             "sd"; "tn"; "tx"; "ut"; "vt"; "va"; "wa"; "wv"; "wi"; "wy" ]);
    ("uk", [ "england"; "scotland"; "wales"; "northern ireland" ]);
    ("ca", [ "on"; "qc"; "bc"; "ab"; "mb"; "sk"; "ns"; "nb"; "nl"; "pe";
             "nt"; "yt"; "nu" ]);
    ("au", [ "nsw"; "vic"; "qld"; "wa"; "sa"; "tas"; "act"; "nt" ]);
    ("de", [ "bw"; "by"; "be"; "bb"; "hb"; "hh"; "he"; "mv"; "ni"; "nw";
             "rp"; "sl"; "sn"; "st"; "sh"; "th" ]);
    ("fr", [ "ara"; "bfc"; "bre"; "cvl"; "cor"; "ges"; "hdf"; "idf";
             "nor"; "nau"; "occ"; "pac"; "pdl" ]);
    ("nl", [ "dr"; "fl"; "fr"; "ge"; "gr"; "li"; "nb"; "nh"; "ov"; "ut";
             "ze"; "zh" ]);
    ("sg", [ "central"; "north"; "north-east"; "east"; "west" ]);
    ("es", [ "an"; "ar"; "as"; "ib"; "cn"; "cb"; "cl"; "cm"; "ct"; "ce";
             "ga"; "ri"; "md"; "mc"; "nc"; "pv"; "vc" ]) ].

Definition EXCLUDE_US_STATES : list string :=
  [ "alabama"; "alaska"; "arizona"; "arkansas"; "california"; "colorado";
    "connecticut"; "delaware"; "florida"; "georgia"; "hawaii"; "idaho";
    "illinois"; "indiana"; "iowa"; "kansas"; "kentucky"; "louisiana";
    "maine"; "maryland"; "massachusetts"; "michigan"; "minnesota";
    "mississippi"; "missouri"; "montana"; "nebraska"; "nevada";
    "hampshire"; "jersey"; "mexico"; "york"; "carolina"; "dakota"; "ohio";
    "oklahoma"; "oregon"; "pennsylvania"; "rhode"; "south"; "tennessee";
    "texas"; "utah"; "vermont"; "virginia"; "washington"; "wisconsin";
    "wyoming" ].

(** The object literal [countryNames] inside the function. *)
Definition countryNames : table :=
  [ ("in", [ "india" ]);
    ("us", [ "united states"; "usa"; "america" ]);
    ("uk", [ "united kingdom"; "uk"; "britain"; "england"; "scotland";
             "wales" ]);
    ("ca", [ "canada" ]);
    ("au", [ "australia" ]);
    ("de", [ "germany"; "deutschland" ]);
    ("fr", [ "france" ]);
    ("nl", [ "netherlands"; "holland" ]);
    ("sg", [ "singapore" ]);
    ("es", [ "spain"; "espa" ++ n_tilde ++ "a" ]) ].

(** An optional string argument in a boolean position. *)
Definition given (o : option string) : bool :=
  match o with Some s => nonEmpty s | None => false end.

(** [[city, state, country].filter(Boolean)] *)
Definition present (l : list (option string)) : list string :=
  flat_map (fun o => match o with
                     | Some s => if nonEmpty s then [s] else []
                     | None => []
                     end) l.

(** The disjunction that accepts an explicit country field. *)
Definition explicitCountryMatches
           (targetCountryIso targetCountryLower countryLower : string) : bool :=
  let same := String.eqb countryLower in
  let target := String.eqb targetCountryIso in
  same targetCountryLower
  || same targetCountryIso
  || (target "in" && (same "india" || startsWith "in-" countryLower || same "in,"))
  || (target "us" && (same "united states" || same "usa" || same "us," || same "u.s."))
  || (target "uk" && (same "united kingdom" || same "uk," || same "great britain"))
  || (target "ca" && (same "canada" || same "ca,"))
  || (target "au" && (same "australia" || same "au,"))
  || (target "de" && (same "germany" || same "deutschland" || same "de,"))
  || (target "fr" && (same "france" || same "fr,"))
  || (target "nl" && (same "netherlands" || same "holland" || same "nl,"))
  || (target "sg" && (same "singapore" || same "sg,"))
  || (target "es" && (same "spain" || same ("espa" ++ n_tilde ++ "a") || same "es,")).

(** One round of the loop over [EXCLUDE_US_STATES]. *)
Definition usStateHit (locLower usState : string) : bool :=
  includes (", " ++ usState) locLower
  || includes (", " ++ toUpperCase usState) locLower
  || endsWith (", " ++ usState) locLower.

(** [new RegExp(`(^|\\s|,)${cityName}(\\s|,|$)`, 'i')] *)
Definition sepClass (c : ascii) : bool :=
  isWhiteSpace c || Ascii.eqb c ","%char.

Definition cityPattern (cityName : string) : Regex.t :=
  Regex.seqs [ Regex.Group (Regex.Alt Regex.Bol (Regex.Set_ sepClass));
               Regex.litI cityName;
               Regex.Alt (Regex.Set_ sepClass) Regex.Eol ].

Definition keywordHit (locLower fullLocation keyword : string) : bool :=
  includes (", " ++ keyword) locLower
  || endsWith (", " ++ keyword) locLower
  || String.eqb locLower keyword
  || String.eqb fullLocation keyword.

(** The heuristics that run when no country field is given: the
    US-state exclusion, the subdivision codes, the city names and the
    country keywords, in the order of the source. *)
Definition classify (targetCountryIso locLower fullLocation : string) : bool :=
  if negb (String.eqb targetCountryIso "us")
     && existsb (usStateHit locLower) EXCLUDE_US_STATES
  then false
  else if existsb (fun stateCode =>
                     includes stateCode locLower
                     || includes stateCode fullLocation)
                  (lookup COUNTRY_STATE_CODES targetCountryIso)
  then true
  else if existsb (fun cityName =>
                     Regex.test (cityPattern cityName) locLower
                     || Regex.test (cityPattern cityName) fullLocation)
                  (lookup COUNTRY_LOCATIONS targetCountryIso)
  then true
  else existsb (keywordHit locLower fullLocation)
               (lookup countryNames targetCountryIso).

Definition isLocationInCountry (targetCountryIso location : string)
           (city state country : option string) : bool :=
  if negb (nonEmpty location) && negb (given city)
     && negb (given state) && negb (given country)
  then false
  else
    let locLower := toLowerCase location in
    let fullLocation :=
      toLowerCase (join " " (present [city; state; country])) in
    let targetCountryLower := toLowerCase targetCountryIso in
    if given country then
      explicitCountryMatches
        targetCountryIso targetCountryLower
        (trim (toLowerCase (match country with Some c => c | None => "" end)))
    else classify targetCountryIso locLower fullLocation.

End Classifier.

(* ================================================================== *)
(** ** JavaScript values and exceptions *)
(* ================================================================== *)

(** The value of one field of a decoded JSON record: [undefined] for a
    missing field, or a scalar.  Numbers are the integers; nested objects and
    arrays as field values are not covered. *)
Module Value.

Inductive t : Type :=
| Undefined
| Null
| Bool (b : bool)
| Num (n : Z)
| Str (s : string).

(** The value in a boolean position. *)
Definition truthy (v : t) : bool :=
  match v with
  | Undefined | Null => false
  | Bool b => b
  | Num n => negb (n =? 0)%Z
  | Str s => Js.nonEmpty s
  end.

(** [a || b] *)
Definition or (a b : t) : t := if truthy a then a else b.

(** String conversion, as performed by [Array.prototype.join] on an
    element that is neither [null] nor [undefined]. *)
Definition toStr (v : t) : string :=
  match v with
  | Undefined => "undefined"
  | Null => "null"
  | Bool true => "true"
  | Bool false => "false"
  | Num n => Js.ofZ n
  | Str s => s
  end.

(** A value on which a string method can be called wherever the source
    guards the call by a truth test: a string, or a falsy value. *)
Definition textual (v : t) : bool :=
  match v with
  | Str _ => true
  | _ => negb (truthy v)
  end.

Definition eqb (a b : t) : bool :=
  match a, b with
  | Undefined, Undefined => true
  | Null, Null => true
  | Bool x, Bool y => Bool.eqb x y
  | Num x, Num y => (x =? y)%Z
  | Str x, Str y => String.eqb x y
  | _, _ => false
  end.

End Value.

(** A computation either returns or throws. *)
Inductive outcome (A : Type) : Type :=
| Returned (a : A)
| Thrown (e : string).
Arguments Returned {A} a.
Arguments Thrown {A} e.

Definition bindO {A B} (m : outcome A) (f : A -> outcome B) : outcome B :=
  match m with
  | Returned a => f a
  | Thrown e => Thrown e
  end.

Notation "x <- m ;; k" := (bindO m (fun x => k))
  (at level 61, m at next level, right associativity).

(** Calling a string method on a value: a [TypeError] unless the value is a
    string. *)
Definition asString (v : Value.t) : outcome string :=
  match v with
  | Value.Str s => Returned s
  | _ => Thrown "TypeError"
  end.

(* ================================================================== *)
(** ** Response normalizer ([parseJobData]) *)
(* ================================================================== *)

Module Normalizer.

Import Js.

(** A decoded job object: its own properties, in order, each name once. *)
Definition fields := list (string * Value.t).

(** [jobData[name]] *)
Fixpoint get (o : fields) (name : string) : Value.t :=
  match o with
  | [] => Value.Undefined
  | (k, v) :: r => if String.eqb k name then v else get r name
  end.

(** One element of the result array: a falsy value ([null]) or an
    object. *)
Inductive rawJob : Type :=
| Falsy
| Obj (o : fields).

(** [postedDate] is a field of the payload for an API job and the ISO
    rendering of an instant (milliseconds since the epoch) for a synthetic
    one. *)
Inductive posted : Type :=
| PostedRaw (v : Value.t)
| PostedIso (millis : Z).

Record ParsedJob : Type := mkParsedJob
  { title : Value.t;
    company : string;
    location : string;
    city : Value.t;
    state : Value.t;
    country : Value.t;
    description : Value.t;
    minSalary : Value.t;
    maxSalary : Value.t;
    salaryPeriod : Value.t;
    jobType : Value.t;
    postedDate : posted;
    externalLink : Value.t;
    jobId : Value.t;
    source : string;
    isRemote : Value.t;
    rawData : option fields }.

Definition possibleCompanyFields : list string :=
  [ "employer_name"; "company"; "employer"; "job_publisher";
    "employer_name_simple"; "publisher_name"; "hiring_company";
    "job_company"; "business_name"; "employer_company"; "company_name" ].

(** The loop over [possibleCompanyFields]: the first field holding a
    string that is not blank, trimmed. *)
Fixpoint firstCompany (o : fields) (names : list string) : string :=
  match names with
  | [] => ""
  | f :: r =>
      match get o f with
      | Value.Str s =>
          if nonEmpty s && nonEmpty (trim s) then trim s
          else firstCompany o r
      | _ => firstCompany o r
      end
  end.

Definition dot (c : ascii) : bool := negb (isLineTerminator c).

Definition invalidCompanyPatterns : list Regex.t :=
  let anchored body := Regex.Seq Regex.Bol body in
  let whole body := Regex.seqs [Regex.Bol; body; Regex.Eol] in
  [ anchored (Regex.litI "test");                 (* /^test/i *)
    anchored (Regex.litI "example");              (* /^example/i *)
    whole (Regex.litI "unknown");                 (* /^unknown$/i *)
    anchored (Regex.litI "bebe");                 (* /^bebe/i *)
    whole (Regex.Rep isLowerAZ 1 (Some 2));       (* /^[a-z]{1,2}$/ *)
    whole (Regex.Rep dot 50 None);                (* /^.{50,}$/ *)
    whole (Regex.Plus isDigit);                   (* /^\d+$/ *)
    anchored (Regex.litI "http");                 (* /^http/i *)
    whole (Regex.litI "confidential");            (* /^confidential$/i *)
    whole (Regex.litI "private") ].               (* /^private$/i *)

Definition isValidCompany (companyName : string) : bool :=
  nonEmpty companyName
  && negb (existsb (fun pattern => Regex.test pattern companyName)
                   invalidCompanyPatterns).

(** The class [[A-Za-z\s&,\.]] *)
Definition nameChar (c : ascii) : bool :=
  isLetterAZ c || isWhiteSpace c
  || Ascii.eqb c "&"%char || Ascii.eqb c ","%char || Ascii.eqb c "."%char.

(** [/(?:at|for|with|@)\s+([A-Z][A-Za-z\s&,\.]+?)(?:\s|$)/i] *)
Definition titlePattern : Regex.t :=
  Regex.seqs
    [ Regex.alts [ Regex.litI "at"; Regex.litI "for"; Regex.litI "with";
                   Regex.lit "@" ];
      Regex.Plus isWhiteSpace;
      Regex.Group (Regex.Seq (Regex.Set_ isLetterAZ) (Regex.PlusLazy nameChar));
      Regex.Alt (Regex.Set_ isWhiteSpace) Regex.Eol ].

(** [/(?:At|About|Join|For|Working at|Company:|Employer:) ([A-Z][A-Za-z\s&,\.]+?)(?:\,|\.|\s(?:is|we|are|has|offers))/] *)
Definition descriptionPattern : Regex.t :=
  Regex.seqs
    [ Regex.alts [ Regex.lit "At"; Regex.lit "About"; Regex.lit "Join";
                   Regex.lit "For"; Regex.lit "Working at";
                   Regex.lit "Company:"; Regex.lit "Employer:" ];
      Regex.lit " ";
      Regex.Group (Regex.Seq (Regex.Set_ isUpperAZ) (Regex.PlusLazy nameChar));
      Regex.alts
        [ Regex.lit ","; Regex.lit ".";
          Regex.Seq (Regex.Set_ isWhiteSpace)
            (Regex.alts [ Regex.lit "is"; Regex.lit "we"; Regex.lit "are";
                          Regex.lit "has"; Regex.lit "offers" ]) ] ].

(** [v.match(pattern)] followed by the test [m && m[1]] and the trim of
    the group; the empty string stands for no match. *)
Definition extractWith (pattern : Regex.t) (v : Value.t) : outcome string :=
  s <- asString v ;;
  Returned match Regex.match1 pattern s with
           | Some g => if nonEmpty g then trim g else ""
           | None => ""
           end.

Definition isQuote (c : ascii) : bool :=
  (code c =? 34)%N || (code c =? 39)%N.

Fixpoint dropTrailingQuote (s : string) : string :=
  match s with
  | EmptyString => EmptyString
  | String c EmptyString => if isQuote c then EmptyString else s
  | String c r => String c (dropTrailingQuote r)
  end.

(** [s.replace(/^["']|["']$/g, '')]: one quote off the front, then one
    off the end of what follows. *)
Definition stripQuotes (s : string) : string :=
  match s with
  | String c r => if isQuote c then dropTrailingQuote r else dropTrailingQuote s
  | EmptyString => EmptyString
  end.

(** The parts of a combined location string. *)
Definition splitLocation (rawLocation : string) : list string :=
  map trim (split ","%char rawLocation).

(** The block that fills city, state and country from [job_location]. *)
Definition fromRawLocation (parts : list string) (csc : Value.t * Value.t * Value.t)
  : Value.t * Value.t * Value.t :=
  let '(city, state, country) := csc in
  let n := List.length parts in
  if (2 <=? n)%nat then
    ( Value.or city (Value.Str (join ", " (firstn (n - 2) parts))),
      Value.or state (Value.Str (nth (n - 2) parts "")),
      Value.or country (Value.Str (nth (n - 1) parts "")) )
  else if (n =? 1)%nat then
    ( Value.or city (Value.Str (nth 0 parts "")), state, country )
  else csc.

(** [locationParts]: the truthy ones among city, state and country. *)
Definition locationParts (city state country : Value.t) : list Value.t :=
  filter Value.truthy [city; state; country].

Definition displayLocation (parts : list Value.t) : string :=
  match parts with
  | [] => "Remote"
  | _ => join ", " (map Value.toStr parts)
  end.

(** City, state and country: the dedicated fields first, then the
    combined [job_location] when city and state are both missing. *)
Definition locationFields (o : fields) : outcome (Value.t * Value.t * Value.t) :=
  let city := Value.or (Value.or (get o "job_city") (get o "city")) (Value.Str "") in
  let state := Value.or (Value.or (get o "job_state") (get o "state")) (Value.Str "") in
  let country :=
    Value.or (Value.or (get o "job_country") (get o "country")) (Value.Str "") in
  let rawLocation := Value.or (get o "job_location") (Value.Str "") in
  if Value.truthy rawLocation
     && negb (Value.truthy city) && negb (Value.truthy state)
  then
    s <- asString rawLocation ;;
    Returned (fromRawLocation (splitLocation s) (city, state, country))
  else Returned (city, state, country).

(** The company name: the candidate fields, the validation, the two
    extractions, the fallback literal and the final clean-up. *)
Definition companyOf (o : fields) : outcome string :=
  let found := firstCompany o possibleCompanyFields in
  let companyName := if isValidCompany found then found else "" in
  companyName <-
    (if nonEmpty companyName then Returned companyName
     else
       fromTitle <- (if Value.truthy (get o "job_title")
                     then extractWith titlePattern (get o "job_title")
                     else Returned "") ;;
       if negb (nonEmpty fromTitle) && Value.truthy (get o "job_description")
       then extractWith descriptionPattern (get o "job_description")
       else Returned fromTitle) ;;
  let companyName :=
    if nonEmpty companyName then companyName else "Unknown Company" in
  Returned (stripQuotes (trim companyName)).

(** [jobData.job_apply_link || jobData.apply_link || jobData.job_url ||
    jobData.google_link || jobData.link || ''] *)
Definition applyLinkOf (o : fields) : Value.t :=
  Value.or (Value.or (Value.or (Value.or (Value.or
    (get o "job_apply_link") (get o "apply_link")) (get o "job_url"))
    (get o "google_link")) (get o "link")) (Value.Str "").

(** [applyLink && !applyLink.includes('example.com') ? 'JSearch API' : 'Fallback Data'] *)
Definition sourceOf (applyLink : Value.t) : outcome string :=
  if Value.truthy applyLink then
    s <- asString applyLink ;;
    Returned (if negb (includes "example.com" s)
              then "JSearch API" else "Fallback Data")
  else Returned "Fallback Data".

(** The body of the [try] block for a truthy [jobData]. *)
Definition parseFields (o : fields) : outcome ParsedJob :=
  csc <- locationFields o ;;
  let '(city, state, country) := csc in
  let location := displayLocation (locationParts city state country) in
  companyName <- companyOf o ;;
  let applyLink := applyLinkOf o in
  source <- sourceOf applyLink ;;
  Returned
    {| title := Value.or (Value.or (get o "job_title") (get o "title"))
                         (Value.Str "Untitled");
       company := if nonEmpty companyName then companyName
                  else "Unknown Company";
       location := location;
       city := city;
       state := state;
       country := country;
       description := Value.or (Value.or (get o "job_description")
                                         (get o "description")) (Value.Str "");
       minSalary := Value.or (Value.or (get o "job_min_salary")
                                       (get o "min_salary")) (get o "minSalary");
       maxSalary := Value.or (Value.or (get o "job_max_salary")
                                       (get o "max_salary")) (get o "maxSalary");
       salaryPeriod := Value.or (Value.or (get o "job_salary_period")
                                          (get o "salary_period"))
                                (Value.Str "YEARLY");
       jobType := Value.or (Value.or (get o "job_employment_type")
                                     (get o "jobType")) (Value.Str "Full-time");
       postedDate :=
         PostedRaw (Value.or (Value.or (get o "job_posted_at_datetime_utc")
                                       (get o "job_posted_at_timestamp"))
                             (get o "posted_date"));
       externalLink := applyLink;
       jobId := Value.or (get o "job_id") (get o "id");
       source := source;
       isRemote :=
         Value.or (Value.or (get o "job_is_remote") (get o "is_remote"))
                  (Value.Bool (includes "remote" (toLowerCase location)));
       rawData := Some o |}.


(** [parseJobData]: [None] is the [null] of the source, returned for a
    falsy argument and from the [catch] clause. *)
Definition parseJobData (jobData : rawJob) : option ParsedJob :=
  match jobData with
  | Falsy => None
  | Obj o =>
      match parseFields o with
      | Returned parsed => Some parsed
      | Thrown _ => None
      end
  end.

End Normalizer.

(* ================================================================== *)
(** ** Paginated fetcher ([JSearchService]) *)
(* ================================================================== *)

Module Fetcher.

Import Js.
Import Classifier.
Export Normalizer.

Record JobSearchParams : Type := mkParams
  { query : string;
    searchLocation : option string;
    searchCountry : option string;
    numPages : option Z;
    pageSize : option Z }.

(** The object [requestParams] sent to the [search] endpoint. *)
Record Request : Type := mkRequest
  { r_query : string;
    r_country : option string;
    r_page : Z;
    r_num_pages : Z;
    r_page_size : Z }.

(** [response.data] of a decoded body: missing or falsy, an array of
    jobs, or an object with an optional array [jobs]. *)
Inductive responseData : Type :=
| NoData
| DataArray (jobs : list rawJob)
| DataObject (jobs : option (list rawJob)).

(** One HTTP exchange as [makeRequestWithRetry] sees it.  [Failed] stands
    for everything that lands in its [catch]: a rejected fetch, a status
    that is not ok, a body that is not JSON or is [null], an [error]
    field in the body. *)
Inductive httpResult : Type :=
| Failed
| Body (data : responseData).

(** What the run has done to the outside so far: the requests sent
    (newest first), and how many random numbers and clock readings it has
    consumed. *)
Record World : Type := mkWorld
  { history : list Request;
    draws : nat;
    ticks : nat }.

(** [Array.isArray(response.data) ? response.data : response.data.jobs || []],
    under the guard [response && response.data]. *)
Definition apiJobsOf (d : responseData) : option (list rawJob) :=
  match d with
  | NoData => None
  | DataArray l => Some l
  | DataObject (Some l) => Some l
  | DataObject None => Some []
  end.

(** The arguments of the classifier as it receives them from a parsed
    job: a falsy field counts as absent, a truthy one is read through its
    string conversion by [join]. *)
Definition optArg (v : Value.t) : option string :=
  if Value.truthy v then Some (Value.toStr v) else None.

(** [isLocationInCountry(target, parsed.location, parsed.city,
    parsed.state, parsed.country)].  A truthy country that is not a string
    has no [toLowerCase]: the call throws. *)
Definition inCountry (target : string) (p : ParsedJob) : outcome bool :=
  match country p with
  | Value.Str s =>
      Returned (isLocationInCountry target (location p)
                  (optArg (city p)) (optArg (state p)) (Some s))
  | v =>
      if Value.truthy v then Thrown "TypeError"
      else Returned (isLocationInCountry target (location p)
                       (optArg (city p)) (optArg (state p)) None)
  end.

(** The loop over the jobs of one page.  [jobs] is the array being filled;
    the flag tells whether the loop was left by an exception, in which
    case the jobs pushed before it stay in the array. *)
Fixpoint processPage (target : string) (apiJobs : list rawJob)
         (jobs : list ParsedJob) : list ParsedJob * bool :=
  match apiJobs with
  | [] => (jobs, false)
  | job :: more =>
      match parseJobData job with
      | None => processPage target more jobs
      | Some parsed =>
          match inCountry target parsed with
          | Thrown _ => (jobs, true)
          | Returned true => processPage target more (jobs ++ [parsed])
          | Returned false => processPage target more jobs
          end
      end
  end.

Definition companies : list string :=
  [ "Google"; "Microsoft"; "Apple"; "Amazon"; "Facebook"; "Netflix";
    "Uber"; "Airbnb"; "Tesla"; "SpaceX"; "Meta"; "LinkedIn";
    "Adobe"; "Salesforce"; "Cisco"; "Intel"; "Oracle"; "IBM";
    "GitHub"; "Stripe"; "Figma"; "Slack"; "Zoom"; "Notion" ].

Definition locations : list string :=
  [ "San Francisco, CA"; "New York, NY"; "Austin, TX"; "Seattle, WA";
    "Remote" ].

Definition jobTypes : list string := [ "Full-time"; "Contract"; "Part-time" ].

(** The object [requestParams] built for one page. *)
Definition requestParams (params : JobSearchParams) (pageSize page : Z)
  : Request :=
  {| r_query := query params;
     r_country := searchCountry params;
     r_page := page;
     r_num_pages := 1;
     r_page_size := pageSize |}.

(** [params.country || 'in'] *)
Definition targetOf (params : JobSearchParams) : string :=
  match searchCountry params with
  | Some c => if nonEmpty c then c else "in"
  | None => "in"
  end.

Section Service.

(** The service instance: its key and its retry budget. *)
Variable apiKey : string.
Variable maxRetries : Z.

(** The outside: the remote API answers the newest request of a
    history; [rand] is the sequence of random numbers and [clock] the
    sequence of clock readings. *)
Variable server : list Request -> httpResult.
Variable rand : nat -> N.
Variable clock : nat -> Z.

(** [Math.floor(Math.random() * n)]: the next random number, brought
    into the integers below [n]. *)
Definition randomBelow (n : N) (w : World) : N * World :=
  ((rand (draws w) mod n)%N,
   mkWorld (history w) (S (draws w)) (ticks w)).

(** [Date.now()] *)
Definition now (w : World) : Z * World :=
  (clock (ticks w), mkWorld (history w) (draws w) (S (ticks w))).

(** One round of the loop of [generateFallbackJobs]. *)
Definition fallbackJob (params : JobSearchParams) (i : nat) (w : World)
  : ParsedJob * World :=
  let '(c, w) := randomBelow (N.of_nat (List.length companies)) w in
  let company := nth (N.to_nat c) companies "" in
  let '(l, w) := randomBelow (N.of_nat (List.length locations)) w in
  let location := nth (N.to_nat l) locations "" in
  let '(level, w) := randomBelow 3 w in
  let '(lo, w) := randomBelow 100000 w in
  let '(hi, w) := randomBelow 100000 w in
  let '(jt, w) := randomBelow (N.of_nat (List.length jobTypes)) w in
  let '(t1, w) := now w in
  let '(age, w) := randomBelow (30 * 24 * 60 * 60 * 1000) w in
  let '(t2, w) := now w in
  ({| title := Value.Str (query params ++ " - Level "
                          ++ ofZ (Z.of_N level + 1));
      company := company;
      location := location;
      city := Value.Undefined;
      state := Value.Undefined;
      country := Value.Undefined;
      description :=
        Value.Str (query params ++ " position at " ++ company
                   ++ ". We are looking for experienced professionals...");
      minSalary := Value.Num (80000 + Z.of_N lo);
      maxSalary := Value.Num (150000 + Z.of_N hi);
      salaryPeriod := Value.Str "YEARLY";
      jobType := Value.Str (nth (N.to_nat jt) jobTypes "");
      postedDate := PostedIso (t1 - Z.of_N age);
      externalLink :=
        Value.Str ("https://example.com/jobs/" ++ ofZ (Z.of_nat i));
      jobId := Value.Str ("job_" ++ ofZ t2 ++ "_" ++ ofZ (Z.of_nat i));
      source := "Fallback Data";
      isRemote := Value.Undefined;
      rawData := None |}, w).

(** [for (let i = 0; i < count; i++)], with [todo = count - i]. *)
Fixpoint fallbackLoop (params : JobSearchParams) (todo i : nat)
         (jobs : list ParsedJob) (w : World) : list ParsedJob * World :=
  match todo with
  | 0 => (jobs, w)
  | S todo' =>
      let '(job, w) := fallbackJob params i w in
      fallbackLoop params todo' (S i) (jobs ++ [job]) w
  end.

Definition generateFallbackJobs (params : JobSearchParams) (w : World)
  : list ParsedJob * World :=
  let '(r, w) := randomBelow 30 w in
  fallbackLoop params (N.to_nat r + 20) 0 [] w.

(** Sending one request: it joins the history and the server answers. *)
Definition send (req : Request) (w : World) : httpResult * World :=
  let h := req :: history w in
  (server h, mkWorld h (draws w) (ticks w)).

(** [makeRequestWithRetry], with [budget = maxRetries - retryCount]:
    the test [retryCount < maxRetries] is [budget > 0].  [None] is the
    error thrown once the budget is spent. *)
Fixpoint retryLoop (budget : nat) (req : Request) (w : World)
  : option responseData * World :=
  let '(res, w) := send req w in
  match res with
  | Body data => (Some data, w)
  | Failed =>
      match budget with
      | 0 => (None, w)
      | S budget' => retryLoop budget' req w
      end
  end.

Definition makeRequestWithRetry (req : Request) (w : World)
  : option responseData * World :=
  retryLoop (Z.to_nat maxRetries) req w.

(** How the page loop of [searchJobs] ends: by running out of pages or
    by a [break], with the jobs kept so far, or by the [return] of the
    first-page handler. *)
Inductive loopExit : Type :=
| Finished (jobs : list ParsedJob)
| FirstPageFailed.

(** What the [catch (pageError)] clause does. *)
Definition onPageError (page : Z) (jobs : list ParsedJob) : loopExit :=
  if (page =? 1)%Z then FirstPageFailed else Finished jobs.

(** [for (let page = 1; page <= numPages; page++)], with [todo] the
    number of pages still to visit. *)
Fixpoint pageLoop (params : JobSearchParams) (pageSize : Z)
         (todo : nat) (page : Z) (jobs : list ParsedJob) (w : World)
  : loopExit * World :=
  match todo with
  | 0 => (Finished jobs, w)
  | S todo' =>
      let '(response, w) :=
        makeRequestWithRetry (requestParams params pageSize page) w in
      match response with
      | None => (onPageError page jobs, w)
      | Some data =>
          match apiJobsOf data with
          | None => (Finished jobs, w)
          | Some [] => (Finished jobs, w)
          | Some apiJobs =>
              let '(jobs, threw) :=
                processPage (targetOf params) apiJobs jobs in
              if threw then (onPageError page jobs, w)
              else pageLoop params pageSize todo' (page + 1) jobs w
          end
      end
  end.

(** The states of the page loop that a run passes through on its way:
    from a state with pages to visit, a page that is fetched, is not
    empty and is processed without an exception leads to the state of
    the next page. *)
Inductive reaches (params : JobSearchParams) (pageSize : Z)
  : nat * Z * list ParsedJob * World ->
    nat * Z * list ParsedJob * World -> Prop :=
| reaches_here st : reaches params pageSize st st
| reaches_next st todo page jobs w data apiJobs jobs' w' :
    reaches params pageSize st (S todo, page, jobs, w) ->
    makeRequestWithRetry (requestParams params pageSize page) w
    = (Some data, w') ->
    apiJobsOf data = Some apiJobs ->
    apiJobs <> [] ->
    processPage (targetOf params) apiJobs jobs = (jobs', false) ->
    reaches params pageSize st (todo, (page + 1)%Z, jobs', w').

(** Did the server answer the newest request of a history with an
    empty list of jobs? *)
Definition emptyAnswer (h : list Request) : bool :=
  match server h with
  | Body data => match apiJobsOf data with
                 | Some [] => true
                 | _ => false
                 end
  | Failed => false
  end.

(** None of the requests [issued] on top of [h0] was answered with an
    empty list of jobs. *)
Fixpoint noEmptyAnswer (issued h0 : list Request) : bool :=
  match issued with
  | [] => true
  | r :: earlier =>
      negb (emptyAnswer (r :: earlier ++ h0)) && noEmptyAnswer earlier h0
  end.

(** [x || d] for an optional number. *)
Definition numberOr (x : option Z) (d : Z) : Z :=
  match x with
  | Some n => if (n =? 0)%Z then d else n
  | None => d
  end.

(** [searchJobs].  With arguments of the declared types nothing in the
    body throws outside the page handler, so the outer [catch], which
    also returns [generateFallbackJobs(params)], has no case here. *)
Definition searchJobs (params : JobSearchParams) (w : World)
  : list ParsedJob * World :=
  if negb (nonEmpty apiKey) then generateFallbackJobs params w
  else
    let numPages := numberOr (numPages params) 5 in
    let pageSize := numberOr (pageSize params) 50 in
    let '(exit, w) := pageLoop params pageSize (Z.to_nat numPages) 1 [] w in
    match exit with
    | FirstPageFailed => generateFallbackJobs params w
    | Finished [] => generateFallbackJobs params w
    | Finished jobs => (jobs, w)
    end.

(** [filterJobsByCountry]: the first exception ends the filter. *)
Fixpoint filterJobsByCountry (jobs : list ParsedJob) (targetCountryIso : string)
  : outcome (list ParsedJob) :=
  match jobs with
  | [] => Returned []
  | job :: more =>
      keep <- inCountry targetCountryIso job ;;
      kept <- filterJobsByCountry more targetCountryIso ;;
      Returned (if keep then job :: kept else kept)
  end.

End Service.

End Fetcher.

(* ================================================================== *)
(** ** Persistence and orchestration ([adminController.ts]) *)
(* ================================================================== *)

Module Admin.

Import Js.
Export Fetcher.

(** [meta] of a transformed job. *)
Record JobMeta : Type := mkMeta
  { m_jobId : Value.t;
    m_externalLink : Value.t;
    m_rawData : option fields }.

(** The object built by [filteredJobs.map(...)]. *)
Record JobInput : Type := mkJobInput
  { i_title : Value.t;
    i_company : string;
    i_location : string;
    i_description : Value.t;
    i_requirements : list string;
    i_responsibilities : list string;
    i_applyUrl : Value.t;
    i_salary : string;
    i_ctc : Value.t;
    i_jobType : Value.t;
    i_postedAt : posted;
    i_source : string;
    i_meta : JobMeta }.

Record CompanyDoc : Type := mkCompany
  { c_id : nat;
    c_name : string }.

(** A document of the jobs collection: the spread of the job input with
    the fields the save writes over or next to it. *)
Record JobDoc : Type := mkJobDoc
  { j_id : nat;
    j_input : JobInput;
    j_companyId : nat;
    j_sessionId : string;
    j_bucket : string;
    j_status : option string;
    j_createdAt : option Z;
    j_updatedAt : Z }.

(** Modelled from the spec: the models [Company] and [Job] are not among
    the sources; the two collections follow the persistence contract of
    the specification ([findCompany], [createCompany], [findJob],
    [upsertJob]): lists of documents in insertion order, identifiers
    handed out by a counter, operations that always succeed. *)
Record Store : Type := mkStore
  { companies : list CompanyDoc;
    jobs : list JobDoc;
    nextCompanyId : nat;
    nextJobId : nat }.

(** [Company.findOne({ name })] *)
Definition findCompany (name : string) (db : Store) : option CompanyDoc :=
  find (fun c => String.eqb (c_name c) name) (companies db).

(** [Company.create({ name, metadata })] *)
Definition createCompany (name : string) (db : Store) : CompanyDoc * Store :=
  let c := mkCompany (nextCompanyId db) name in
  (c, mkStore (companies db ++ [c]) (jobs db)
              (S (nextCompanyId db)) (nextJobId db)).

(** The object [jobIdentifier]. *)
Record JobIdentifier : Type := mkIdentifier
  { id_title : Value.t;
    id_companyId : nat;
    id_location : string }.

Definition matchesIdentifier (k : JobIdentifier) (d : JobDoc) : bool :=
  Value.eqb (i_title (j_input d)) (id_title k)
  && (j_companyId d =? id_companyId k)%nat
  && String.eqb (i_location (j_input d)) (id_location k).

(** [Job.findOne(jobIdentifier)] *)
Definition findJob (k : JobIdentifier) (db : Store) : option JobDoc :=
  find (matchesIdentifier k) (jobs db).

(** [Job.findByIdAndUpdate(id, patch)]: the first document with that
    identifier is replaced by its patched version. *)
Fixpoint updateById (id : nat) (patch : JobDoc -> JobDoc) (l : list JobDoc)
  : list JobDoc :=
  match l with
  | [] => []
  | d :: r => if (j_id d =? id)%nat then patch d :: r
              else d :: updateById id patch r
  end.

Definition withCompany (jobData : JobInput) (name : string) : JobInput :=
  mkJobInput (i_title jobData) name (i_location jobData)
             (i_description jobData) (i_requirements jobData)
             (i_responsibilities jobData) (i_applyUrl jobData)
             (i_salary jobData) (i_ctc jobData) (i_jobType jobData)
             (i_postedAt jobData) (i_source jobData) (i_meta jobData).

Definition withSource (jobData : JobInput) (src : string) : JobInput :=
  mkJobInput (i_title jobData) (i_company jobData) (i_location jobData)
             (i_description jobData) (i_requirements jobData)
             (i_responsibilities jobData) (i_applyUrl jobData)
             (i_salary jobData) (i_ctc jobData) (i_jobType jobData)
             (i_postedAt jobData) src (i_meta jobData).

(** The find-or-create step that opens the loop body of the save. *)
Definition resolveCompany (name : string) (db : Store) : CompanyDoc * Store :=
  match findCompany name db with
  | Some c => (c, db)
  | None => createCompany name db
  end.

(** [{ title: jobData.title, companyId: company._id, location: jobData.location }] *)
Definition jobIdentifier (jobData : JobInput) (company : CompanyDoc)
  : JobIdentifier :=
  {| id_title := i_title jobData;
     id_companyId := c_id company;
     id_location := i_location jobData |}.

(** The update object of [Job.findByIdAndUpdate]: the job data, the
    resolved company, the session and the bucket written over the stored
    document; status and creation time stay. *)
Definition updatePatch (jobData : JobInput) (company : CompanyDoc)
           (bucket sessionId : string) (updatedAt : Z) (d : JobDoc) : JobDoc :=
  mkJobDoc (j_id d) (withCompany jobData (c_name company))
           (c_id company) sessionId bucket
           (j_status d) (j_createdAt d) updatedAt.

(** The document given to [Job.create]. *)
Definition newJobDoc (id : nat) (jobData : JobInput) (company : CompanyDoc)
           (bucket sessionId : string) (createdAt updatedAt : Z) : JobDoc :=
  mkJobDoc id
           (withSource (withCompany jobData (c_name company))
                       (if nonEmpty (i_source jobData) then i_source jobData
                        else "JSearch API"))
           (c_id company) sessionId bucket
           (Some "published") (Some createdAt) updatedAt.

(** How many stored jobs carry a given identity. *)
Definition countMatching (k : JobIdentifier) (db : Store) : nat :=
  List.length (filter (matchesIdentifier k) (jobs db)).

(** Identifiers of stored jobs are unique and were handed out by the
    counter. *)
Definition wellFormed (db : Store) : Prop :=
  NoDup (map j_id (jobs db))
  /\ Forall (fun d => (j_id d < nextJobId db)%nat) (jobs db).

(** Two job inputs with the same title, company name and location. *)
Definition sameIdentity (a b : JobInput) : Prop :=
  i_title a = i_title b
  /\ i_company a = i_company b
  /\ i_location a = i_location b.

(** A search service that throws whenever it is asked for bucket [b]. *)
Definition throwsOn
           (searchJobs : JobSearchParams -> World -> outcome (list ParsedJob) * World)
           (b : string) : Prop :=
  forall params w, query params = b ->
                   exists e w', searchJobs params w = (Thrown e, w').

(** A search service that returns for bucket [b], with jobs on which the
    country filter does not throw. *)
Definition succeedsOn
           (searchJobs : JobSearchParams -> World -> outcome (list ParsedJob) * World)
           (b : string) : Prop :=
  forall params w, query params = b ->
                   exists found w',
                     searchJobs params w = (Returned found, w')
                     /\ forall target, exists kept,
                         filterJobsByCountry found target = Returned kept.

Section Orchestrator.

Variable clock : nat -> Z.

Let now := Fetcher.now clock.

(** The counters returned by [saveJobsToDatabase]. *)
Record SaveResult : Type := mkSaveResult
  { newCount : nat;
    updatedCount : nat }.

(** The body of the loop of [saveJobsToDatabase] for one job. *)
Definition saveJob (jobData : JobInput) (bucket sessionId : string)
           (acc : SaveResult) (db : Store) (w : World)
  : SaveResult * Store * World :=
  let '(company, db) := resolveCompany (i_company jobData) db in
  match findJob (jobIdentifier jobData company) db with
  | Some existingJob =>
      let '(t, w) := now w in
      (mkSaveResult (newCount acc) (S (updatedCount acc)),
       mkStore (companies db)
               (updateById (j_id existingJob)
                           (updatePatch jobData company bucket sessionId t)
                           (jobs db))
               (nextCompanyId db) (nextJobId db),
       w)
  | None =>
      let '(t1, w) := now w in
      let '(t2, w) := now w in
      (mkSaveResult (S (newCount acc)) (updatedCount acc),
       mkStore (companies db)
               (jobs db ++ [newJobDoc (nextJobId db) jobData company
                                      bucket sessionId t1 t2])
               (nextCompanyId db) (S (nextJobId db)),
       w)
  end.

Fixpoint saveLoop (todo : list JobInput) (bucket sessionId : string)
         (acc : SaveResult) (db : Store) (w : World)
  : SaveResult * Store * World :=
  match todo with
  | [] => (acc, db, w)
  | jobData :: more =>
      let '(acc, db, w) := saveJob jobData bucket sessionId acc db w in
      saveLoop more bucket sessionId acc db w
  end.

Definition saveJobsToDatabase (jobs : list JobInput) (bucket sessionId : string)
           (db : Store) (w : World) : SaveResult * Store * World :=
  saveLoop jobs bucket sessionId (mkSaveResult 0 0) db w.

(** The arrow function given to [filteredJobs.map]. *)
Definition transformJob (job : ParsedJob) (w : World) : JobInput * World :=
  let '(postedAt, w) :=
    match postedDate job with
    | PostedRaw v =>
        if Value.truthy v then (PostedRaw v, w)
        else let '(t, w) := now w in (PostedIso t, w)
    | PostedIso t => (PostedIso t, w)
    end in
  ({| i_title := Value.or (title job) (Value.Str "Untitled");
      i_company := if nonEmpty (company job) then company job
                   else "Unknown Company";
      i_location := if nonEmpty (location job) then location job
                    else "Remote";
      i_description := Value.or (description job) (Value.Str "");
      i_requirements := [];
      i_responsibilities := [];
      i_applyUrl := Value.or (externalLink job) (Value.Str "");
      i_salary :=
        if Value.truthy (maxSalary job) then
          Value.toStr (Value.or (minSalary job) (Value.Str "")) ++ "-"
          ++ Value.toStr (maxSalary job) ++ " "
          ++ Value.toStr (Value.or (salaryPeriod job) (Value.Str "YEARLY"))
        else "";
      i_ctc := maxSalary job;
      i_jobType := Value.or (jobType job) (Value.Str "Full-time");
      i_postedAt := postedAt;
      i_source := if nonEmpty (source job) then source job
                  else "JSearch API";
      i_meta := mkMeta (jobId job) (externalLink job) (rawData job) |}, w).

Fixpoint transformJobs (l : list ParsedJob) (w : World)
  : list JobInput * World :=
  match l with
  | [] => ([], w)
  | job :: more =>
      let '(j, w) := transformJob job w in
      let '(js, w) := transformJobs more w in
      (j :: js, w)
  end.

Inductive sessionStatus : Type :=
| in_progress | completed | failed | partial.

(** The scrape session document, as far as the orchestration writes
    it. *)
Record ScrapeSession : Type := mkSession
  { sessionId : string;
    bucketsRequested : list string;
    bucketsCompleted : list string;
    bucketsFailed : list string;
    status : sessionStatus;
    totalApiCalls : nat;
    totalJobsFound : nat;
    countryJobsFound : nat;
    countryJobsAdded : nat;
    newJobsAdded : nat;
    jobsUpdated : nat }.

(** The request body, after its defaults. *)
Record CrawlRequest : Type := mkCrawlRequest
  { buckets : list string;
    filterIndianJobs : bool;
    countryName : string;
    locationName : string }.

Definition countryMap : list (string * string) :=
  [ ("United States", "us"); ("Spain", "es"); ("United Kingdom", "uk");
    ("Canada", "ca"); ("Australia", "au"); ("Germany", "de");
    ("France", "fr"); ("Netherlands", "nl"); ("India", "in");
    ("Singapore", "sg") ].

(** [countryMap[country] || 'us'] *)
Fixpoint mapCountry (m : list (string * string)) (name : string) : string :=
  match m with
  | [] => "us"
  | (k, v) :: r => if String.eqb k name then v else mapCountry r name
  end.

(** [ScrapeSession.create({...})] *)
Definition createSession (sid : string) (req : CrawlRequest) : ScrapeSession :=
  mkSession sid (buckets req) [] [] in_progress 0 0 0 0 0 0.

(** The job search service used by the orchestration.  A call returns
    the jobs or throws. *)
Variable searchJobs :
  JobSearchParams -> World -> outcome (list ParsedJob) * World.

(** The local variables of the background task. *)
Record Progress : Type := mkProgress
  { p_totalApiCalls : nat;
    p_totalJobsFound : nat;
    p_countryJobsFound : nat;
    p_countryJobsAdded : nat;
    p_newJobsAdded : nat;
    p_jobsUpdated : nat;
    p_bucketsCompleted : list string;
    p_bucketsFailed : list string }.

Definition markCompleted (bucket : string) (p : Progress) : Progress :=
  mkProgress (p_totalApiCalls p) (p_totalJobsFound p) (p_countryJobsFound p)
             (p_countryJobsAdded p) (p_newJobsAdded p) (p_jobsUpdated p)
             (p_bucketsCompleted p ++ [bucket]) (p_bucketsFailed p).

Definition markFailed (bucket : string) (p : Progress) : Progress :=
  mkProgress (p_totalApiCalls p) (p_totalJobsFound p) (p_countryJobsFound p)
             (p_countryJobsAdded p) (p_newJobsAdded p) (p_jobsUpdated p)
             (p_bucketsCompleted p) (p_bucketsFailed p ++ [bucket]).

(** How one round of the loop leaves the two lists of buckets. *)
Inductive roundEnds (bucket : string) (p p' : Progress) : Prop :=
| round_completed :
    p_bucketsCompleted p' = (p_bucketsCompleted p ++ [bucket])%list ->
    p_bucketsFailed p' = p_bucketsFailed p ->
    roundEnds bucket p p'
| round_failed :
    p_bucketsCompleted p' = p_bucketsCompleted p ->
    p_bucketsFailed p' = (p_bucketsFailed p ++ [bucket])%list ->
    roundEnds bucket p p'.

(** One round of [for (const bucket of buckets)]: the [try] block and
    its [catch]. *)
Definition scrapeBucket (req : CrawlRequest) (mappedCountry sid bucket : string)
           (p : Progress) (db : Store) (w : World)
  : Progress * Store * World :=
  let p := mkProgress (S (p_totalApiCalls p)) (p_totalJobsFound p)
                      (p_countryJobsFound p) (p_countryJobsAdded p)
                      (p_newJobsAdded p) (p_jobsUpdated p)
                      (p_bucketsCompleted p) (p_bucketsFailed p) in
  let filter := filterIndianJobs req in
  let params :=
    {| query := bucket;
       searchLocation := Some (if filter then locationName req
                               else "United States");
       searchCountry := Some (if filter then mappedCountry else "us");
       numPages := Some 10%Z;
       pageSize := Some 50%Z |} in
  let '(found, w) := searchJobs params w in
  match found with
  | Thrown _ => (markFailed bucket p, db, w)
  | Returned [] => (markCompleted bucket p, db, w)
  | Returned jobs =>
      let p := mkProgress (p_totalApiCalls p)
                          (p_totalJobsFound p + List.length jobs)
                          (p_countryJobsFound p) (p_countryJobsAdded p)
                          (p_newJobsAdded p) (p_jobsUpdated p)
                          (p_bucketsCompleted p) (p_bucketsFailed p) in
      match (if filter then filterJobsByCountry jobs mappedCountry
             else Returned jobs) with
      | Thrown _ => (markFailed bucket p, db, w)
      | Returned filteredJobs =>
          let p := mkProgress (p_totalApiCalls p) (p_totalJobsFound p)
                     (if filter
                      then p_countryJobsFound p + List.length filteredJobs
                      else p_countryJobsFound p)
                     (p_countryJobsAdded p)
                     (p_newJobsAdded p) (p_jobsUpdated p)
                     (p_bucketsCompleted p) (p_bucketsFailed p) in
          let '(transformedJobs, w) := transformJobs filteredJobs w in
          let '(jobResults, db, w) :=
            saveJobsToDatabase transformedJobs bucket sid db w in
          let p := mkProgress (p_totalApiCalls p) (p_totalJobsFound p)
                     (p_countryJobsFound p)
                     (p_countryJobsAdded p + newCount jobResults)
                     (p_newJobsAdded p + newCount jobResults)
                     (p_jobsUpdated p + updatedCount jobResults)
                     (p_bucketsCompleted p) (p_bucketsFailed p) in
          (markCompleted bucket p, db, w)
      end
  end.

Fixpoint scrapeBuckets (req : CrawlRequest) (mappedCountry sid : string)
         (todo : list string) (p : Progress) (db : Store) (w : World)
  : Progress * Store * World :=
  match todo with
  | [] => (p, db, w)
  | bucket :: more =>
      let '(p, db, w) := scrapeBucket req mappedCountry sid bucket p db w in
      scrapeBuckets req mappedCountry sid more p db w
  end.

(** The session update that closes the run. *)
Definition finishSession (req : CrawlRequest) (s : ScrapeSession) (p : Progress)
  : ScrapeSession :=
  mkSession (sessionId s) (bucketsRequested s)
            (p_bucketsCompleted p) (p_bucketsFailed p)
            (match p_bucketsFailed p with [] => completed | _ => partial end)
            (p_totalApiCalls p) (p_totalJobsFound p)
            (if filterIndianJobs req then p_countryJobsFound p else 0)
            (if filterIndianJobs req then p_countryJobsAdded p else 0)
            (p_newJobsAdded p) (p_jobsUpdated p).

(** The task handed to [setImmediate].  The store operations of the
    model do not fail, so the outer [catch] of the source, which marks
    the session [failed], has no case here. *)
Definition scrapeInBackground (req : CrawlRequest) (session : ScrapeSession)
           (db : Store) (w : World) : ScrapeSession * Store * World :=
  let mappedCountry := mapCountry countryMap (countryName req) in
  let '(p, db, w) :=
    scrapeBuckets req mappedCountry (sessionId session) (buckets req)
                  (mkProgress 0 0 0 0 0 0 [] []) db w in
  (finishSession req session p, db, w).

(** [runCrawlers]: [None] is the 400 answer to an empty bucket list;
    otherwise the session is created and the background task runs. *)
Definition runCrawlers (sid : string) (req : CrawlRequest)
           (db : Store) (w : World)
  : option (ScrapeSession * Store * World) :=
  match buckets req with
  | [] => None
  | _ => Some (scrapeInBackground req (createSession sid req) db w)
  end.

End Orchestrator.

End Admin.

(* ================================================================== *)
(** ** Other functions of the two files *)
(* ================================================================== *)

Module Reports.

Import Js.
Import Admin.


(** A record that carries none of the six dedicated location fields. *)
Definition noLocationFields (o : fields) : bool :=
  forallb (fun name => negb (Value.truthy (get o name)))
          [ "job_city"; "city"; "job_state"; "state"; "job_country"; "country" ].

(** Does the classifier accept a parsed job for a target country? *)
Definition acceptedBy (target : string) (job : ParsedJob) : bool :=
  match inCountry target job with
  | Returned true => true
  | _ => false
  end.

(** A request of the search: the query, country and page size of the call,
    one page at a time, for a page of the given range. *)
Definition pageRequestOf (params : JobSearchParams) (ps first last : Z)
           (r : Request) : Prop :=
  exists page, (first <= page <= last)%Z /\ r = requestParams params ps page.

(** *** [generateFallbackSalary] *)

Record SalaryRange : Type := mkRange { range_min : Z; range_max : Z }.

(** [baseRanges], in the order [Object.entries] walks it. *)
Definition baseRanges : list (string * SalaryRange) :=
  [ ("developer", mkRange 80000 180000);
    ("engineer", mkRange 90000 200000);
    ("manager", mkRange 100000 250000);
    ("analyst", mkRange 70000 150000);
    ("designer", mkRange 75000 160000);
    ("default", mkRange 60000 120000) ].

Definition defaultRange : SalaryRange := mkRange 60000 120000.

(** The loop over the entries: the first key contained in the lower-cased
    title decides, and the default range stays when there is none. *)
Fixpoint rangeFor (keyword : string) (entries : list (string * SalaryRange))
  : SalaryRange :=
  match entries with
  | [] => defaultRange
  | (key, value) :: more =>
      if includes key keyword then value else rangeFor keyword more
  end.

Record SalaryEstimate : Type := mkEstimate
  { job_title : string;
    min_salary : Z;
    max_salary : Z;
    salary_period : string;
    currency : string }.

Definition generateFallbackSalary (jobTitle : string) : SalaryEstimate :=
  let keyword := toLowerCase jobTitle in
  let range := rangeFor keyword baseRanges in
  {| job_title := jobTitle;
     min_salary := range_min range;
     max_salary := range_max range;
     salary_period := "YEARLY";
     currency := "USD" |}.

(** *** [formatLastActive]

    Instants are milliseconds since the epoch.  For instants of this
    millennium the differences and the three quotients are integers that
    floating-point arithmetic computes exactly. *)

(** The label: a text, or the short date of an instant as
    [toLocaleDateString] renders it. *)
Inductive lastActiveLabel : Type :=
| Text (s : string)
| ShortDate (millis : Z).

Definition plural (n : Z) : string := if (1 <? n)%Z then "s" else "".

(** [now] is the reading of the clock taken by [new Date()]. *)
Definition formatLastActive (now : Z) (date : option Z) : lastActiveLabel :=
  match date with
  | None => Text "Never"
  | Some d =>
      let diffMs := (now - d)%Z in
      let diffMins := (diffMs / 60000)%Z in
      let diffHours := (diffMs / 3600000)%Z in
      let diffDays := (diffMs / 86400000)%Z in
      if (diffMins <? 1)%Z then Text "Just now"
      else if (diffMins <? 60)%Z then Text (ofZ diffMins ++ " mins ago")
      else if (diffHours <? 24)%Z
           then Text (ofZ diffHours ++ " hour" ++ plural diffHours ++ " ago")
      else if (diffDays <? 7)%Z
           then Text (ofZ diffDays ++ " day" ++ plural diffDays ++ " ago")
      else ShortDate d
  end.

(** *** The moderation queue and the reports on the jobs collection *)

Definition hasStatus (st : string) (d : JobDoc) : bool :=
  match j_status d with
  | Some s => String.eqb s st
  | None => false
  end.

(** [Job.find({ status: 'pending' })] of [listPendingJobs]. *)
Definition listPendingJobs (db : Store) : list JobDoc :=
  filter (hasStatus "pending") (jobs db).

Definition publish (d : JobDoc) : JobDoc :=
  mkJobDoc (j_id d) (j_input d) (j_companyId d) (j_sessionId d) (j_bucket d)
           (Some "published") (j_createdAt d) (j_updatedAt d).

(** [approveJob]: [None] is the 404 answer, given when no job has the
    identifier; otherwise the updated document is answered.  The entry the
    source then adds to the audit log lies outside the store. *)
Definition approveJob (id : nat) (db : Store) : option JobDoc * Store :=
  match find (fun d => (j_id d =? id)%nat) (jobs db) with
  | None => (None, db)
  | Some d =>
      (Some (publish d),
       mkStore (companies db) (updateById id publish (jobs db))
               (nextCompanyId db) (nextJobId db))
  end.

(** The three counts of [revenueReport]. *)
Record JobCounts : Type := mkCounts
  { totalJobs : nat; published : nat; draft : nat }.

Definition revenueReport (db : Store) : JobCounts :=
  {| totalJobs := List.length (jobs db);
     published := List.length (filter (hasStatus "published") (jobs db));
     draft := List.length (filter (hasStatus "draft") (jobs db)) |}.

(** [Job.countDocuments({ sessionId })], the count taken by
    [verifyScrapedJobsInDatabase]. *)
Definition countJobsBySession (sid : string) (db : Store) : nat :=
  List.length (filter (fun d => String.eqb (j_sessionId d) sid) (jobs db)).

(** The store holds the company of a job input and a job of its
    identity. *)
Definition stored (jobData : JobInput) (db : Store) : Prop :=
  exists company,
    findCompany (i_company jobData) db = Some company
    /\ existsb (matchesIdentifier (jobIdentifier jobData company)) (jobs db)
       = true.

(** No two companies of the store have the same name. *)
Definition companyNamesUnique (db : Store) : Prop :=
  NoDup (map c_name (companies db)).

(** The bookkeeping kept by the rounds of the bucket loop, from the
    progress [p] and store [db] before some rounds to [p'] and [db'] after
    them. *)
Record accounted (sid : string)
       (p : Progress) (db : Store) (p' : Progress) (db' : Store) : Prop :=
  { acc_new : (p_newJobsAdded p <= p_newJobsAdded p')%nat;
    acc_jobs : (List.length (jobs db') + p_newJobsAdded p
                = List.length (jobs db) + p_newJobsAdded p')%nat;
    acc_country : (p_countryJobsAdded p' + p_newJobsAdded p
                   = p_countryJobsAdded p + p_newJobsAdded p')%nat;
    acc_found : (p_newJobsAdded p' + p_jobsUpdated p' + p_totalJobsFound p
                 <= p_newJobsAdded p + p_jobsUpdated p + p_totalJobsFound p')%nat;
    acc_session : (countJobsBySession sid db + p_newJobsAdded p'
                   <= countJobsBySession sid db' + p_newJobsAdded p)%nat;
    acc_wf : wellFormed db -> wellFormed db' }.

End Reports.

(* ================================================================== *)
(** ** Test doubles

    Servers, random sequences and payloads used to run the model on
    concrete inputs. *)
(* ================================================================== *)

Module Doubles.

Import Admin.

(** A server that looks at the page number of the newest request only. *)
Definition byPage (answer : Z -> httpResult) (h : list Request) : httpResult :=
  match h with
  | r :: _ => answer (r_page r)
  | [] => Failed
  end.

(** The pages given, in order, then empty pages for ever. *)
Definition servePages (pages : list (list rawJob)) : list Request -> httpResult :=
  byPage (fun page => Body (DataArray (nth (Z.to_nat (page - 1)) pages []))).

(** The pages given, then failures for ever. *)
Definition servePagesThenFail (pages : list (list rawJob))
  : list Request -> httpResult :=
  byPage (fun page =>
            match nth_error pages (Z.to_nat (page - 1)) with
            | Some jobs => Body (DataArray jobs)
            | None => Failed
            end).

Definition alwaysFail (_ : list Request) : httpResult := Failed.

(** A server that fails the first [fails] requests it sees and answers
    every later one with the jobs given. *)
Definition failThenServe (fails : nat) (found : list rawJob)
           (h : list Request) : httpResult :=
  if (List.length h <=? fails)%nat then Failed else Body (DataArray found).

Definition austinJob (id : string) : rawJob :=
  Obj [ ("job_id", Value.Str id);
        ("job_title", Value.Str "Platform Engineer");
        ("employer_name", Value.Str "Initech");
        ("job_city", Value.Str "Austin");
        ("job_state", Value.Str "TX");
        ("job_country", Value.Str "US");
        ("job_apply_link", Value.Str "https://careers.initech.io/apply") ].

Definition berlinJob : rawJob :=
  Obj [ ("job_id", Value.Str "de-1");
        ("job_title", Value.Str "Platform Engineer");
        ("employer_name", Value.Str "Initech");
        ("job_city", Value.Str "Berlin");
        ("job_country", Value.Str "Germany") ].

Definition usParams (pages : Z) : JobSearchParams :=
  {| query := "platform engineer";
     searchLocation := Some "United States";
     searchCountry := Some "us";
     numPages := Some pages;
     pageSize := Some 50%Z |}.

(** A parsed job located in Austin. *)
Definition austinParsed (id : string) : ParsedJob :=
  {| title := Value.Str "Platform Engineer";
     company := "Initech";
     location := "Austin, TX, US";
     city := Value.Str "Austin";
     state := Value.Str "TX";
     country := Value.Str "US";
     description := Value.Str "";
     minSalary := Value.Undefined;
     maxSalary := Value.Undefined;
     salaryPeriod := Value.Str "YEARLY";
     jobType := Value.Str "Full-time";
     postedDate := PostedRaw Value.Undefined;
     externalLink := Value.Str "https://careers.initech.io/apply";
     jobId := Value.Str id;
     source := "JSearch API";
     isRemote := Value.Bool false;
     rawData := None |}.

(** A search service for the orchestration: it throws for the bucket
    [bad] and returns one job from Austin for any other. *)
Definition flakySearch (bad : string) (params : JobSearchParams) (w : World)
  : outcome (list ParsedJob) * World :=
  if String.eqb (query params) bad then (Thrown "socket hang up", w)
  else (Returned [austinParsed (query params)], w).

Definition emptyStore : Store := mkStore [] [] 0 0.

Definition sampleInput (externalId : string) : JobInput :=
  {| i_title := Value.Str "Platform Engineer";
     i_company := "Initech";
     i_location := "Austin, TX, US";
     i_description := Value.Str "";
     i_requirements := [];
     i_responsibilities := [];
     i_applyUrl := Value.Str "https://careers.initech.io/apply";
     i_salary := "";
     i_ctc := Value.Undefined;
     i_jobType := Value.Str "Full-time";
     i_postedAt := PostedIso 0;
     i_source := "JSearch API";
     i_meta := mkMeta (Value.Str externalId) (Value.Undefined) None |}.

Definition zeros (_ : nat) : N := 0%N.
Definition clockFrom (t0 : Z) (n : nat) : Z := (t0 + Z.of_nat n)%Z.
Definition newWorld : World := mkWorld [] 0 0.

(** A store whose moderation queue holds two jobs, beside a draft. *)
Definition moderatedStore : Store :=
  mkStore []
          [ mkJobDoc 0 (sampleInput "a") 0 "s" "b" (Some "pending") None 0;
            mkJobDoc 1 (sampleInput "b") 0 "s" "b" (Some "draft") None 0;
            mkJobDoc 2 (sampleInput "c") 0 "s" "b" (Some "pending") None 0 ]
          0 3.

End Doubles.

(* ================================================================== *)
(** * Properties *)
(* ================================================================== *)

(** ** Strings and values *)

Module JsFacts.

Import Js.

Lemma nonEmpty_true (s : string) : nonEmpty s = true <-> s <> "".
Proof.
  unfold nonEmpty. rewrite negb_true_iff. split.
  - intros H E. subst s. discriminate.
  - intros H. apply String.eqb_neq. exact H.
Qed.

Lemma nonEmpty_false (s : string) : nonEmpty s = false <-> s = "".
Proof.
  unfold nonEmpty. rewrite negb_false_iff. apply String.eqb_eq.
Qed.

Lemma nonEmpty_append_l (a b : string) :
  nonEmpty a = true -> nonEmpty (a ++ b) = true.
Proof. destruct a; [discriminate | reflexivity]. Qed.



(** Joining a list whose head is not empty gives a string that is not
    empty. *)
Lemma join_nonEmpty (sep a : string) (l : list string) :
  nonEmpty a = true -> nonEmpty (join sep (a :: l)) = true.
Proof.
  intros H. unfold join. destruct l as [|b l]; cbn.
  - exact H.
  - apply nonEmpty_append_l. exact H.
Qed.

Lemma or_truthy (a b : Value.t) :
  Value.truthy (Value.or a b) = Value.truthy a || Value.truthy b.
Proof. unfold Value.or. destruct (Value.truthy a) eqn:E; [exact E | reflexivity]. Qed.

End JsFacts.

(** ** The location classifier *)

Module ClassifierFacts.

Import Js Classifier.

(** With a country field given, the verdict is the comparison of that
    field with the names of the target and nothing else. *)
Lemma explicit_country_decides (target location c : string)
      (city state : option string) :
  nonEmpty c = true ->
  isLocationInCountry target location city state (Some c)
  = explicitCountryMatches target (toLowerCase target) (trim (toLowerCase c)).
Proof.
  intros Hc. unfold isLocationInCountry. cbn [given]. rewrite Hc.
  rewrite !andb_false_r. reflexivity.
Qed.

(** C2. For every target country and every input whose country field is
    not empty and, lower-cased and trimmed, matches none of the names and
    ISO variants accepted for the target, the classifier answers false,
    whatever the location, the city and the state are. *)
Theorem explicit_country_short_circuit
        (target location c : string) (city state : option string) :
  nonEmpty c = true ->
  explicitCountryMatches target (toLowerCase target) (trim (toLowerCase c)) = false ->
  isLocationInCountry target location city state (Some c) = false.
Proof.
  intros Hc Hno. rewrite explicit_country_decides by exact Hc. exact Hno.
Qed.

(** A location that the heuristics alone accept for India is rejected
    once the record says Germany. *)
Lemma explicit_country_short_circuit_witness :
  isLocationInCountry "in" "Bangalore, India" (Some "Bangalore") None None = true
  /\ isLocationInCountry "in" "Bangalore, India" (Some "Bangalore") None
                         (Some " Germany ") = false.
Proof.
  split.
  - vm_compute. reflexivity.
  - apply (explicit_country_short_circuit "in" "Bangalore, India" " Germany "
             (Some "Bangalore") None); vm_compute; reflexivity.
Defined.

(** The subdivision codes of the target are looked up as substrings. *)
Lemma state_code_substring (target locLower fullLocation stateCode : string) :
  In stateCode (lookup COUNTRY_STATE_CODES target) ->
  includes stateCode locLower = true ->
  (String.eqb target "us" = true
   \/ existsb (usStateHit locLower) EXCLUDE_US_STATES = false) ->
  classify target locLower fullLocation = true.
Proof.
  intros Hin Hinc Hus. unfold classify.
  assert (G : negb (String.eqb target "us")
              && existsb (usStateHit locLower) EXCLUDE_US_STATES = false).
  { destruct Hus as [-> | ->]; [reflexivity | apply andb_false_r]. }
  rewrite G.
  assert (E : existsb (fun sc => includes sc locLower || includes sc fullLocation)
                      (lookup COUNTRY_STATE_CODES target) = true).
  { apply existsb_exists. exists stateCode. split; [exact Hin|].
    rewrite Hinc. reflexivity. }
  rewrite E. reflexivity.
Qed.

(** C1. With target "us" and no city, state or country field, the
    classifier accepts "New York, NY, USA"; it also accepts
    "Berlin, Germany", whose only country signal is the keyword of another
    country (no US city and no US keyword is in it, the keyword of Germany
    is), because the US state code "in" occurs inside "berlin". *)
Theorem us_accepts_berlin_germany :
  isLocationInCountry "us" "New York, NY, USA" None None None = true
  /\ isLocationInCountry "us" "Berlin, Germany" None None None = true
  /\ In "in" (lookup COUNTRY_STATE_CODES "us")
  /\ includes "in" (toLowerCase "Berlin, Germany") = true
  /\ existsb (fun cityName =>
                Regex.test (cityPattern cityName) (toLowerCase "Berlin, Germany"))
             (lookup COUNTRY_LOCATIONS "us") = false
  /\ existsb (keywordHit (toLowerCase "Berlin, Germany") "")
             (lookup countryNames "us") = false
  /\ existsb (keywordHit (toLowerCase "Berlin, Germany") "")
             (lookup countryNames "de") = true.
Proof.
  repeat split; try (vm_compute; reflexivity).
  cbn. tauto.
Qed.

End ClassifierFacts.

(** ** The normalizer *)

Module NormalizerFacts.

Import Js JsFacts Normalizer.











Lemma locationFields_textual (o : fields) :
  Value.textual (get o "job_location") = true ->
  exists csc, locationFields o = Returned csc.
Proof.
  intros H. unfold locationFields.
  match goal with |- context [if ?c then _ else _] => destruct c eqn:G end.
  - apply andb_true_iff in G. destruct G as [G _].
    apply andb_true_iff in G. destruct G as [G _].
    rewrite or_truthy, orb_false_r in G. unfold Value.or at 1. rewrite G.
    destruct (get o "job_location") as [| |b|n|s]; cbn in *; try discriminate.
    + destruct b; discriminate.
    + rewrite G in H. discriminate.
    + eexists. reflexivity.
  - eexists. reflexivity.
Qed.


Lemma sourceOf_textual (v : Value.t) :
  Value.textual v = true -> exists src, sourceOf v = Returned src.
Proof.
  intros H. unfold sourceOf. destruct (Value.truthy v) eqn:T.
  - destruct v as [| |b|n|s]; cbn in *; try discriminate.
    + destruct b; discriminate.
    + rewrite T in H. discriminate.
    + eexists. reflexivity.
  - eexists. reflexivity.
Qed.




End NormalizerFacts.

(** ** The paginated fetcher *)

Module FetcherFacts.

Import Js JsFacts Fetcher Doubles.

Section Service.

Variable apiKey : string.
Variable maxRetries : Z.
Variable server : list Request -> httpResult.
Variable rand : nat -> N.
Variable clock : nat -> Z.

Abbreviation generateFallbackJobs := (Fetcher.generateFallbackJobs rand clock).
Abbreviation fallbackLoop := (Fetcher.fallbackLoop rand clock).
Abbreviation fallbackJob := (Fetcher.fallbackJob rand clock).
Abbreviation retryLoop := (Fetcher.retryLoop server).
Abbreviation makeRequestWithRetry := (Fetcher.makeRequestWithRetry maxRetries server).
Abbreviation pageLoop := (Fetcher.pageLoop maxRetries server).
Abbreviation reaches := (Fetcher.reaches maxRetries server).
Abbreviation searchJobs := (Fetcher.searchJobs apiKey maxRetries server rand clock).
Abbreviation emptyAnswer := (Fetcher.emptyAnswer server).
Abbreviation noEmptyAnswer := (Fetcher.noEmptyAnswer server).

(** *** The synthetic generator *)

Lemma fallbackJob_source params i w :
  source (fst (fallbackJob params i w)) = "Fallback Data".
Proof. reflexivity. Qed.

Lemma fallbackJob_history params i w :
  history (snd (fallbackJob params i w)) = history w.
Proof. reflexivity. Qed.

Lemma fallbackLoop_length params todo :
  forall i jobs w,
    List.length (fst (fallbackLoop params todo i jobs w))
    = (List.length jobs + todo)%nat.
Proof.
  induction todo as [|todo IH]; intros i jobs w; cbn [Fetcher.fallbackLoop].
  - cbn. lia.
  - destruct (fallbackJob params i w) as [job w1].
    rewrite IH, length_app. cbn. lia.
Qed.

Lemma fallbackLoop_sources params todo :
  forall i jobs w,
    Forall (fun j => source j = "Fallback Data") jobs ->
    Forall (fun j => source j = "Fallback Data")
           (fst (fallbackLoop params todo i jobs w)).
Proof.
  induction todo as [|todo IH]; intros i jobs w H; cbn [Fetcher.fallbackLoop].
  - exact H.
  - pose proof (fallbackJob_source params i w) as S1.
    destruct (fallbackJob params i w) as [job w1]. cbn in S1.
    apply IH. apply Forall_app. split; [exact H|].
    constructor; [exact S1 | constructor].
Qed.

Lemma fallbackLoop_history params todo :
  forall i jobs w,
    history (snd (fallbackLoop params todo i jobs w)) = history w.
Proof.
  induction todo as [|todo IH]; intros i jobs w; cbn [Fetcher.fallbackLoop].
  - reflexivity.
  - pose proof (fallbackJob_history params i w) as H1.
    destruct (fallbackJob params i w) as [job w1]. cbn in H1.
    rewrite IH. exact H1.
Qed.

(** The generator makes between 20 and 49 jobs. *)
Lemma generateFallbackJobs_length params w :
  (20 <= List.length (fst (generateFallbackJobs params w)) < 50)%nat.
Proof.
  unfold Fetcher.generateFallbackJobs, Fetcher.randomBelow.
  rewrite fallbackLoop_length. cbn [List.length].
  pose proof (N.mod_upper_bound (rand (draws w)) 30 ltac:(discriminate)) as B.
  generalize dependent (rand (draws w) mod 30)%N. intros n B. lia.
Qed.

Lemma generateFallbackJobs_sources params w :
  Forall (fun j => source j = "Fallback Data")
         (fst (generateFallbackJobs params w)).
Proof.
  unfold Fetcher.generateFallbackJobs, Fetcher.randomBelow.
  apply fallbackLoop_sources. constructor.
Qed.

Lemma generateFallbackJobs_history params w :
  history (snd (generateFallbackJobs params w)) = history w.
Proof.
  unfold Fetcher.generateFallbackJobs, Fetcher.randomBelow.
  rewrite fallbackLoop_history. reflexivity.
Qed.

Lemma generateFallbackJobs_nonempty params w :
  fst (generateFallbackJobs params w) <> [].
Proof.
  pose proof (generateFallbackJobs_length params w) as L.
  intros E. rewrite E in L. cbn in L. lia.
Qed.

(** *** The retrying request *)

(** A request answered at once is not repeated. *)
Lemma retryLoop_answered budget req w data :
  server (req :: history w) = Body data ->
  retryLoop budget req w
  = (Some data, mkWorld (req :: history w) (draws w) (ticks w)).
Proof.
  intros H. destruct budget; cbn; rewrite H; reflexivity.
Qed.

Lemma repeat_shift (x : Request) (n : nat) (l : list Request) :
  (repeat x n ++ x :: l)%list = (repeat x (S n) ++ l)%list.
Proof. induction n as [|n IH]; cbn; [reflexivity | f_equal; exact IH]. Qed.

(** When every attempt fails the request is sent once and then once
    more per retry, and the error comes out. *)
Lemma retryLoop_all_failed budget req :
  forall w,
    (forall n, server (repeat req (S n) ++ history w) = Failed) ->
    retryLoop budget req w
    = (None, mkWorld (repeat req (S budget) ++ history w) (draws w) (ticks w)).
Proof.
  induction budget as [|budget IH]; intros w H;
    cbn [Fetcher.retryLoop Fetcher.send];
    rewrite (H 0%nat : server (req :: history w) = Failed).
  - reflexivity.
  - rewrite IH.
    + cbn [history draws ticks]. rewrite repeat_shift. reflexivity.
    + intros n. cbn [history]. rewrite repeat_shift. apply H.
Qed.

(** *** Requests and empty pages *)

Lemma noEmptyAnswer_app (a b h : list Request) :
  noEmptyAnswer (a ++ b) h
  = noEmptyAnswer a (b ++ h)%list && noEmptyAnswer b h.
Proof.
  induction a as [|r a IH]; cbn [Fetcher.noEmptyAnswer app].
  - reflexivity.
  - rewrite IH, <- app_assoc, andb_assoc. reflexivity.
Qed.

Lemma tl_app (a b : list Request) :
  a <> [] -> tl (a ++ b) = (tl a ++ b)%list.
Proof. destruct a; [contradiction | reflexivity]. Qed.

(** The requests of one retried call: every one but the newest failed,
    and the result tells how the newest was answered. *)
Lemma retryLoop_trace budget req :
  forall w res w',
    retryLoop budget req w = (res, w') ->
    exists issued,
      history w' = (issued ++ history w)%list
      /\ issued <> []
      /\ noEmptyAnswer (tl issued) (history w) = true
      /\ match res with
         | Some data => server (history w') = Body data
         | None => server (history w') = Failed
         end.
Proof.
  induction budget as [|budget IH]; intros w res w';
    cbn [Fetcher.retryLoop Fetcher.send];
    destruct (server (req :: history w)) as [|data] eqn:A.
  - intros E. injection E as <- <-. exists [req]. cbn.
    repeat split; [discriminate | exact A].
  - intros E. injection E as <- <-. exists [req]. cbn.
    repeat split; [discriminate | exact A].
  - intros E. apply IH in E. cbn [history] in E.
    destruct E as (issued & Hh & Hne & Hq & Hres).
    exists (issued ++ [req])%list. repeat split.
    + rewrite Hh, <- app_assoc. reflexivity.
    + destruct issued; discriminate.
    + rewrite tl_app by exact Hne. rewrite noEmptyAnswer_app.
      cbn [app]. rewrite Hq. cbn. unfold Fetcher.emptyAnswer. rewrite A.
      reflexivity.
    + exact Hres.
  - intros E. injection E as <- <-. exists [req]. cbn.
    repeat split; [discriminate | exact A].
Qed.

(** The requests of the page loop: only the newest can have been answered
    with an empty list of jobs. *)
Lemma pageLoop_trace params ps todo :
  forall page jobs w exit w',
    pageLoop params ps todo page jobs w = (exit, w') ->
    exists issued,
      history w' = (issued ++ history w)%list
      /\ noEmptyAnswer (tl issued) (history w) = true.
Proof.
  induction todo as [|todo IH]; intros page jobs w exit w';
    cbn [Fetcher.pageLoop].
  - intros E. injection E as <- <-. exists []. split; reflexivity.
  - unfold Fetcher.makeRequestWithRetry.
    destruct (retryLoop (Z.to_nat maxRetries) (requestParams params ps page) w)
      as [res w1] eqn:R.
    destruct (retryLoop_trace _ _ _ _ _ R) as (issued1 & Hh & Hne & Hq & Hres).
    assert (Stop : forall x, (x, w1) = (exit, w') ->
                   exists issued, history w' = (issued ++ history w)%list
                                  /\ noEmptyAnswer (tl issued) (history w) = true).
    { intros x E. injection E as _ <-. exists issued1. split; assumption. }
    destruct res as [data|]; [|apply Stop].
    destruct (apiJobsOf data) as [[|j l]|] eqn:AJ; [apply Stop| |apply Stop].
    destruct (processPage (targetOf params) (j :: l) jobs) as [jobs' threw].
    destruct threw; [apply Stop|].
    intros E. apply IH in E. destruct E as (issued2 & Hh2 & Hq2).
    exists (issued2 ++ issued1)%list. split.
    + rewrite Hh2, Hh, app_assoc. reflexivity.
    + assert (All1 : noEmptyAnswer issued1 (history w) = true).
      { destruct issued1 as [|r rest]; [contradiction|].
        cbn [Fetcher.noEmptyAnswer tl] in *. rewrite Hq, andb_true_r.
        change (r :: rest ++ history w)%list with ((r :: rest) ++ history w)%list.
        rewrite <- Hh. unfold Fetcher.emptyAnswer. rewrite Hres, AJ. reflexivity. }
      destruct issued2 as [|r2 rest2].
      * cbn [app]. destruct issued1; [contradiction|].
        cbn [Fetcher.noEmptyAnswer tl] in *.
        apply andb_true_iff in All1. tauto.
      * cbn [tl app]. rewrite noEmptyAnswer_app, <- Hh, All1, andb_true_r.
        exact Hq2.
Qed.

Lemma searchJobs_trace params w :
  exists issued,
    history (snd (searchJobs params w)) = (issued ++ history w)%list
    /\ noEmptyAnswer (tl issued) (history w) = true.
Proof.
  unfold Fetcher.searchJobs.
  destruct (negb (nonEmpty apiKey)).
  - exists []. rewrite generateFallbackJobs_history. split; reflexivity.
  - destruct (pageLoop params _ _ 1 [] w) as [exit w1] eqn:L.
    destruct (pageLoop_trace _ _ _ _ _ _ _ _ L) as (issued & Hh & Hq).
    exists issued. split; [|exact Hq].
    destruct exit as [[|j l]|]; rewrite ?generateFallbackJobs_history; exact Hh.
Qed.

(** A state the loop passes through computes the same exit as the start. *)
Lemma reaches_pageLoop params ps todo0 page0 jobs0 w0 todo page jobs w :
  reaches params ps (todo0, page0, jobs0, w0) (todo, page, jobs, w) ->
  pageLoop params ps todo0 page0 jobs0 w0 = pageLoop params ps todo page jobs w.
Proof.
  remember (todo0, page0, jobs0, w0) as st0 eqn:E0.
  remember (todo, page, jobs, w) as st eqn:E.
  intros H. revert todo page jobs w E.
  induction H as [st|st todo1 page1 jobs1 w1 data apiJobs jobs' w' _ IH R AJ NE PP];
    intros todo page jobs w E.
  - subst st. injection E as <- <- <- <-. reflexivity.
  - injection E as <- <- <- <-.
    rewrite (IH E0 _ _ _ _ eq_refl). cbn [Fetcher.pageLoop].
    rewrite R, AJ. destruct apiJobs as [|j l]; [contradiction|].
    rewrite PP. reflexivity.
Qed.

(** The first page failing sends the whole call to the generator. *)
Lemma first_page_failure params w w1 :
  nonEmpty apiKey = true ->
  (1 <= numberOr (numPages params) 5)%Z ->
  makeRequestWithRetry
    (requestParams params (numberOr (pageSize params) 50) 1) w = (None, w1) ->
  searchJobs params w = generateFallbackJobs params w1.
Proof.
  intros K N R. unfold Fetcher.searchJobs. rewrite K. cbn [negb].
  destruct (Z.to_nat (numberOr (numPages params) 5)) as [|todo] eqn:T; [lia|].
  cbn [Fetcher.pageLoop]. rewrite R. reflexivity.
Qed.

(** A later page failing ends the loop with the jobs kept so far. *)
Lemma later_page_failure params ps todo page jobs w w1 :
  page <> 1%Z ->
  makeRequestWithRetry (requestParams params ps page) w = (None, w1) ->
  pageLoop params ps (S todo) page jobs w = (Finished jobs, w1).
Proof.
  intros P R. cbn [Fetcher.pageLoop]. rewrite R.
  unfold Fetcher.onPageError. apply Z.eqb_neq in P. rewrite P. reflexivity.
Qed.

End Service.
(** C6. An empty list of jobs ends the pagination: in every run, whatever
    the number of pages asked for and whatever the server answers, a request
    answered with an empty list is the last one sent.  With a server that has
    two pages of jobs and then empty pages, and five pages asked for, the run
    sends the requests for pages 1, 2 and 3 and nothing else, and the jobs it
    keeps are those accepted from pages 1 and 2. *)
Theorem empty_page_stops_pagination :
  (forall apiKey maxRetries server rand clock params w later r earlier,
      history (snd (searchJobs apiKey maxRetries server rand clock params w))
      = (later ++ r :: earlier ++ history w)%list ->
      emptyAnswer server (r :: earlier ++ history w) = true ->
      later = [])
  /\
  (forall apiKey maxRetries rand clock params w page1 page2 jobs1 jobs2,
      nonEmpty apiKey = true ->
      numPages params = Some 5%Z ->
      page1 <> [] -> page2 <> [] ->
      processPage (targetOf params) page1 [] = (jobs1, false) ->
      processPage (targetOf params) page2 jobs1 = (jobs2, false) ->
      let ps := numberOr (pageSize params) 50 in
      let run := searchJobs apiKey maxRetries (servePages [page1; page2])
                            rand clock params w in
      history (snd run)
      = ([requestParams params ps 3; requestParams params ps 2;
          requestParams params ps 1] ++ history w)%list
      /\ (jobs2 <> [] -> fst run = jobs2)
      /\ (jobs2 = [] -> Forall (fun j => source j = "Fallback Data") (fst run))).
Proof.
  split.
  - intros apiKey maxRetries server rand clock params w later r earlier Hh He.
    destruct (searchJobs_trace apiKey maxRetries server rand clock params w)
      as (issued & Hi & Hq).
    rewrite Hi in Hh.
    change (later ++ r :: earlier ++ history w)%list
      with (later ++ (r :: earlier) ++ history w)%list in Hh.
    rewrite app_assoc in Hh. apply app_inv_tail in Hh. subst issued.
    destruct later as [|x later]; [reflexivity|].
    cbn [tl app] in Hq. rewrite noEmptyAnswer_app in Hq.
    apply andb_true_iff in Hq. destruct Hq as [_ Hq].
    cbn [Fetcher.noEmptyAnswer] in Hq. rewrite He in Hq. discriminate.
  - intros apiKey maxRetries rand clock params w page1 page2 jobs1 jobs2
           K N NE1 NE2 P1 P2 ps run.
    subst run. unfold Fetcher.searchJobs. rewrite K, N. cbn [negb].
    change (Z.to_nat (numberOr (Some 5%Z) 5)) with 5%nat.
    fold ps. cbn [Fetcher.pageLoop]. unfold Fetcher.makeRequestWithRetry.
    destruct page1 as [|a1 l1]; [contradiction|].
    destruct page2 as [|a2 l2]; [contradiction|].
    set (server := servePages [a1 :: l1; a2 :: l2]).
    set (r1 := requestParams params ps 1).
    set (r2 := requestParams params ps (1 + 1)).
    set (r3 := requestParams params ps (1 + 1 + 1)).
    rewrite (retryLoop_answered server (Z.to_nat maxRetries) r1 w
               (DataArray (a1 :: l1)) eq_refl).
    cbn [apiJobsOf history draws ticks]. rewrite P1.
    rewrite (retryLoop_answered server (Z.to_nat maxRetries) r2
               (mkWorld (r1 :: history w) (draws w) (ticks w))
               (DataArray (a2 :: l2)) eq_refl).
    cbn [apiJobsOf history draws ticks]. rewrite P2.
    rewrite (retryLoop_answered server (Z.to_nat maxRetries) r3
               (mkWorld (r2 :: r1 :: history w) (draws w) (ticks w))
               (DataArray []) eq_refl).
    subst r1 r2 r3. change (1 + 1 + 1)%Z with 3%Z. change (1 + 1)%Z with 2%Z.
    cbn [apiJobsOf history].
    destruct jobs2 as [|j l].
    + rewrite generateFallbackJobs_history. cbn [history].
      repeat split; [congruence|].
      intros _. apply generateFallbackJobs_sources.
    + cbn [fst snd history]. repeat split. discriminate.
Qed.

(** Two pages of jobs, then empty pages, five pages asked for: three
    requests, and the two jobs from Austin are kept. *)
Lemma empty_page_stops_pagination_witness :
  let run := searchJobs "key" 3 (servePages [[austinJob "a1"; berlinJob];
                                             [austinJob "a2"]])
                        zeros (clockFrom 0) (usParams 5) newWorld in
  map r_page (history (snd run)) = [3%Z; 2%Z; 1%Z]
  /\ map jobId (fst run) = [Value.Str "a1"; Value.Str "a2"].
Proof.
  intros run.
  destruct (proj2 empty_page_stops_pagination "key" 3%Z zeros (clockFrom 0)
              (usParams 5) newWorld
              [austinJob "a1"; berlinJob] [austinJob "a2"]
              (fst (processPage "us" [austinJob "a1"; berlinJob] []))
              (fst (processPage "us" [austinJob "a2"]
                      (fst (processPage "us" [austinJob "a1"; berlinJob] []))))
              ltac:(reflexivity) ltac:(reflexivity)
              ltac:(discriminate) ltac:(discriminate)
              ltac:(vm_compute; reflexivity) ltac:(vm_compute; reflexivity))
    as (Hh & Hj & _).
  fold run in Hh, Hj. split.
  - rewrite Hh. reflexivity.
  - rewrite Hj; [vm_compute; reflexivity | vm_compute; discriminate].
Defined.

(** C3, counterexample.  Page 1 brings one job, located in Germany, which
    the filter for "us" rejects; page 2 fails on every attempt.  The jobs
    accumulated are none, yet the call does not return that empty list: it
    returns twenty synthetic jobs. *)
Lemma later_page_failure_may_return_fallback :
  let server := servePagesThenFail [[berlinJob]] in
  let params := usParams 3 in
  let run := searchJobs "key" 3 server zeros (clockFrom 0) params newWorld in
  let afterPage1 := mkWorld [requestParams params 50 1] 0 0 in
  makeRequestWithRetry 3 server (requestParams params 50 1) newWorld
  = (Some (DataArray [berlinJob]), afterPage1)
  /\ processPage "us" [berlinJob] [] = ([], false)
  /\ fst (makeRequestWithRetry 3 server (requestParams params 50 2) afterPage1)
     = None
  /\ fst run <> []
  /\ List.length (fst run) = 20%nat
  /\ map source (fst run) = repeat "Fallback Data" 20.
Proof.
  cbv zeta. repeat split; try (vm_compute; reflexivity).
  vm_compute. discriminate.
Qed.

(** C3, as amended.  When the request for the first page fails after its
    retries, the call returns what the generator makes, every job labelled
    as fallback data.  When the request for a later page fails after its
    retries, the loop stops there with the jobs accepted so far, and the call
    returns them if there is at least one; if there is none it returns what
    the generator makes. *)
Theorem page_failure_handling apiKey maxRetries server rand clock params :
  nonEmpty apiKey = true ->
  let ps := numberOr (pageSize params) 50 in
  let pages := Z.to_nat (numberOr (numPages params) 5) in
  (forall w w1,
      (1 <= numberOr (numPages params) 5)%Z ->
      makeRequestWithRetry maxRetries server (requestParams params ps 1) w
      = (None, w1) ->
      searchJobs apiKey maxRetries server rand clock params w
      = generateFallbackJobs rand clock params w1
      /\ Forall (fun j => source j = "Fallback Data")
                (fst (searchJobs apiKey maxRetries server rand clock params w)))
  /\
  (forall w0 todo page jobs w w1,
      reaches maxRetries server params ps (pages, 1%Z, [], w0)
              (S todo, page, jobs, w) ->
      page <> 1%Z ->
      makeRequestWithRetry maxRetries server (requestParams params ps page) w
      = (None, w1) ->
      pageLoop maxRetries server params ps (S todo) page jobs w
      = (Finished jobs, w1)
      /\ searchJobs apiKey maxRetries server rand clock params w0
         = match jobs with
           | [] => generateFallbackJobs rand clock params w1
           | _ => (jobs, w1)
           end).
Proof.
  intros K ps pages. split.
  - intros w w1 N R.
    rewrite (first_page_failure apiKey maxRetries server rand clock
               params w w1 K N R).
    split; [reflexivity | apply generateFallbackJobs_sources].
  - intros w0 todo page jobs w w1 Hr P R.
    pose proof (later_page_failure maxRetries server params ps todo page jobs
                  w w1 P R) as L.
    split; [exact L|].
    unfold Fetcher.searchJobs. rewrite K. cbn [negb]. fold ps pages.
    rewrite (reaches_pageLoop maxRetries server _ _ _ _ _ _ _ _ _ _ Hr), L.
    destruct jobs; reflexivity.
Qed.

(** A server that always fails is asked four times for page 1 and the
    generator takes over; a server that fails from page 2 on leaves the job
    accepted from page 1. *)
Lemma page_failure_handling_witness :
  (let run := searchJobs "key" 3 alwaysFail zeros (clockFrom 0)
                         (usParams 3) newWorld in
   List.length (history (snd run)) = 4%nat
   /\ Forall (fun j => source j = "Fallback Data") (fst run))
  /\ map jobId (fst (searchJobs "key" 3 (servePagesThenFail [[austinJob "a1"]])
                                zeros (clockFrom 0) (usParams 3) newWorld))
     = [Value.Str "a1"].
Proof.
  destruct (page_failure_handling "key" 3 alwaysFail zeros (clockFrom 0)
              (usParams 3) eq_refl) as [H1 _].
  destruct (page_failure_handling "key" 3 (servePagesThenFail [[austinJob "a1"]])
              zeros (clockFrom 0) (usParams 3) eq_refl) as [_ H2].
  split.
  - intros run.
    destruct (H1 newWorld _ ltac:(vm_compute; discriminate)
                 (retryLoop_all_failed alwaysFail 3 _ newWorld
                    (fun _ => eq_refl))) as [E F].
    split; [|exact F].
    subst run. rewrite E, generateFallbackJobs_history. reflexivity.
  - destruct (H2 newWorld 1%nat 2%Z
                 (fst (processPage "us" [austinJob "a1"] []))
                 (mkWorld [requestParams (usParams 3) 50 1] 0 0)
                 (mkWorld (repeat (requestParams (usParams 3) 50 2) 4
                           ++ [requestParams (usParams 3) 50 1]) 0 0)) as [_ E].
    + eapply (reaches_next 3 (servePagesThenFail [[austinJob "a1"]])
                (usParams 3) 50 _ 2 1%Z [] newWorld
                (DataArray [austinJob "a1"]) [austinJob "a1"]).
      * apply reaches_here.
      * vm_compute. reflexivity.
      * reflexivity.
      * discriminate.
      * vm_compute. reflexivity.
    + discriminate.
    + vm_compute. reflexivity.
    + rewrite E. vm_compute. reflexivity.
Defined.

(** C10. A search never returns an empty list.  Without an API key, after
    a failure on the first page and when no job of the fetched pages survives
    the country filter, it returns what the generator makes, which is between
    20 and 50 jobs; otherwise it returns the jobs kept, of which there is at
    least one. *)
Theorem search_never_returns_empty apiKey maxRetries server rand clock params w :
  let run := searchJobs apiKey maxRetries server rand clock params w in
  let loop := pageLoop maxRetries server params
                       (numberOr (pageSize params) 50)
                       (Z.to_nat (numberOr (numPages params) 5)) 1 [] w in
  fst run <> []
  /\ (forall w1,
         (20 <= List.length (fst (generateFallbackJobs rand clock params w1)) <= 50)%nat)
  /\ (nonEmpty apiKey = false -> run = generateFallbackJobs rand clock params w)
  /\ (nonEmpty apiKey = true -> fst loop = FirstPageFailed ->
      run = generateFallbackJobs rand clock params (snd loop))
  /\ (nonEmpty apiKey = true -> fst loop = Finished [] ->
      run = generateFallbackJobs rand clock params (snd loop))
  /\ (nonEmpty apiKey = true ->
      forall jobs, fst loop = Finished jobs -> jobs <> [] ->
                   run = (jobs, snd loop)).
Proof.
  intros run loop.
  assert (P3 : nonEmpty apiKey = false -> run = generateFallbackJobs rand clock params w).
  { intros K. subst run. unfold Fetcher.searchJobs. rewrite K. reflexivity. }
  assert (P4 : nonEmpty apiKey = true ->
               run = match fst loop with
                     | FirstPageFailed | Finished [] =>
                         generateFallbackJobs rand clock params (snd loop)
                     | Finished jobs => (jobs, snd loop)
                     end).
  { intros K. subst run loop. unfold Fetcher.searchJobs. rewrite K. cbn [negb].
    destruct (pageLoop _ _ _ _ _ _ _ _) as [[[|j l]|] w1]; reflexivity. }
  split; [|split; [|split; [exact P3|repeat split]]].
  - destruct (nonEmpty apiKey) eqn:K.
    + rewrite (P4 eq_refl).
      destruct (fst loop) as [[|j l]|];
        first [apply generateFallbackJobs_nonempty | discriminate].
    + rewrite (P3 eq_refl). apply generateFallbackJobs_nonempty.
  - intros w1. pose proof (generateFallbackJobs_length rand clock params w1). lia.
  - intros K E. rewrite (P4 K), E. reflexivity.
  - intros K E. rewrite (P4 K), E. reflexivity.
  - intros K jobs E NE. rewrite (P4 K), E. destruct jobs; [contradiction|reflexivity].
Qed.

(** Without an API key the search is the generator. *)
Lemma search_never_returns_empty_witness :
  searchJobs "" 3 alwaysFail zeros (clockFrom 0) (usParams 5) newWorld
  = generateFallbackJobs zeros (clockFrom 0) (usParams 5) newWorld
  /\ fst (searchJobs "" 3 alwaysFail zeros (clockFrom 0) (usParams 5) newWorld)
     <> [].
Proof.
  destruct (search_never_returns_empty "" 3 alwaysFail zeros (clockFrom 0)
              (usParams 5) newWorld) as (NE & _ & NoKey & _).
  split; [apply NoKey; reflexivity | exact NE].
Defined.


End FetcherFacts.

(** ** Persistence and orchestration *)

Module AdminFacts.

Import Js JsFacts Admin Doubles.

Lemma value_eqb_refl (v : Value.t) : Value.eqb v v = true.
Proof.
  destruct v as [| |b|n|s]; cbn; try reflexivity.
  - destruct b; reflexivity.
  - apply Z.eqb_refl.
  - apply String.eqb_refl.
Qed.

Lemma find_snoc {A} (f : A -> bool) (l : list A) (x : A) :
  find f (l ++ [x])
  = match find f l with
    | Some y => Some y
    | None => if f x then Some x else None
    end.
Proof.
  induction l as [|a l IH]; cbn.
  - reflexivity.
  - destruct (f a); [reflexivity | exact IH].
Qed.

Lemma find_none_filter {A} (f : A -> bool) (l : list A) :
  find f l = None -> filter f l = [].
Proof.
  induction l as [|a l IH]; cbn; [reflexivity|].
  destruct (f a); [discriminate | exact IH].
Qed.

(** *** Companies *)

(** Resolving a company leaves the jobs alone, and resolving the same name
    again finds the same company. *)
Lemma resolveCompany_stable (name : string) (db db0 : Store) (c : CompanyDoc) :
  resolveCompany name db = (c, db0) ->
  jobs db0 = jobs db
  /\ nextJobId db0 = nextJobId db
  /\ findCompany name db0 = Some c.
Proof.
  unfold resolveCompany, createCompany.
  destruct (findCompany name db) as [c'|] eqn:F; intros E; injection E as <- <-.
  - repeat split. exact F.
  - repeat split. unfold findCompany in *. cbn [companies c_name].
    rewrite find_snoc, F. cbn [c_name]. rewrite String.eqb_refl. reflexivity.
Qed.

Lemma resolveCompany_found (name : string) (db : Store) (c : CompanyDoc) :
  findCompany name db = Some c -> resolveCompany name db = (c, db).
Proof. unfold resolveCompany. intros ->. reflexivity. Qed.

(** *** Updates by identifier *)

Lemma updateById_ids (id : nat) (patch : JobDoc -> JobDoc) (l : list JobDoc) :
  (forall d, j_id (patch d) = j_id d) ->
  map j_id (updateById id patch l) = map j_id l.
Proof.
  intros P. induction l as [|d l IH]; cbn; [reflexivity|].
  destruct (j_id d =? id)%nat; cbn; [rewrite P | rewrite IH]; reflexivity.
Qed.

Lemma updateById_fresh (id : nat) (patch : JobDoc -> JobDoc) (l : list JobDoc) :
  Forall (fun d => j_id d <> id) l -> updateById id patch l = l.
Proof.
  induction 1 as [|d l H _ IH]; cbn; [reflexivity|].
  apply Nat.eqb_neq in H. rewrite H, IH. reflexivity.
Qed.

Lemma updateById_snoc (id : nat) (patch : JobDoc -> JobDoc)
      (l : list JobDoc) (x : JobDoc) :
  Forall (fun d => j_id d <> id) l -> j_id x = id ->
  updateById id patch (l ++ [x]) = (l ++ [patch x])%list.
Proof.
  intros H <-. induction H as [|d l H _ IH]; cbn.
  - rewrite Nat.eqb_refl. reflexivity.
  - apply Nat.eqb_neq in H. rewrite H, IH. reflexivity.
Qed.

(** With unique identifiers the document found is the one patched, and
    every other document stays as it is. *)
Lemma updateById_split (patch : JobDoc -> JobDoc) (l : list JobDoc) (e : JobDoc) :
  NoDup (map j_id l) -> In e l ->
  exists before after,
    l = (before ++ e :: after)%list
    /\ updateById (j_id e) patch l = (before ++ patch e :: after)%list.
Proof.
  induction l as [|d l IH]; intros ND HI; [contradiction|].
  cbn [map] in ND. inversion ND as [|? ? Hnot ND']; subst.
  cbn [updateById]. destruct HI as [->|HI].
  - rewrite Nat.eqb_refl. exists [], l. split; reflexivity.
  - destruct (j_id d =? j_id e)%nat eqn:E.
    + apply Nat.eqb_eq in E. exfalso. apply Hnot. rewrite E.
      apply in_map. exact HI.
    + destruct (IH ND' HI) as (before & after & -> & ->).
      exists (d :: before), after. split; reflexivity.
Qed.

Lemma matches_updatePatch jobData company bucket sid t d :
  matchesIdentifier (jobIdentifier jobData company)
                    (updatePatch jobData company bucket sid t d) = true.
Proof.
  unfold matchesIdentifier, jobIdentifier, updatePatch, withCompany. cbn.
  rewrite value_eqb_refl, Nat.eqb_refl, String.eqb_refl. reflexivity.
Qed.

Lemma matches_newJobDoc id jobData company bucket sid t1 t2 :
  matchesIdentifier (jobIdentifier jobData company)
                    (newJobDoc id jobData company bucket sid t1 t2) = true.
Proof.
  unfold matchesIdentifier, jobIdentifier, newJobDoc, withSource, withCompany.
  cbn. rewrite value_eqb_refl, Nat.eqb_refl, String.eqb_refl. reflexivity.
Qed.

Section Saving.

Variable clock : nat -> Z.

Abbreviation saveJob := (Admin.saveJob clock).
Abbreviation saveJobsToDatabase := (Admin.saveJobsToDatabase clock).

(** The save of one job whose identity is already stored. *)
Lemma saveJob_update jobData bucket sid acc db w company db0 existing :
  resolveCompany (i_company jobData) db = (company, db0) ->
  findJob (jobIdentifier jobData company) db0 = Some existing ->
  saveJob jobData bucket sid acc db w
  = (mkSaveResult (newCount acc) (S (updatedCount acc)),
     mkStore (companies db0)
             (updateById (j_id existing)
                (updatePatch jobData company bucket sid (clock (ticks w)))
                (jobs db0))
             (nextCompanyId db0) (nextJobId db0),
     mkWorld (history w) (draws w) (S (ticks w))).
Proof.
  intros R F. unfold Admin.saveJob. rewrite R, F. reflexivity.
Qed.

(** The save of one job whose identity is not stored yet. *)
Lemma saveJob_insert jobData bucket sid acc db w company db0 :
  resolveCompany (i_company jobData) db = (company, db0) ->
  findJob (jobIdentifier jobData company) db0 = None ->
  saveJob jobData bucket sid acc db w
  = (mkSaveResult (S (newCount acc)) (updatedCount acc),
     mkStore (companies db0)
             (jobs db0 ++ [newJobDoc (nextJobId db0) jobData company bucket sid
                                     (clock (ticks w)) (clock (S (ticks w)))])
             (nextCompanyId db0) (S (nextJobId db0)),
     mkWorld (history w) (draws w) (S (S (ticks w)))).
Proof.
  intros R F. unfold Admin.saveJob. rewrite R, F. reflexivity.
Qed.

(** C4. A job is identified for deduplication by its title, the identifier
    of its resolved company and its location.  When a stored job has that
    identity the save updates that document in place (same identifier, new
    data, session and bucket) and counts an update; otherwise it appends a
    new document stamped with the session and the status "published" and
    counts a new record.  Saving two inputs with the same title, company and
    location one after the other, whatever their external identifiers,
    sessions and buckets, leaves exactly one stored job of that identity:
    the first save counts one new record and the second one update. *)
Theorem upsert_by_identity jobData bucket sid acc db w company db0 :
  resolveCompany (i_company jobData) db = (company, db0) ->
  wellFormed db ->
  let k := jobIdentifier jobData company in
  let saved := saveJob jobData bucket sid acc db w in
  let acc' := fst (fst saved) in
  let db' := snd (fst saved) in
  (forall existing,
      findJob k db0 = Some existing ->
      newCount acc' = newCount acc
      /\ updatedCount acc' = S (updatedCount acc)
      /\ map j_id (jobs db') = map j_id (jobs db)
      /\ countMatching k db' = countMatching k db0
      /\ exists d before after,
          jobs db = (before ++ existing :: after)%list
          /\ jobs db' = (before ++ d :: after)%list
          /\ j_id d = j_id existing
          /\ j_input d = withCompany jobData (c_name company)
          /\ j_sessionId d = sid /\ j_bucket d = bucket
          /\ j_status d = j_status existing)
  /\ (findJob k db0 = None ->
      newCount acc' = S (newCount acc)
      /\ updatedCount acc' = updatedCount acc
      /\ countMatching k db' = 1%nat
      /\ exists d,
          jobs db' = (jobs db ++ [d])%list
          /\ matchesIdentifier k d = true
          /\ j_sessionId d = sid /\ j_bucket d = bucket
          /\ j_status d = Some "published")
  /\ (forall jobData2 bucket2 sid2,
         sameIdentity jobData jobData2 ->
         findJob k db0 = None ->
         let first := saveJobsToDatabase [jobData] bucket sid db w in
         let second := saveJobsToDatabase [jobData2] bucket2 sid2
                                          (snd (fst first)) (snd first) in
         fst (fst first) = mkSaveResult 1 0
         /\ fst (fst second) = mkSaveResult 0 1
         /\ countMatching k (snd (fst second)) = 1%nat
         /\ List.length (jobs (snd (fst second))) = S (List.length (jobs db))).
Proof.
  intros R [ND LT] k saved acc' db'.
  destruct (resolveCompany_stable _ _ _ _ R) as (Hjobs & Hnext & Hfound).
  split; [|split].
  - intros existing F. subst acc' db' saved.
    rewrite (saveJob_update _ _ _ _ _ _ _ _ _ R F). cbn [fst snd jobs newCount updatedCount].
    assert (HI : In existing (jobs db0)) by (apply (find_some _ _ F)).
    rewrite Hjobs in HI |- *.
    split; [reflexivity|]. split; [reflexivity|].
    split; [apply updateById_ids; reflexivity|].
    destruct (updateById_split
                (updatePatch jobData company bucket sid (clock (ticks w)))
                _ _ ND HI) as (before & after & E1 & E2).
    split.
    + unfold countMatching. cbn [jobs]. rewrite Hjobs, E2, E1.
      rewrite !filter_app. cbn [filter].
      fold k. rewrite (matches_updatePatch jobData company).
      apply find_some in F. destruct F as [_ ->].
      rewrite !length_app. reflexivity.
    + eexists. exists before, after. split; [exact E1|]. split; [exact E2|].
      repeat split.
  - intros F. subst acc' db' saved.
    rewrite (saveJob_insert _ _ _ _ _ _ _ _ R F). cbn [fst snd jobs newCount updatedCount].
    split; [reflexivity|]. split; [reflexivity|]. split.
    + unfold countMatching. cbn [jobs]. rewrite filter_app.
      unfold findJob in F. rewrite (find_none_filter _ _ F). cbn [filter app].
      fold k. rewrite (matches_newJobDoc _ jobData company). reflexivity.
    + eexists. split; [rewrite Hjobs; reflexivity|].
      split; [apply matches_newJobDoc|]. repeat split.
  - intros jobData2 bucket2 sid2 (ST & SC & SL) F first second.
    subst second first. unfold Admin.saveJobsToDatabase. cbn [Admin.saveLoop].
    rewrite (saveJob_insert _ _ _ _ _ _ _ _ R F).
    set (n1 := newJobDoc (nextJobId db0) jobData company bucket sid
                         (clock (ticks w)) (clock (S (ticks w)))).
    set (db1 := mkStore (companies db0) (jobs db0 ++ [n1])
                        (nextCompanyId db0) (S (nextJobId db0))).
    cbn [fst snd].
    assert (R2 : resolveCompany (i_company jobData2) db1 = (company, db1)).
    { apply resolveCompany_found. rewrite <- SC. exact Hfound. }
    assert (K2 : jobIdentifier jobData2 company = k).
    { unfold k, jobIdentifier. rewrite ST, SL. reflexivity. }
    assert (F2 : findJob (jobIdentifier jobData2 company) db1 = Some n1).
    { rewrite K2. unfold findJob in *. cbn [jobs db1].
      rewrite find_snoc, F. unfold k, n1. rewrite matches_newJobDoc. reflexivity. }
    rewrite (saveJob_update _ _ _ _ _ _ _ _ _ R2 F2).
    cbn [fst snd jobs db1 newCount updatedCount].
    assert (Fresh : Forall (fun d => j_id d <> j_id n1) (jobs db0)).
    { rewrite Hjobs. cbn [n1 newJobDoc j_id]. rewrite Hnext.
      eapply Forall_impl; [|exact LT]. cbn. intros d Hd. lia. }
    rewrite (updateById_snoc _ _ _ _ Fresh eq_refl).
    split; [reflexivity|]. split; [reflexivity|]. split.
    + unfold countMatching. cbn [jobs]. rewrite filter_app.
      unfold findJob in F. rewrite (find_none_filter _ _ F). cbn [filter app].
      rewrite <- K2, matches_updatePatch. reflexivity.
    + rewrite length_app, Hjobs. cbn. lia.
Qed.

End Saving.
(** The same job under two external identifiers, saved in two sessions
    into an empty store: one new record, then one update, one document. *)
Lemma upsert_by_identity_witness :
  let first := Admin.saveJobsToDatabase (clockFrom 0) [sampleInput "ext-1"]
                 "platform engineer" "session-1" emptyStore newWorld in
  let second := Admin.saveJobsToDatabase (clockFrom 0) [sampleInput "ext-2"]
                  "platform engineer" "session-2"
                  (snd (fst first)) (snd first) in
  fst (fst first) = mkSaveResult 1 0
  /\ fst (fst second) = mkSaveResult 0 1
  /\ List.length (jobs (snd (fst second))) = 1%nat
  /\ map j_sessionId (jobs (snd (fst second))) = ["session-2"].
Proof.
  intros first second.
  destruct (upsert_by_identity (clockFrom 0) (sampleInput "ext-1")
              "platform engineer" "session-1" (mkSaveResult 0 0)
              emptyStore newWorld (mkCompany 0 "Initech")
              (mkStore [mkCompany 0 "Initech"] [] 1 0)
              eq_refl (conj (NoDup_nil _) (Forall_nil _)))
    as (_ & _ & Twice).
  destruct (Twice (sampleInput "ext-2") "platform engineer" "session-2"
                  (conj eq_refl (conj eq_refl eq_refl)) eq_refl)
    as (H1 & H2 & _ & H4).
  fold first in H1, H2, H4. fold second in H2, H4.
  split; [exact H1|]. split; [exact H2|]. split; [exact H4|].
  vm_compute. reflexivity.
Defined.

Section Orchestrating.

Variable clock : nat -> Z.
Variable searchJobs :
  JobSearchParams -> World -> outcome (list ParsedJob) * World.

Abbreviation scrapeBucket := (Admin.scrapeBucket clock searchJobs).
Abbreviation scrapeBuckets := (Admin.scrapeBuckets clock searchJobs).
Abbreviation scrapeInBackground := (Admin.scrapeInBackground clock searchJobs).
Abbreviation runCrawlers := (Admin.runCrawlers clock searchJobs).

(** Every round files its bucket under completed or under failed, and
    touches neither list otherwise. *)
Lemma scrapeBucket_files req mapped sid bucket p db w :
  roundEnds bucket p (fst (fst (scrapeBucket req mapped sid bucket p db w))).
Proof.
  unfold Admin.scrapeBucket.
  destruct (searchJobs _ w) as [[found|e] w1].
  - destruct found as [|j l].
    + apply round_completed; reflexivity.
    + destruct (if filterIndianJobs req
                then filterJobsByCountry (j :: l) mapped
                else Returned (j :: l)) as [kept|e].
      * destruct (transformJobs clock kept w1) as [inputs w2].
        destruct (Admin.saveJobsToDatabase clock inputs bucket sid db w2)
          as [[res db2] w3].
        apply round_completed; reflexivity.
      * apply round_failed; reflexivity.
  - apply round_failed; reflexivity.
Qed.

(** A bucket whose fetch throws is filed under failed. *)
Lemma scrapeBucket_thrown req mapped sid bucket p db w :
  throwsOn searchJobs bucket ->
  let p' := fst (fst (scrapeBucket req mapped sid bucket p db w)) in
  p_bucketsCompleted p' = p_bucketsCompleted p
  /\ p_bucketsFailed p' = (p_bucketsFailed p ++ [bucket])%list.
Proof.
  intros T. unfold Admin.scrapeBucket.
  match goal with |- context [searchJobs ?q w] =>
    destruct (T q w eq_refl) as (e & w1 & ->) end.
  split; reflexivity.
Qed.

(** A bucket whose fetch and filter go through is filed under completed. *)
Lemma scrapeBucket_returned req mapped sid bucket p db w :
  succeedsOn searchJobs bucket ->
  let p' := fst (fst (scrapeBucket req mapped sid bucket p db w)) in
  p_bucketsCompleted p' = (p_bucketsCompleted p ++ [bucket])%list
  /\ p_bucketsFailed p' = p_bucketsFailed p.
Proof.
  intros S. unfold Admin.scrapeBucket.
  match goal with |- context [searchJobs ?q w] =>
    destruct (S q w eq_refl) as (found & w1 & -> & Filt) end.
  destruct found as [|j l]; [split; reflexivity|].
  destruct (Filt mapped) as [kept Hk].
  assert (E : (if filterIndianJobs req
               then filterJobsByCountry (j :: l) mapped
               else Returned (j :: l))
              = Returned (if filterIndianJobs req then kept else j :: l)).
  { destruct (filterIndianJobs req); [exact Hk | reflexivity]. }
  rewrite E.
  destruct (transformJobs clock _ w1) as [inputs w2].
  destruct (Admin.saveJobsToDatabase clock inputs bucket sid db w2)
    as [[res db2] w3].
  split; reflexivity.
Qed.

(** The loop over the buckets files every bucket exactly once, and a bucket
    whose fetch throws ends among the failed ones. *)
Lemma scrapeBuckets_files req mapped sid todo :
  forall p db w,
    let p' := fst (fst (scrapeBuckets req mapped sid todo p db w)) in
    exists c f,
      p_bucketsCompleted p' = (p_bucketsCompleted p ++ c)%list
      /\ p_bucketsFailed p' = (p_bucketsFailed p ++ f)%list
      /\ Permutation (c ++ f) todo
      /\ (forall b, In b todo -> throwsOn searchJobs b -> In b f).
Proof.
  induction todo as [|bucket more IH]; intros p db w; cbn [Admin.scrapeBuckets].
  - exists [], []. cbn. rewrite !app_nil_r. repeat split.
    + constructor.
    + intros b [].
  - pose proof (scrapeBucket_files req mapped sid bucket p db w) as Round.
    pose proof (scrapeBucket_thrown req mapped sid bucket p db w) as Thrown.
    destruct (scrapeBucket req mapped sid bucket p db w) as [[p1 db1] w1].
    cbn [fst] in Round, Thrown.
    destruct (IH p1 db1 w1) as (c & f & Hc & Hf & Hp & Ht).
    cbn zeta. rewrite Hc, Hf.
    destruct Round as [Ec Ef | Ec Ef]; rewrite Ec, Ef.
    + exists (bucket :: c), f. rewrite <- app_assoc. repeat split.
      * cbn. constructor. exact Hp.
      * intros b [<-|Hb] T; [|apply Ht; assumption].
        destruct (Thrown T) as [Tc _]. rewrite Ec in Tc.
        exfalso. apply (f_equal (@List.length string)) in Tc.
        rewrite length_app in Tc. cbn in Tc. lia.
    + exists c, (bucket :: f). rewrite <- app_assoc. repeat split.
      * apply Permutation_sym, Permutation_cons_app, Permutation_sym. exact Hp.
      * intros b [<-|Hb] T; [left; reflexivity|].
        right. apply Ht; assumption.
Qed.

(** C5. In every run whose session is created: a bucket whose fetch throws
    is recorded among the failed buckets and the run goes on, so that every
    requested bucket ends either completed or failed; the final status is
    "completed" exactly when no bucket failed and "partial" otherwise.  With
    three buckets of which only the second throws, the session ends
    "partial", with the first and third buckets completed and the second
    failed. *)
Theorem partial_failure_session sid req db w session db' w' :
  runCrawlers sid req db w = Some (session, db', w') ->
  (status session = completed <-> bucketsFailed session = [])
  /\ (status session = partial <-> bucketsFailed session <> [])
  /\ Permutation (bucketsCompleted session ++ bucketsFailed session)
                 (buckets req)
  /\ (forall b, In b (buckets req) -> throwsOn searchJobs b ->
                In b (bucketsFailed session))
  /\ (forall b1 b2 b3,
         buckets req = [b1; b2; b3] ->
         succeedsOn searchJobs b1 -> throwsOn searchJobs b2 ->
         succeedsOn searchJobs b3 ->
         status session = partial
         /\ bucketsCompleted session = [b1; b3]
         /\ bucketsFailed session = [b2]).
Proof.
  unfold Admin.runCrawlers, Admin.scrapeInBackground.
  change (sessionId (createSession sid req)) with sid.
  destruct (buckets req) as [|b0 rest] eqn:B; [discriminate|].
  set (mapped := mapCountry countryMap (countryName req)).
  set (p0 := mkProgress 0 0 0 0 0 0 [] []).
  pose proof (scrapeBuckets_files req mapped sid (b0 :: rest) p0 db w) as Files.
  assert (Three : forall b1 b2 b3,
             b0 :: rest = [b1; b2; b3] ->
             succeedsOn searchJobs b1 -> throwsOn searchJobs b2 ->
             succeedsOn searchJobs b3 ->
             let p := fst (fst (scrapeBuckets req mapped sid (b0 :: rest) p0 db w)) in
             p_bucketsCompleted p = [b1; b3] /\ p_bucketsFailed p = [b2]).
  { intros b1 b2 b3 E S1 T2 S3. rewrite E. cbn [Admin.scrapeBuckets].
    pose proof (scrapeBucket_returned req mapped sid b1 p0 db w S1) as R1.
    destruct (scrapeBucket req mapped sid b1 p0 db w) as [[p1 db1] w1].
    pose proof (scrapeBucket_thrown req mapped sid b2 p1 db1 w1 T2) as R2.
    destruct (scrapeBucket req mapped sid b2 p1 db1 w1) as [[p2 db2] w2].
    pose proof (scrapeBucket_returned req mapped sid b3 p2 db2 w2 S3) as R3.
    destruct (scrapeBucket req mapped sid b3 p2 db2 w2) as [[p3 db3] w3].
    cbn [fst] in *. destruct R1 as [C1 F1], R2 as [C2 F2], R3 as [C3 F3].
    rewrite C3, F3, C2, F2, C1, F1. split; reflexivity. }
  destruct (scrapeBuckets req mapped sid (b0 :: rest) p0 db w) as [[p db1] w1].
  cbn [fst] in Files, Three.
  intros E. injection E as <- _ _.
  destruct Files as (c & f & Hc & Hf & Hp & Ht).
  cbn [app p_bucketsCompleted p_bucketsFailed p0] in Hc, Hf.
  unfold finishSession.
  cbn [status bucketsFailed bucketsCompleted].
  split; [|split; [|split; [|split]]].
  - destruct (p_bucketsFailed p); split; intros; congruence.
  - destruct (p_bucketsFailed p); split; intros; congruence.
  - rewrite Hc, Hf. exact Hp.
  - intros b Hb T. rewrite Hf. apply Ht; assumption.
  - intros b1 b2 b3 E3 S1 T2 S3.
    destruct (Three b1 b2 b3 E3 S1 T2 S3) as [TC TF].
    rewrite TC, TF. repeat split.
Qed.

End Orchestrating.

(** Three buckets, the search throwing on the second one only. *)
Lemma partial_failure_session_witness :
  let req := mkCrawlRequest ["backend"; "frontend"; "devops"] true
                            "United States" "United States" in
  let run := Admin.scrapeInBackground (clockFrom 0) (flakySearch "frontend")
               req (createSession "session-1" req) emptyStore newWorld in
  status (fst (fst run)) = partial
  /\ bucketsCompleted (fst (fst run)) = ["backend"; "devops"]
  /\ bucketsFailed (fst (fst run)) = ["frontend"].
Proof.
  intros req run.
  assert (Good : forall b, String.eqb b "frontend" = false ->
                           succeedsOn (flakySearch "frontend") b).
  { intros b Hb params w Hq. unfold flakySearch. rewrite Hq, Hb.
    eexists. exists w. split; [reflexivity|].
    intros target. cbn [filterJobsByCountry]. unfold inCountry.
    cbn [country austinParsed bindO]. eexists. reflexivity. }
  assert (Bad : throwsOn (flakySearch "frontend") "frontend").
  { intros params w Hq. unfold flakySearch. rewrite Hq.
    eexists. exists w. reflexivity. }
  refine (proj2 (proj2 (proj2 (proj2
            (partial_failure_session (clockFrom 0) (flakySearch "frontend")
               "session-1" req emptyStore newWorld
               (fst (fst run)) (snd (fst run)) (snd run) _))))
            "backend" "frontend" "devops" eq_refl
            (Good "backend" eq_refl) Bad (Good "devops" eq_refl)).
  unfold Admin.runCrawlers. cbn [buckets req].
  fold req. fold run. destruct run as [[s d] x]. reflexivity.
Defined.


End AdminFacts.

(* ================================================================== *)
(** * Further properties of the code *)
(* ================================================================== *)

(** ** The classifier beyond the claims *)

Module ClassifierMore.

Import Js JsFacts Classifier Reports.

Lemma lowerChar_idempotent (c : ascii) : lowerChar (lowerChar c) = lowerChar c.
Proof. destruct c as [[] [] [] [] [] [] [] []]; vm_compute; reflexivity. Qed.

Lemma toLowerCase_idempotent (s : string) :
  toLowerCase (toLowerCase s) = toLowerCase s.
Proof.
  induction s as [|c s IH]; cbn; [reflexivity|].
  rewrite lowerChar_idempotent. f_equal. exact IH.
Qed.

Lemma toLowerCase_nonEmpty (s : string) : nonEmpty (toLowerCase s) = nonEmpty s.
Proof. destruct s; reflexivity. Qed.

Lemma toLowerCase_append (a b : string) :
  toLowerCase (a ++ b) = toLowerCase a ++ toLowerCase b.
Proof. induction a as [|c a IH]; cbn; [reflexivity | f_equal; exact IH]. Qed.

Lemma toLowerCase_join_space (l : list string) :
  toLowerCase (join " " (map toLowerCase l)) = toLowerCase (join " " l).
Proof.
  unfold join. induction l as [|a l IH]; [reflexivity|].
  destruct l as [|b l].
  - cbn. apply toLowerCase_idempotent.
  - cbn [map String.concat] in *.
    rewrite !toLowerCase_append, IH, toLowerCase_idempotent. reflexivity.
Qed.

Lemma present_lower (l : list (option string)) :
  present (map (option_map toLowerCase) l) = map toLowerCase (present l).
Proof.
  unfold present. induction l as [|o l IH]; [reflexivity|].
  cbn [map flat_map]. rewrite IH, map_app. f_equal.
  destruct o as [s|]; cbn; [|reflexivity].
  rewrite toLowerCase_nonEmpty. destruct (nonEmpty s); reflexivity.
Qed.

Lemma given_lower (o : option string) :
  given (option_map toLowerCase o) = given o.
Proof. destruct o; cbn; [apply toLowerCase_nonEmpty | reflexivity]. Qed.

(** X1. The verdict does not depend on the letter case of the location,
    city, state and country it is given: lower-casing them all leaves it
    unchanged. *)
Theorem verdict_ignores_letter_case
        (target location : string) (city state country : option string) :
  isLocationInCountry target (toLowerCase location)
                      (option_map toLowerCase city)
                      (option_map toLowerCase state)
                      (option_map toLowerCase country)
  = isLocationInCountry target location city state country.
Proof.
  unfold isLocationInCountry.
  rewrite !given_lower, toLowerCase_nonEmpty, toLowerCase_idempotent.
  change [option_map toLowerCase city; option_map toLowerCase state;
          option_map toLowerCase country]
    with (map (option_map toLowerCase) [city; state; country]).
  rewrite present_lower, toLowerCase_join_space.
  destruct country as [c|]; cbn [option_map]; [|reflexivity].
  rewrite toLowerCase_idempotent. reflexivity.
Qed.

Lemma lookup_cases (tbl : table) (key : string) :
  lookup tbl key = [] \/ In (lookup tbl key) (map snd tbl).
Proof.
  induction tbl as [|[k v] tbl IH]; cbn; [left; reflexivity|].
  destruct (String.eqb k key); [right; left; reflexivity|].
  destruct IH as [IH|IH]; [left | right; right]; exact IH.
Qed.

(** Every entry of a table satisfies a property that holds of all its
    rows. *)
Lemma lookup_forallb (p : string -> bool) (tbl : table) (key : string) :
  forallb (forallb p) (map snd tbl) = true ->
  forallb p (lookup tbl key) = true.
Proof.
  intros H. destruct (lookup_cases tbl key) as [->|HI]; [reflexivity|].
  rewrite forallb_forall in H. apply H. exact HI.
Qed.



(** X3. When the target is not "us" and no country field is given, a
    location that contains ", " followed by one of the excluded US state
    words is rejected, also when it names a city of the target country. *)
Theorem us_state_words_exclude
        (target location usState : string) (city state country : option string) :
  target <> "us" ->
  given country = false ->
  In usState EXCLUDE_US_STATES ->
  includes (", " ++ usState) (toLowerCase location) = true ->
  isLocationInCountry target location city state country = false.
Proof.
  intros NU NC HI Hinc. unfold isLocationInCountry. rewrite NC.
  destruct (negb (nonEmpty location) && _ && _ && _); [reflexivity|].
  unfold classify.
  apply String.eqb_neq in NU. rewrite NU. cbn [negb andb].
  assert (E : existsb (usStateHit (toLowerCase location)) EXCLUDE_US_STATES = true).
  { apply existsb_exists. exists usState. split; [exact HI|].
    unfold usStateHit. rewrite Hinc. reflexivity. }
  rewrite E. reflexivity.
Qed.

Lemma us_state_words_exclude_witness :
  isLocationInCountry "fr" "Paris" None None None = true
  /\ isLocationInCountry "fr" "Paris, Texas" None None None = false.
Proof.
  split; [vm_compute; reflexivity|].
  apply (us_state_words_exclude "fr" "Paris, Texas" "texas" None None None).
  - discriminate.
  - reflexivity.
  - vm_compute. tauto.
  - vm_compute. reflexivity.
Defined.

Lemma includes_in_empty (sub s : string) :
  includes sub "" = true -> includes sub s = true.
Proof.
  destruct sub as [|c sub]; cbn; [|discriminate].
  intros _. destruct s; reflexivity.
Qed.

Lemma cityPattern_empty_input (cityName : string) :
  nonEmpty cityName = true -> Regex.test (cityPattern cityName) "" = false.
Proof.
  destruct cityName as [|c r]; [discriminate|]. intros _.
  destruct r as [|c' r']; reflexivity.
Qed.

Lemma existsb_weaken {A} (p q : A -> bool) (l : list A) :
  (forall x, In x l -> p x = true -> q x = true) ->
  existsb p l = true -> existsb q l = true.
Proof.
  intros H E. apply existsb_exists in E. destruct E as (x & Hx & Px).
  apply existsb_exists. exists x. split; [exact Hx | apply H; assumption].
Qed.

(** X4. Without a country field, city and state data can only add
    acceptance: a location accepted on its own stays accepted whatever city
    and state are given along with it. *)
Theorem city_and_state_never_reject
        (target location : string) (city state country : option string) :
  given country = false ->
  isLocationInCountry target location None None country = true ->
  isLocationInCountry target location city state country = true.
Proof.
  intros NC. unfold isLocationInCountry. rewrite NC. cbn [given negb andb].
  rewrite !andb_true_r.
  destruct (negb (nonEmpty location)) eqn:NL; [discriminate|].
  cbn [andb].
  assert (P0 : present [None; None; country] = []).
  { destruct country as [c|]; [|reflexivity]. cbn in NC. cbn. rewrite NC.
    reflexivity. }
  rewrite P0. change (toLowerCase (join " " [])) with "".
  set (loc := toLowerCase location).
  generalize (toLowerCase (join " " (present [city; state; country]))).
  intros full. unfold classify.
  destruct (negb (String.eqb target "us") && _); [discriminate|].
  destruct (existsb _ (lookup COUNTRY_STATE_CODES target)) eqn:E1.
  { intros _. erewrite existsb_weaken; [reflexivity| |exact E1].
    intros sc _ H. apply orb_true_iff in H. apply orb_true_iff.
    destruct H as [H|H]; [left; exact H | right; apply includes_in_empty; exact H]. }
  match goal with |- context [existsb ?p (lookup COUNTRY_STATE_CODES target)] =>
    destruct (existsb p (lookup COUNTRY_STATE_CODES target)) end;
    [reflexivity|].
  assert (Cities : forallb nonEmpty (lookup COUNTRY_LOCATIONS target) = true)
    by (apply lookup_forallb; vm_compute; reflexivity).
  assert (Names : forallb nonEmpty (lookup countryNames target) = true)
    by (apply lookup_forallb; vm_compute; reflexivity).
  rewrite forallb_forall in Cities, Names.
  destruct (existsb _ (lookup COUNTRY_LOCATIONS target)) eqn:E2.
  { intros _. erewrite existsb_weaken; [reflexivity| |exact E2].
    intros c Hc H. cbn beta in H.
    rewrite (cityPattern_empty_input c (Cities c Hc)), orb_false_r in H.
    rewrite H. reflexivity. }
  match goal with |- context [existsb ?p (lookup COUNTRY_LOCATIONS target)] =>
    destruct (existsb p (lookup COUNTRY_LOCATIONS target)) end;
    [reflexivity|].
  apply existsb_weaken. intros kw Hkw. unfold keywordHit.
  assert (NE : String.eqb "" kw = false).
  { specialize (Names kw Hkw). destruct kw; [discriminate | reflexivity]. }
  rewrite NE, orb_false_r. intros ->. reflexivity.
Qed.

Lemma city_and_state_never_reject_witness :
  isLocationInCountry "uk" "Leeds" (Some "Leeds") (Some "West Yorkshire") None
  = true.
Proof.
  apply (city_and_state_never_reject "uk" "Leeds" (Some "Leeds")
           (Some "West Yorkshire") None).
  - reflexivity.
  - vm_compute. reflexivity.
Defined.


End ClassifierMore.

(** ** The normalizer beyond the claims *)

Module NormalizerMore.

Import Js JsFacts Classifier Normalizer Fetcher Reports.

(** Every field of a parsed record, read off the record it came from. *)
Lemma parseJobData_fields (raw : rawJob) (p : ParsedJob) :
  parseJobData raw = Some p ->
  exists o name,
    raw = Obj o
    /\ companyOf o = Returned name
    /\ locationFields o = Returned (city p, state p, country p)
    /\ location p = displayLocation (locationParts (city p) (state p) (country p))
    /\ title p = Value.or (Value.or (get o "job_title") (get o "title"))
                          (Value.Str "Untitled")
    /\ company p = (if nonEmpty name then name else "Unknown Company")
    /\ salaryPeriod p = Value.or (Value.or (get o "job_salary_period")
                                           (get o "salary_period"))
                                 (Value.Str "YEARLY")
    /\ jobType p = Value.or (Value.or (get o "job_employment_type")
                                      (get o "jobType")) (Value.Str "Full-time")
    /\ isRemote p = Value.or (Value.or (get o "job_is_remote") (get o "is_remote"))
                             (Value.Bool (includes "remote"
                                            (toLowerCase (location p))))
    /\ rawData p = Some o.
Proof.
  destruct raw as [|o]; cbn; [discriminate|].
  unfold parseFields.
  destruct (locationFields o) as [[[c s] k]|e] eqn:EL; cbn; [|discriminate].
  destruct (companyOf o) as [name|e] eqn:EC; cbn; [|discriminate].
  destruct (sourceOf (applyLinkOf o)) as [src|e] eqn:ES; cbn; [|discriminate].
  intros H. injection H as <-. cbn.
  exists o, name. repeat split; try reflexivity; assumption.
Qed.

Lemma or_default_truthy (a : Value.t) (d : string) :
  nonEmpty d = true -> Value.truthy (Value.or a (Value.Str d)) = true.
Proof.
  intros H. rewrite or_truthy. cbn. rewrite H. apply orb_true_r.
Qed.

(** X5. Every record the normalizer returns has a truthy title, a company
    name that is not empty, a truthy salary period and job type, and keeps
    the raw record it was made from: the defaults "Untitled",
    "Unknown Company", "YEARLY" and "Full-time" fill what the payload
    lacks. *)
Theorem parsed_record_is_complete (raw : rawJob) (p : ParsedJob) :
  parseJobData raw = Some p ->
  Value.truthy (title p) = true
  /\ company p <> ""
  /\ Value.truthy (salaryPeriod p) = true
  /\ Value.truthy (jobType p) = true
  /\ exists o, raw = Obj o /\ rawData p = Some o
     /\ (Value.truthy (Value.or (get o "job_title") (get o "title")) = false ->
         title p = Value.Str "Untitled").
Proof.
  intros H.
  destruct (parseJobData_fields raw p H)
    as (o & name & Ho & _ & _ & _ & HT & HC & HS & HJ & _ & HR).
  split; [rewrite HT; apply or_default_truthy; reflexivity|].
  split.
  { rewrite HC. destruct (nonEmpty name) eqn:N.
    - apply nonEmpty_true. exact N.
    - discriminate. }
  split; [rewrite HS; apply or_default_truthy; reflexivity|].
  split; [rewrite HJ; apply or_default_truthy; reflexivity|].
  exists o. split; [exact Ho|]. split; [exact HR|].
  intros F. rewrite HT. unfold Value.or at 1. rewrite F. reflexivity.
Qed.

Lemma parsed_record_is_complete_witness :
  exists p, parseJobData (Obj [("job_city", Value.Str "Pune")]) = Some p
            /\ title p = Value.Str "Untitled"
            /\ company p <> "".
Proof.
  eexists. split; [vm_compute; reflexivity|].
  split; [reflexivity|].
  refine (proj1 (proj2 (parsed_record_is_complete
                          (Obj [("job_city", Value.Str "Pune")]) _ _))).
  vm_compute. reflexivity.
Defined.

(** X6. A record without any location data is flagged remote: its display
    location is "Remote" and [isRemote] is truthy, whatever the remote
    fields of the payload say. *)
Theorem no_location_means_remote (raw : rawJob) (p : ParsedJob) :
  parseJobData raw = Some p ->
  filter Value.truthy [city p; state p; country p] = [] ->
  location p = "Remote" /\ Value.truthy (isRemote p) = true.
Proof.
  intros H E.
  destruct (parseJobData_fields raw p H)
    as (o & name & _ & _ & _ & HL & _ & _ & _ & _ & HR & _).
  unfold locationParts in HL. rewrite E in HL. cbn in HL.
  split; [exact HL|].
  rewrite HR, HL, or_truthy. apply orb_true_r.
Qed.

Lemma no_location_means_remote_witness :
  exists p,
    parseJobData (Obj [("job_title", Value.Str "Support Agent");
                       ("job_is_remote", Value.Bool false)]) = Some p
    /\ location p = "Remote" /\ Value.truthy (isRemote p) = true.
Proof.
  eexists. split; [vm_compute; reflexivity|].
  refine (no_location_means_remote
            (Obj [("job_title", Value.Str "Support Agent");
                  ("job_is_remote", Value.Bool false)]) _ _ _);
    vm_compute; reflexivity.
Defined.
(** *** Combined location strings *)

Lemma Returned_inj {A} (a b : A) : Returned a = Returned b -> a = b.
Proof. intros H. injection H as H. exact H. Qed.

Lemma append_assoc (a b c : string) : (a ++ b) ++ c = a ++ b ++ c.
Proof. induction a as [|x a IH]; cbn; [reflexivity | f_equal; exact IH]. Qed.

Lemma concat_snoc2 (sep a b : string) (pre : list string) :
  pre <> [] ->
  String.concat sep (pre ++ [a; b])
  = String.concat sep pre ++ sep ++ a ++ sep ++ b.
Proof.
  induction pre as [|x pre IH]; [contradiction|]. intros _.
  destruct pre as [|y pre].
  - reflexivity.
  - change (String.concat sep ((x :: y :: pre) ++ [a; b]))
      with (x ++ sep ++ String.concat sep ((y :: pre) ++ [a; b])).
    rewrite IH by discriminate.
    change (String.concat sep (x :: y :: pre))
      with (x ++ sep ++ String.concat sep (y :: pre)).
    rewrite !append_assoc. reflexivity.
Qed.

Lemma list_shape (l : list string) :
  l = [] \/ (exists a, l = [a]) \/ (exists pre a b, l = (pre ++ [a; b])%list).
Proof.
  induction l as [|x l IH]; [left; reflexivity|]. right.
  destruct IH as [->|[[a ->]|(pre & a & b & ->)]].
  - left. exists x. reflexivity.
  - right. exists [], x, a. reflexivity.
  - right. exists (x :: pre), a, b. reflexivity.
Qed.

Lemma fromRawLocation_two (pre : list string) (a b : string) :
  fromRawLocation (pre ++ [a; b]) (Value.Str "", Value.Str "", Value.Str "")
  = (Value.Str (join ", " pre), Value.Str a, Value.Str b).
Proof.
  unfold fromRawLocation. rewrite length_app. cbn [List.length].
  replace (List.length pre + 2 - 2)%nat with (List.length pre) by lia.
  replace (List.length pre + 2 - 1)%nat with (S (List.length pre)) by lia.
  replace (2 <=? List.length pre + 2)%nat with true
    by (symmetry; apply Nat.leb_le; lia).
  rewrite firstn_app, firstn_all, Nat.sub_diag, app_nil_r.
  rewrite !app_nth2 by lia.
  replace (List.length pre - List.length pre)%nat with 0%nat by lia.
  replace (S (List.length pre) - List.length pre)%nat with 1%nat by lia.
  reflexivity.
Qed.

Lemma splitLocation_nonnil (s : string) : splitLocation s <> [].
Proof.
  unfold splitLocation. destruct s as [|c s]; cbn; [discriminate|].
  destruct (Ascii.eqb c ","); [discriminate|].
  destruct (split "," s); discriminate.
Qed.

Lemma splitLocation_nonEmpty (s : string) :
  forallb nonEmpty (splitLocation s) = true -> nonEmpty s = true.
Proof. destruct s; [discriminate | reflexivity]. Qed.

(** With no dedicated field, the three location fields come from the
    combined string. *)
Lemma locationFields_combined (o : fields) (s : string) :
  noLocationFields o = true ->
  get o "job_location" = Value.Str s ->
  nonEmpty s = true ->
  locationFields o
  = Returned (fromRawLocation (splitLocation s)
                              (Value.Str "", Value.Str "", Value.Str "")).
Proof.
  intros N L S. unfold noLocationFields in N. cbn [forallb] in N.
  repeat (apply andb_true_iff in N; destruct N as [?F N]).
  repeat match goal with H : negb _ = true |- _ =>
    apply negb_true_iff in H end.
  unfold locationFields. rewrite L. unfold Value.or.
  rewrite F, F0, F1, F2, F3, F4.
  cbn [Value.truthy]. rewrite S. cbn [Value.truthy]. rewrite ?S.
  reflexivity.
Qed.

(** X7. When a record carries its location only as a combined string whose
    comma-separated parts are all non-blank, the display location of the
    canonical record is those parts, trimmed, joined by ", ": the split into
    city, state and country loses nothing. *)
Theorem combined_location_is_kept (o : fields) (s : string) (p : ParsedJob) :
  noLocationFields o = true ->
  get o "job_location" = Value.Str s ->
  forallb nonEmpty (splitLocation s) = true ->
  parseJobData (Obj o) = Some p ->
  location p = join ", " (splitLocation s).
Proof.
  intros N L A H.
  destruct (parseJobData_fields _ _ H)
    as (o' & name & Ho & _ & HF & HL & _).
  injection Ho as <-.
  rewrite (locationFields_combined o s N L (splitLocation_nonEmpty s A)) in HF.
  apply Returned_inj in HF. rewrite HL.
  destruct (list_shape (splitLocation s)) as [E|[[a E]|(pre & a & b & E)]];
    [exfalso; exact (splitLocation_nonnil s E)| |]; rewrite E in *.
  - cbn in HF. injection HF as <- <- <-.
    cbn in A. rewrite andb_true_r in A.
    unfold locationParts, Value.or. cbn. rewrite A. reflexivity.
  - rewrite fromRawLocation_two in HF. injection HF as <- <- <-.
    rewrite forallb_app in A. apply andb_true_iff in A. destruct A as [Apre A].
    cbn in A. apply andb_true_iff in A. destruct A as [Aa A].
    rewrite andb_true_r in A.
    unfold locationParts. cbn [filter Value.truthy]. rewrite Aa, A.
    destruct pre as [|x pre].
    + reflexivity.
    + cbn in Apre. apply andb_true_iff in Apre. destruct Apre as [Ax _].
      rewrite (join_nonEmpty ", " x pre Ax).
      cbn [displayLocation map Value.toStr]. unfold join.
      rewrite concat_snoc2 by discriminate. reflexivity.
Qed.

Lemma combined_location_is_kept_witness :
  exists p,
    parseJobData (Obj [("job_location", Value.Str " Quebec City ,QC,  Canada")])
    = Some p
    /\ location p = "Quebec City, QC, Canada".
Proof.
  eexists. split; [vm_compute; reflexivity|].
  apply (combined_location_is_kept
           [("job_location", Value.Str " Quebec City ,QC,  Canada")]
           " Quebec City ,QC,  Canada");
    vm_compute; reflexivity.
Defined.

(** X8. When a record carries its location only as a combined string of two
    parts or more and the last part is not empty, that part is taken for the
    country, and the classifier decides on it alone: the verdict is the
    comparison of the last part with the names of the target. *)
Theorem last_part_decides (o : fields) (s : string) (p : ParsedJob)
        (pre : list string) (a b target : string) :
  noLocationFields o = true ->
  get o "job_location" = Value.Str s ->
  splitLocation s = (pre ++ [a; b])%list ->
  nonEmpty b = true ->
  parseJobData (Obj o) = Some p ->
  country p = Value.Str b
  /\ inCountry target p
     = Returned (explicitCountryMatches target (toLowerCase target)
                                        (trim (toLowerCase b))).
Proof.
  intros N L E B H.
  destruct (parseJobData_fields _ _ H)
    as (o' & name & Ho & _ & HF & _).
  injection Ho as <-.
  assert (S : nonEmpty s = true).
  { destruct s; [|reflexivity]. destruct pre as [|? [|? ?]]; discriminate. }
  rewrite (locationFields_combined o s N L S), E, fromRawLocation_two in HF.
  apply Returned_inj in HF. injection HF as _ _ HC.
  split; [symmetry; exact HC|].
  unfold inCountry. rewrite <- HC.
  rewrite ClassifierFacts.explicit_country_decides by exact B. reflexivity.
Qed.

(** A job of San Francisco whose location comes as "San Francisco, CA" is
    rejected for the target "us": "CA" is read as its country. *)
Lemma last_part_decides_witness :
  exists p,
    parseJobData (Obj [("job_location", Value.Str "San Francisco, CA")]) = Some p
    /\ country p = Value.Str "CA"
    /\ inCountry "us" p = Returned false.
Proof.
  eexists. split; [vm_compute; reflexivity|].
  apply (last_part_decides
           [("job_location", Value.Str "San Francisco, CA")]
           "San Francisco, CA" _ [] "San Francisco" "CA" "us");
    vm_compute; reflexivity.
Defined.

(** *** Company names *)

(** X9. A valid name in one of the company fields settles the company:
    title and description are not consulted, so that a title or description
    that is not a string cannot make the normalizer fail.  Without a valid
    name and with neither title nor description, the company is
    "Unknown Company". *)
Theorem company_field_takes_precedence (o : fields) :
  Value.textual (get o "job_location") = true ->
  Value.textual (applyLinkOf o) = true ->
  let found := firstCompany o possibleCompanyFields in
  (isValidCompany found = true ->
   exists p, parseJobData (Obj o) = Some p
             /\ company p = (if nonEmpty (stripQuotes (trim found))
                             then stripQuotes (trim found)
                             else "Unknown Company"))
  /\ (isValidCompany found = false ->
      Value.truthy (get o "job_title") = false ->
      Value.truthy (get o "job_description") = false ->
      exists p, parseJobData (Obj o) = Some p
                /\ company p = "Unknown Company").
Proof.
  intros HL HA found.
  destruct (NormalizerFacts.locationFields_textual o HL) as [[[c s] k] EL].
  destruct (NormalizerFacts.sourceOf_textual _ HA) as [src ES].
  assert (Parse : forall name, companyOf o = Returned name ->
            exists p, parseJobData (Obj o) = Some p
                      /\ company p = (if nonEmpty name then name
                                      else "Unknown Company")).
  { intros name EC. cbn. unfold parseFields. rewrite EL. cbn [bindO].
    rewrite EC. cbn [bindO]. rewrite ES. cbn [bindO].
    eexists. split; reflexivity. }
  split.
  - intros V. apply Parse. unfold companyOf. fold found. rewrite V.
    unfold isValidCompany in V. apply andb_true_iff in V. destruct V as [V _].
    rewrite V. cbn [bindO]. rewrite V. reflexivity.
  - intros V T D.
    destruct (Parse "Unknown Company") as (p & Hp & Hc).
    + unfold companyOf. fold found. rewrite V, T. cbn. rewrite D. reflexivity.
    + exists p. split; [exact Hp | exact Hc].
Qed.

Lemma company_field_takes_precedence_witness :
  exists p,
    parseJobData (Obj [("employer_name", Value.Str " 'Globex' ");
                       ("job_title", Value.Num 7)]) = Some p
    /\ company p = "Globex".
Proof.
  apply (proj1 (company_field_takes_precedence
                  [("employer_name", Value.Str " 'Globex' ");
                   ("job_title", Value.Num 7)] eq_refl eq_refl)).
  vm_compute. reflexivity.
Defined.


End NormalizerMore.

(** ** The fetcher beyond the claims *)

Module FetcherMore.

Import Js JsFacts Classifier Fetcher Reports Doubles.

(** *** The page filter and [filterJobsByCountry] *)

Lemma processPage_adds (target : string) (apiJobs : list rawJob) :
  forall jobs,
  exists added,
    fst (processPage target apiJobs jobs) = (jobs ++ added)%list
    /\ Forall (fun j => acceptedBy target j = true) added
    /\ (List.length added <= List.length apiJobs)%nat
    /\ Forall (fun j => exists raw, In raw apiJobs /\ parseJobData raw = Some j)
              added.
Proof.
  induction apiJobs as [|raw more IH]; intros jobs; cbn [processPage].
  - exists []. cbn. rewrite app_nil_r. repeat split; constructor.
  - assert (Skip : exists added,
               fst (processPage target more jobs) = (jobs ++ added)%list
               /\ Forall (fun j => acceptedBy target j = true) added
               /\ (List.length added <= List.length (raw :: more))%nat
               /\ Forall (fun j => exists r, In r (raw :: more)
                                             /\ parseJobData r = Some j) added).
    { destruct (IH jobs) as (added & E & A & L & O).
      exists added. repeat split; [exact E | exact A | cbn; lia |].
      eapply Forall_impl; [|exact O].
      intros j (r & Hr & Hp). exists r. split; [right; exact Hr | exact Hp]. }
    destruct (parseJobData raw) as [parsed|] eqn:P; [|exact Skip].
    destruct (inCountry target parsed) as [[|]|e] eqn:C; [|exact Skip|].
    + destruct (IH (jobs ++ [parsed])%list) as (added & E & A & L & O).
      exists (parsed :: added). rewrite E, <- app_assoc.
      repeat split; [|cbn; lia|].
      * constructor; [unfold acceptedBy; rewrite C; reflexivity | exact A].
      * constructor; [exists raw; split; [left; reflexivity | exact P]|].
        eapply Forall_impl; [|exact O].
        intros j (r & Hr & Hp). exists r. split; [right; exact Hr | exact Hp].
    + exists []. cbn. rewrite app_nil_r. repeat split; try constructor. lia.
Qed.

(** X10. The loop over the jobs of a page only appends to the array of kept
    jobs: what was kept before stays in front, every job appended was parsed
    from a record of the page and accepted by the classifier for the target,
    and the page adds at most one job per record. *)
Theorem page_keeps_only_accepted_jobs
        (target : string) (apiJobs : list rawJob) (jobs : list ParsedJob) :
  exists added,
    fst (processPage target apiJobs jobs) = (jobs ++ added)%list
    /\ Forall (fun j => inCountry target j = Returned true) added
    /\ (List.length added <= List.length apiJobs)%nat
    /\ Forall (fun j => exists raw, In raw apiJobs /\ parseJobData raw = Some j)
              added.
Proof.
  destruct (processPage_adds target apiJobs jobs) as (added & E & A & L & O).
  exists added. repeat split; try assumption.
  eapply Forall_impl; [|exact A].
  intros j. unfold acceptedBy.
  destruct (inCountry target j) as [[|]|e]; [reflexivity | discriminate ..].
Qed.

(** The filter keeps exactly the accepted jobs, and returns exactly when
    the classifier throws on none. *)
Lemma filterJobsByCountry_filter (target : string) (jobs kept : list ParsedJob) :
  filterJobsByCountry jobs target = Returned kept ->
  kept = filter (acceptedBy target) jobs.
Proof.
  revert kept. induction jobs as [|j jobs IH]; intros kept; cbn [filterJobsByCountry].
  - intros E. injection E as <-. reflexivity.
  - destruct (inCountry target j) as [keep|e] eqn:C; cbn [bindO]; [|discriminate].
    destruct (filterJobsByCountry jobs target) as [rest|e]; cbn [bindO];
      [|discriminate].
    intros E. injection E as <-. rewrite (IH rest eq_refl).
    cbn [filter].
    replace (acceptedBy target j) with keep
      by (unfold acceptedBy; rewrite C; destruct keep; reflexivity).
    destruct keep; reflexivity.
Qed.

Lemma filterJobsByCountry_accepted (target : string) (jobs : list ParsedJob) :
  Forall (fun j => acceptedBy target j = true) jobs ->
  filterJobsByCountry jobs target = Returned jobs.
Proof.
  induction 1 as [|j jobs A _ IH]; cbn [filterJobsByCountry]; [reflexivity|].
  unfold acceptedBy in A.
  destruct (inCountry target j) as [[|]|e]; try discriminate.
  cbn [bindO]. rewrite IH. reflexivity.
Qed.

(** X11. [filterJobsByCountry] returns the jobs the classifier accepts, in
    their order and nothing else, and filtering its result again changes
    nothing. *)
Theorem country_filter_is_idempotent (target : string) (jobs kept : list ParsedJob) :
  filterJobsByCountry jobs target = Returned kept ->
  kept = filter (acceptedBy target) jobs
  /\ filterJobsByCountry kept target = Returned kept.
Proof.
  intros E. pose proof (filterJobsByCountry_filter _ _ _ E) as F.
  split; [exact F|]. apply filterJobsByCountry_accepted.
  rewrite F. apply Forall_forall. intros j Hj.
  apply filter_In in Hj. tauto.
Qed.

Lemma country_filter_is_idempotent_witness :
  filterJobsByCountry [austinParsed "a"; austinParsed "b"] "us"
  = Returned [austinParsed "a"; austinParsed "b"]
  /\ filterJobsByCountry [austinParsed "a"; austinParsed "b"] "de" = Returned []
  /\ filterJobsByCountry [] "de" = Returned [].
Proof.
  destruct (country_filter_is_idempotent "us"
              [austinParsed "a"; austinParsed "b"]
              [austinParsed "a"; austinParsed "b"]
              ltac:(vm_compute; reflexivity)) as [_ H1].
  destruct (country_filter_is_idempotent "de"
              [austinParsed "a"; austinParsed "b"] []
              ltac:(vm_compute; reflexivity)) as [_ H2].
  split; [exact H1|]. split; [vm_compute; reflexivity | exact H2].
Defined.

Section Service.

Variable apiKey : string.
Variable maxRetries : Z.
Variable server : list Request -> httpResult.
Variable rand : nat -> N.
Variable clock : nat -> Z.

Abbreviation generateFallbackJobs := (Fetcher.generateFallbackJobs rand clock).
Abbreviation fallbackLoop := (Fetcher.fallbackLoop rand clock).
Abbreviation fallbackJob := (Fetcher.fallbackJob rand clock).
Abbreviation retryLoop := (Fetcher.retryLoop server).
Abbreviation makeRequestWithRetry := (Fetcher.makeRequestWithRetry maxRetries server).
Abbreviation pageLoop := (Fetcher.pageLoop maxRetries server).
Abbreviation searchJobs := (Fetcher.searchJobs apiKey maxRetries server rand clock).

(** *** What the search returns *)

Lemma pageLoop_keeps_accepted params ps todo :
  forall page jobs w kept w',
    pageLoop params ps todo page jobs w = (Finished kept, w') ->
    Forall (fun j => acceptedBy (targetOf params) j = true) jobs ->
    Forall (fun j => acceptedBy (targetOf params) j = true) kept.
Proof.
  induction todo as [|todo IH]; intros page jobs w kept w'; cbn [Fetcher.pageLoop].
  - intros E A. injection E as <- _. exact A.
  - destruct (makeRequestWithRetry _ w) as [[data|] w1].
    + destruct (apiJobsOf data) as [[|r l]|].
      * intros E A. injection E as <- _. exact A.
      * destruct (processPage_adds (targetOf params) (r :: l) jobs)
          as (added & E & A' & _).
        destruct (processPage (targetOf params) (r :: l) jobs) as [jobs' threw].
        cbn [fst] in E. subst jobs'.
        destruct threw.
        -- unfold Fetcher.onPageError. destruct (page =? 1)%Z; [discriminate|].
           intros E A. injection E as <- _. apply Forall_app. split; assumption.
        -- intros E A. apply (IH _ _ _ _ _ E). apply Forall_app.
           split; assumption.
      * intros E A. injection E as <- _. exact A.
    + unfold Fetcher.onPageError. destruct (page =? 1)%Z; [discriminate|].
      intros E A. injection E as <- _. exact A.
Qed.

(** X12. What a search returns is either the output of the generator, or a
    non-empty list of jobs parsed from the API, each accepted by the
    classifier for the target country; in the second case the country filter
    of the orchestration, run with the same target, returns the list
    unchanged. *)
Theorem search_returns_only_accepted_jobs params w :
  let run := searchJobs params w in
  (exists w1, run = generateFallbackJobs params w1)
  \/ (fst run <> []
      /\ Forall (fun j => inCountry (targetOf params) j = Returned true) (fst run)
      /\ filterJobsByCountry (fst run) (targetOf params) = Returned (fst run)).
Proof.
  intros run. subst run. unfold Fetcher.searchJobs.
  destruct (negb (nonEmpty apiKey)); [left; eexists; reflexivity|].
  destruct (pageLoop params _ _ 1 [] w) as [[[|j l]|] w1] eqn:L;
    [left; eexists; reflexivity | | left; eexists; reflexivity].
  right. cbn [fst].
  pose proof (pageLoop_keeps_accepted _ _ _ _ _ _ _ _ L (Forall_nil _)) as A.
  split; [discriminate|]. split.
  - eapply Forall_impl; [|exact A]. intros x. unfold acceptedBy.
    destruct (inCountry (targetOf params) x) as [[|]|e];
      [reflexivity | discriminate ..].
  - apply filterJobsByCountry_accepted. exact A.
Qed.

(** *** The synthetic jobs *)

Lemma fallbackLoop_Forall (P : ParsedJob -> Prop) params :
  (forall i w, P (fst (fallbackJob params i w))) ->
  forall todo i jobs w,
    Forall P jobs -> Forall P (fst (fallbackLoop params todo i jobs w)).
Proof.
  intros HP. induction todo as [|todo IH]; intros i jobs w H;
    cbn [Fetcher.fallbackLoop].
  - exact H.
  - pose proof (HP i w) as P1.
    destruct (fallbackJob params i w) as [job w1]. cbn in P1.
    apply IH. apply Forall_app. split; [exact H|].
    constructor; [exact P1 | constructor].
Qed.

Lemma generateFallbackJobs_Forall (P : ParsedJob -> Prop) params w :
  (forall i w, P (fst (fallbackJob params i w))) ->
  Forall P (fst (generateFallbackJobs params w)).
Proof.
  intros HP. unfold Fetcher.generateFallbackJobs, Fetcher.randomBelow.
  apply fallbackLoop_Forall; [exact HP | constructor].
Qed.

Lemma nth_mod_In (r : N) (l : list string) :
  l <> [] -> In (nth (N.to_nat (r mod N.of_nat (List.length l))) l "") l.
Proof.
  intros NE. apply nth_In.
  assert (0 < N.of_nat (List.length l))%N by (destruct l; [contradiction | cbn; lia]).
  pose proof (N.mod_upper_bound r (N.of_nat (List.length l)) ltac:(lia)) as B.
  generalize dependent (r mod N.of_nat (List.length l))%N. intros n B. lia.
Qed.

Lemma mod_range (r m : N) : (0 < m)%N -> (0 <= Z.of_N (r mod m) < Z.of_N m)%Z.
Proof.
  intros H. pose proof (N.mod_upper_bound r m ltac:(lia)) as B.
  generalize dependent (r mod m)%N. intros n B. lia.
Qed.

(** X13. Every synthetic job names one of the listed companies, locations
    and job types, asks for a minimum salary from 80000 up to 179999 and a
    maximum from 150000 up to 249999, has no city, state or country of its
    own, and carries an apply link on the placeholder domain, for which the
    labelling rule of the normalizer gives the label "Fallback Data" the job
    has. *)
Theorem synthetic_job_shape params w :
  Forall (fun j =>
            In (company j) companies
            /\ In (location j) locations
            /\ (exists t, jobType j = Value.Str t /\ In t jobTypes)
            /\ (exists lo hi, minSalary j = Value.Num lo
                              /\ maxSalary j = Value.Num hi
                              /\ (80000 <= lo < 180000)%Z
                              /\ (150000 <= hi < 250000)%Z)
            /\ city j = Value.Undefined /\ state j = Value.Undefined
            /\ country j = Value.Undefined
            /\ sourceOf (externalLink j) = Returned (source j))
         (fst (generateFallbackJobs params w)).
Proof.
  apply generateFallbackJobs_Forall. intros i w0.
  unfold Fetcher.fallbackJob, Fetcher.randomBelow, Fetcher.now.
  cbn [fst company location jobType minSalary maxSalary city state country
       externalLink source draws history ticks].
  split; [apply nth_mod_In; discriminate|].
  split; [apply nth_mod_In; discriminate|].
  split; [eexists; split; [reflexivity | apply nth_mod_In; discriminate]|].
  split.
  { do 2 eexists. split; [reflexivity|]. split; [reflexivity|].
    pose proof (mod_range (rand (S (S (S (draws w0))))) 100000 ltac:(lia)).
    pose proof (mod_range (rand (S (S (S (S (draws w0)))))) 100000 ltac:(lia)).
    lia. }
  repeat split.
Qed.

Lemma fallback_jobs_located params w :
  Forall (fun j => In (location j) locations
                   /\ city j = Value.Undefined /\ state j = Value.Undefined
                   /\ country j = Value.Undefined)
         (fst (generateFallbackJobs params w)).
Proof.
  apply generateFallbackJobs_Forall. intros i w0.
  unfold Fetcher.fallbackJob, Fetcher.randomBelow, Fetcher.now.
  cbn [fst location city state country draws history ticks].
  split; [apply nth_mod_In; discriminate | repeat split].
Qed.

Lemma fallback_verdict (target : string) (j : ParsedJob) :
  city j = Value.Undefined -> state j = Value.Undefined ->
  country j = Value.Undefined ->
  inCountry target j
  = Returned (isLocationInCountry target (location j) None None None).
Proof. intros C S K. unfold inCountry, optArg. rewrite C, S, K. reflexivity. Qed.

(** X14. The country filter of the orchestration keeps every synthetic job
    when the target is "us"; when the target is "in" it keeps exactly the
    synthetic jobs located in "Austin, TX", because the code "in" of the
    table for India occurs inside "austin". *)
Theorem synthetic_jobs_under_the_filter params w :
  let made := fst (generateFallbackJobs params w) in
  filterJobsByCountry made "us" = Returned made
  /\ filterJobsByCountry made "in"
     = Returned (filter (fun j => String.eqb (location j) "Austin, TX") made).
Proof.
  intros made.
  pose proof (fallback_jobs_located params w) as Shape. fold made in Shape.
  clearbody made. split.
  - apply filterJobsByCountry_accepted.
    eapply Forall_impl; [|exact Shape].
    intros j (HL & C & S & K).
    unfold acceptedBy. rewrite (fallback_verdict "us" j C S K).
    cbn in HL. destruct HL as [<-|[<-|[<-|[<-|[<-|[]]]]]];
      vm_compute; reflexivity.
  - induction Shape as [|j made (HL & C & S & K) _ IH];
      [reflexivity|].
    cbn [filterJobsByCountry filter]. rewrite IH.
    rewrite (fallback_verdict "in" j C S K). cbn [bindO].
    cbn in HL. destruct HL as [<-|[<-|[<-|[<-|[<-|[]]]]]];
      vm_compute; reflexivity.
Qed.

(** *** Requests *)

Lemma repeat_cons_app (x : Request) (n : nat) (l : list Request) :
  (repeat x n ++ x :: l)%list = (repeat x (S n) ++ l)%list.
Proof. induction n as [|n IH]; cbn; [reflexivity | f_equal; exact IH]. Qed.

(** X15. A retried request is sent again only after a failure and stops at
    the first answer: when the first [k] attempts fail and the next one is
    answered, the call returns that answer after exactly [k + 1] sends if [k]
    is within the retry budget, and gives up with the error after
    [maxRetries + 1] sends otherwise. *)
Theorem retry_stops_at_first_answer (req : Request) (k : nat) (data : responseData) :
  forall budget w,
    (forall n, (n < k)%nat -> server (repeat req (S n) ++ history w) = Failed) ->
    server (repeat req (S k) ++ history w) = Body data ->
    retryLoop budget req w
    = if (k <=? budget)%nat
      then (Some data,
            mkWorld (repeat req (S k) ++ history w) (draws w) (ticks w))
      else (None,
            mkWorld (repeat req (S budget) ++ history w) (draws w) (ticks w)).
Proof.
  induction k as [|k IH]; intros budget w HF HB.
  - cbn [Nat.leb]. destruct budget; cbn [Fetcher.retryLoop Fetcher.send];
      change (req :: history w) with (repeat req 1 ++ history w)%list;
      rewrite HB; reflexivity.
  - pose proof (HF 0%nat ltac:(lia) : server (req :: history w) = Failed) as F0.
    destruct budget as [|budget]; cbn [Fetcher.retryLoop Fetcher.send];
      rewrite F0; [reflexivity|].
    cbn [Nat.leb]. rewrite IH.
    + cbn [history draws ticks]. rewrite !repeat_cons_app. reflexivity.
    + intros n Hn. cbn [history]. rewrite repeat_cons_app. apply HF. lia.
    + cbn [history]. rewrite repeat_cons_app. exact HB.
Qed.

Lemma retryLoop_requests budget req :
  forall w res w',
    retryLoop budget req w = (res, w') ->
    exists k, (k <= budget)%nat
              /\ history w' = (repeat req (S k) ++ history w)%list.
Proof.
  induction budget as [|budget IH]; intros w res w';
    cbn [Fetcher.retryLoop Fetcher.send];
    destruct (server (req :: history w)) as [|data].
  - intros E. injection E as _ <-. exists 0%nat. split; [lia | reflexivity].
  - intros E. injection E as _ <-. exists 0%nat. split; [lia | reflexivity].
  - intros E. apply IH in E. destruct E as (k & Hk & Hh). cbn [history] in Hh.
    exists (S k). split; [lia|]. rewrite Hh, repeat_cons_app. reflexivity.
  - intros E. injection E as _ <-. exists 0%nat. split; [lia | reflexivity].
Qed.

Lemma pageLoop_requests params ps todo :
  forall page jobs w exit w',
    pageLoop params ps todo page jobs w = (exit, w') ->
    exists issued,
      history w' = (issued ++ history w)%list
      /\ (List.length issued <= todo * S (Z.to_nat maxRetries))%nat
      /\ Forall (pageRequestOf params ps page (page + Z.of_nat todo - 1)) issued.
Proof.
  induction todo as [|todo IH]; intros page jobs w exit w';
    cbn [Fetcher.pageLoop].
  - intros E. injection E as _ <-. exists []. repeat split; constructor.
  - unfold Fetcher.makeRequestWithRetry.
    destruct (retryLoop (Z.to_nat maxRetries) (requestParams params ps page) w)
      as [res w1] eqn:R.
    destruct (retryLoop_requests _ _ _ _ _ R) as (k & Hk & Hh).
    assert (Mine : Forall (pageRequestOf params ps page
                             (page + Z.of_nat (S todo) - 1))
                          (repeat (requestParams params ps page) (S k))).
    { apply Forall_forall. intros r Hr. apply repeat_spec in Hr. subst r.
      exists page. split; [lia | reflexivity]. }
    assert (Stop : forall x, (x, w1) = (exit, w') ->
              exists issued,
                history w' = (issued ++ history w)%list
                /\ (List.length issued <= S todo * S (Z.to_nat maxRetries))%nat
                /\ Forall (pageRequestOf params ps page
                             (page + Z.of_nat (S todo) - 1)) issued).
    { intros x E. injection E as _ <-.
      exists (repeat (requestParams params ps page) (S k)).
      split; [exact Hh|]. split; [rewrite repeat_length; nia | exact Mine]. }
    destruct res as [data|]; [|apply Stop].
    destruct (apiJobsOf data) as [[|j l]|]; [apply Stop| |apply Stop].
    destruct (processPage (targetOf params) (j :: l) jobs) as [jobs' threw].
    destruct threw; [apply Stop|].
    intros E. apply IH in E. destruct E as (issued & Hh2 & Hlen & Hall).
    exists (issued ++ repeat (requestParams params ps page) (S k))%list.
    split; [rewrite Hh2, Hh, app_assoc; reflexivity|]. split.
    + rewrite length_app, repeat_length. nia.
    + apply Forall_app. split; [|exact Mine].
      eapply Forall_impl; [|exact Hall].
      intros r (pg & Hpg & ->). exists pg. split; [lia | reflexivity].
Qed.

(** X16. A search sends no request without an API key, and otherwise at
    most [numPages] times [maxRetries + 1] requests; each one asks the
    [search] parameters of the call for a single page whose number lies
    between 1 and [numPages]. *)
Theorem search_request_budget params w :
  let pages := numberOr (numPages params) 5 in
  let ps := numberOr (pageSize params) 50 in
  exists issued,
    history (snd (searchJobs params w)) = (issued ++ history w)%list
    /\ (List.length issued <= Z.to_nat pages * S (Z.to_nat maxRetries))%nat
    /\ Forall (fun r => exists page, (1 <= page <= pages)%Z
                                     /\ r = requestParams params ps page) issued
    /\ (nonEmpty apiKey = false -> issued = []).
Proof.
  intros pages ps. unfold Fetcher.searchJobs. fold pages ps.
  destruct (nonEmpty apiKey) eqn:K; cbn [negb].
  - destruct (pageLoop params ps (Z.to_nat pages) 1 [] w) as [exit w1] eqn:L.
    destruct (pageLoop_requests _ _ _ _ _ _ _ _ L) as (issued & Hh & Hlen & Hall).
    exists issued. split; [|split; [exact Hlen|split; [|discriminate]]].
    + destruct exit as [[|j l]|];
        rewrite ?(FetcherFacts.generateFallbackJobs_history rand clock); exact Hh.
    + eapply Forall_impl; [|exact Hall].
      intros r (pg & Hpg & ->). exists pg. split; [lia | reflexivity].
  - exists []. rewrite (FetcherFacts.generateFallbackJobs_history rand clock).
    split; [reflexivity|]. split; [cbn; lia|]. split; [constructor | reflexivity].
Qed.

End Service.
(** Two failures, then an answer, with three retries allowed: three sends. *)
Lemma retry_stops_at_first_answer_witness :
  let req := requestParams (usParams 1) 50 1 in
  Fetcher.retryLoop (failThenServe 2 [austinJob "a1"]) 3 req newWorld
  = (Some (DataArray [austinJob "a1"]), mkWorld [req; req; req] 0 0).
Proof.
  intros req.
  apply (retry_stops_at_first_answer (failThenServe 2 [austinJob "a1"])
           req 2 (DataArray [austinJob "a1"]) 3 newWorld).
  - intros n Hn. destruct n as [|[|n]]; [reflexivity | reflexivity | lia].
  - reflexivity.
Defined.

(** Without a key nothing is sent. *)
Lemma search_request_budget_witness :
  history (snd (Fetcher.searchJobs "" 3 alwaysFail zeros (clockFrom 0)
                                   (usParams 4) newWorld)) = [].
Proof.
  destruct (search_request_budget "" 3 alwaysFail zeros (clockFrom 0)
              (usParams 4) newWorld) as (issued & Hh & _ & _ & Hnone).
  rewrite Hh, (Hnone eq_refl). reflexivity.
Defined.


End FetcherMore.

(** ** Persistence and orchestration beyond the claims *)

Module AdminMore.

Import Js JsFacts Admin Reports Doubles AdminFacts.

Lemma value_eqb_eq (a b : Value.t) : Value.eqb a b = true -> a = b.
Proof.
  destruct a as [| |x|x|x], b as [| |y|y|y]; cbn; try discriminate;
    try reflexivity; intros H.
  - apply Bool.eqb_prop in H. congruence.
  - apply Z.eqb_eq in H. congruence.
  - apply String.eqb_eq in H. congruence.
Qed.

(** Two identities matched by one document are the same identity. *)
Lemma matches_same_doc (k k' : JobIdentifier) (d : JobDoc) :
  matchesIdentifier k d = true -> matchesIdentifier k' d = true -> k = k'.
Proof.
  unfold matchesIdentifier. intros H H'.
  apply andb_true_iff in H. destruct H as [H L].
  apply andb_true_iff in H. destruct H as [T C].
  apply andb_true_iff in H'. destruct H' as [H' L'].
  apply andb_true_iff in H'. destruct H' as [T' C'].
  apply value_eqb_eq in T, T'. apply Nat.eqb_eq in C, C'.
  apply String.eqb_eq in L, L'.
  destruct k, k'. cbn in *. congruence.
Qed.

Lemma find_existsb {A} (f : A -> bool) (l : list A) :
  existsb f l = true <-> find f l <> None.
Proof.
  induction l as [|a l IH]; cbn.
  - split; [discriminate | intros H; contradiction].
  - destruct (f a); [split; [discriminate | reflexivity] | exact IH].
Qed.

Lemma wellFormed_ids (db : Store) :
  wellFormed db
  <-> NoDup (map j_id (jobs db))
      /\ Forall (fun i => (i < nextJobId db)%nat) (map j_id (jobs db)).
Proof. unfold wellFormed. rewrite Forall_map. reflexivity. Qed.

Section Saving.

Variable clock : nat -> Z.

Abbreviation saveJob := (Admin.saveJob clock).
Abbreviation saveLoop := (Admin.saveLoop clock).
Abbreviation saveJobsToDatabase := (Admin.saveJobsToDatabase clock).

(** The two ways one round of the save ends. *)
Lemma saveJob_cases jobData bucket sid acc db w :
  exists company db0,
    resolveCompany (i_company jobData) db = (company, db0)
    /\ ((findJob (jobIdentifier jobData company) db0 = None
         /\ saveJob jobData bucket sid acc db w
            = (mkSaveResult (S (newCount acc)) (updatedCount acc),
               mkStore (companies db0)
                       (jobs db0 ++ [newJobDoc (nextJobId db0) jobData company
                                               bucket sid (clock (ticks w))
                                               (clock (S (ticks w)))])
                       (nextCompanyId db0) (S (nextJobId db0)),
               mkWorld (history w) (draws w) (S (S (ticks w)))))
        \/ (exists existing,
               findJob (jobIdentifier jobData company) db0 = Some existing
               /\ saveJob jobData bucket sid acc db w
                  = (mkSaveResult (newCount acc) (S (updatedCount acc)),
                     mkStore (companies db0)
                             (updateById (j_id existing)
                                (updatePatch jobData company bucket sid
                                             (clock (ticks w)))
                                (jobs db0))
                             (nextCompanyId db0) (nextJobId db0),
                     mkWorld (history w) (draws w) (S (ticks w))))).
Proof.
  destruct (resolveCompany (i_company jobData) db) as [company db0] eqn:R.
  exists company, db0. split; [reflexivity|].
  destruct (findJob (jobIdentifier jobData company) db0) as [e|] eqn:F.
  - right. exists e. split; [reflexivity|].
    apply (saveJob_update clock _ _ _ _ _ _ _ _ _ R F).
  - left. split; [reflexivity|].
    apply (saveJob_insert clock _ _ _ _ _ _ _ _ R F).
Qed.

(** What one round does to the counters, the identifiers and the
    invariant of the store. *)
Lemma saveJob_step jobData bucket sid acc db w :
  let saved := saveJob jobData bucket sid acc db w in
  let acc' := fst (fst saved) in
  let db' := snd (fst saved) in
  (newCount acc' + updatedCount acc' = S (newCount acc + updatedCount acc))%nat
  /\ (exists fresh,
        map j_id (jobs db') = (map j_id (jobs db) ++ fresh)%list
        /\ (newCount acc' = newCount acc + List.length fresh)%nat
        /\ updatedCount acc' = (updatedCount acc + (1 - List.length fresh))%nat)
  /\ (wellFormed db -> wellFormed db').
Proof.
  intros saved acc' db'. subst acc' db' saved.
  destruct (saveJob_cases jobData bucket sid acc db w)
    as (company & db0 & R & [[F ->]|(e & F & ->)]);
    destruct (resolveCompany_stable _ _ _ _ R) as (Hjobs & Hnext & _);
    cbn [fst snd jobs newCount updatedCount nextJobId].
  - split; [lia|]. split.
    + exists [nextJobId db0]. rewrite map_app, Hjobs. cbn. split; [reflexivity|lia].
    + rewrite !wellFormed_ids. cbn [jobs nextJobId].
      rewrite map_app, Hjobs, Hnext. cbn [map newJobDoc j_id].
      intros [ND LT]. split.
      * apply NoDup_app; [exact ND | repeat constructor; intros [] |].
        intros i Hi [<-|[]]. rewrite Forall_forall in LT.
        specialize (LT _ Hi). lia.
      * apply Forall_app. split.
        -- eapply Forall_impl; [|exact LT]. cbn. intros; lia.
        -- repeat constructor.
  - split; [lia|]. split.
    + exists []. rewrite app_nil_r, updateById_ids, Hjobs by reflexivity.
      cbn. split; [reflexivity | split; lia].
    + rewrite !wellFormed_ids. cbn [jobs nextJobId].
      rewrite updateById_ids, Hjobs, Hnext by reflexivity. trivial.
Qed.

Lemma saveLoop_growth (todo : list JobInput) (bucket sid : string) :
  forall acc db w,
    let saved := saveLoop todo bucket sid acc db w in
    let res := fst (fst saved) in
    let db' := snd (fst saved) in
    (newCount res + updatedCount res
     = newCount acc + updatedCount acc + List.length todo)%nat
    /\ (exists fresh,
          map j_id (jobs db') = (map j_id (jobs db) ++ fresh)%list
          /\ (newCount res = newCount acc + List.length fresh)%nat)
    /\ (wellFormed db -> wellFormed db').
Proof.
  induction todo as [|j more IH]; intros acc db w; cbn [Admin.saveLoop].
  - cbn. split; [lia|]. split; [|trivial].
    exists []. rewrite app_nil_r. split; [reflexivity | cbn; lia].
  - pose proof (saveJob_step j bucket sid acc db w) as Step.
    destruct (saveJob j bucket sid acc db w) as [[acc1 db1] w1].
    cbn [fst snd] in Step. destruct Step as (C1 & (f1 & I1 & N1 & _) & W1).
    specialize (IH acc1 db1 w1). cbn zeta in IH |- *.
    destruct IH as (C2 & (f2 & I2 & N2) & W2).
    split; [cbn [List.length]; lia|]. split; [|tauto].
    exists (f1 ++ f2)%list. rewrite I2, I1, <- app_assoc, length_app.
    split; [reflexivity | lia].
Qed.

(** X17. A save of a list of jobs counts every job once, as new or as
    updated; it appends one document per new job, with identifiers the store
    did not have, and removes or renumbers none; and it keeps the identifiers
    of the store unique. *)
Theorem save_counts_and_growth (todo : list JobInput) (bucket sid : string) :
  forall db w,
    let saved := saveJobsToDatabase todo bucket sid db w in
    let res := fst (fst saved) in
    let db' := snd (fst saved) in
    (newCount res + updatedCount res = List.length todo)%nat
    /\ (exists fresh,
          map j_id (jobs db') = (map j_id (jobs db) ++ fresh)%list
          /\ List.length fresh = newCount res)
    /\ (wellFormed db -> wellFormed db').
Proof.
  unfold Admin.saveJobsToDatabase. intros db w.
  pose proof (saveLoop_growth todo bucket sid (mkSaveResult 0 0) db w) as G.
  cbn zeta in G |- *.
  destruct G as (C & (fresh & I & N) & W). cbn in C, N.
  split; [exact C|]. split; [|exact W].
  exists fresh. split; [exact I | lia].
Qed.

(** *** Companies *)

Lemma resolveCompany_companies (name : string) (db db0 : Store) (c : CompanyDoc) :
  resolveCompany name db = (c, db0) ->
  (findCompany name db = Some c /\ db0 = db)
  \/ (findCompany name db = None
      /\ companies db0 = (companies db ++ [c])%list
      /\ c_name c = name).
Proof.
  unfold resolveCompany, createCompany.
  destruct (findCompany name db) as [c'|]; intros E; injection E as <- <-.
  - left. split; reflexivity.
  - right. repeat split.
Qed.

Lemma findCompany_name (name : string) (db : Store) (c : CompanyDoc) :
  findCompany name db = Some c -> c_name c = name.
Proof.
  unfold findCompany. intros H. apply find_some in H.
  apply String.eqb_eq. tauto.
Qed.

Lemma findCompany_grows (name : string) (db db' : Store) (c : CompanyDoc)
      (extra : list CompanyDoc) :
  companies db' = (companies db ++ extra)%list ->
  findCompany name db = Some c -> findCompany name db' = Some c.
Proof.
  unfold findCompany. intros -> H.
  induction (companies db) as [|x l IH]; cbn in *; [discriminate|].
  destruct (String.eqb (c_name x) name); [exact H | apply IH; exact H].
Qed.

(** What one round does to the companies. *)
Lemma saveJob_companies jobData bucket sid acc db w :
  let db' := snd (fst (saveJob jobData bucket sid acc db w)) in
  exists extra,
    companies db' = (companies db ++ extra)%list
    /\ (List.length extra <= 1)%nat
    /\ Forall (fun c => c_name c = i_company jobData
                        /\ findCompany (i_company jobData) db = None) extra
    /\ find (fun c => String.eqb (c_name c) (i_company jobData)) (companies db')
       <> None.
Proof.
  intros db'. subst db'.
  assert (G : exists company db0,
             resolveCompany (i_company jobData) db = (company, db0)
             /\ companies (snd (fst (saveJob jobData bucket sid acc db w)))
                = companies db0).
  { destruct (saveJob_cases jobData bucket sid acc db w)
      as (company & db0 & R & [[F ->]|(e & F & ->)]);
      exists company, db0; split; try exact R; reflexivity. }
  destruct G as (company & db0 & R & ->).
  destruct (resolveCompany_stable _ _ _ _ R) as (_ & _ & Found).
  assert (NN : find (fun c => String.eqb (c_name c) (i_company jobData))
                    (companies db0) <> None)
    by (unfold findCompany in Found; rewrite Found; discriminate).
  destruct (resolveCompany_companies _ _ _ _ R) as [[FC ->]|(FC & E & Nm)].
  - exists []. rewrite app_nil_r. split; [reflexivity|].
    split; [cbn; lia|]. split; [constructor | exact NN].
  - exists [company]. split; [exact E|]. split; [cbn; lia|].
    split; [|exact NN]. constructor; [split; assumption | constructor].
Qed.

(** X18. A save never removes or renames a company and creates at most one
    company per job, only under a name the store did not have: company names
    that were unique stay unique, and after the save every saved job finds
    its company. *)
Theorem save_keeps_companies_unique (todo : list JobInput) (bucket sid : string) :
  forall db w,
    let db' := snd (fst (saveJobsToDatabase todo bucket sid db w)) in
    (exists extra,
        companies db' = (companies db ++ extra)%list
        /\ (List.length extra <= List.length todo)%nat)
    /\ (companyNamesUnique db -> companyNamesUnique db')
    /\ Forall (fun j => findCompany (i_company j) db' <> None) todo.
Proof.
  unfold Admin.saveJobsToDatabase. generalize (mkSaveResult 0 0).
  induction todo as [|j more IH]; intros acc db w; cbn [Admin.saveLoop].
  - cbn. split; [|split; [trivial | constructor]].
    exists []. rewrite app_nil_r. split; [reflexivity | cbn; lia].
  - pose proof (saveJob_companies j bucket sid acc db w) as Step.
    destruct (saveJob j bucket sid acc db w) as [[acc1 db1] w1].
    cbn [fst snd] in Step. destruct Step as (e1 & E1 & L1 & N1 & F1).
    specialize (IH acc1 db1 w1). cbn zeta in IH |- *.
    destruct IH as ((e2 & E2 & L2) & U2 & F2).
    split; [|split].
    + exists (e1 ++ e2)%list. rewrite E2, E1, <- app_assoc, length_app.
      split; [reflexivity | cbn [List.length]; lia].
    + intros U. apply U2. unfold companyNamesUnique in *.
      rewrite E1, map_app. destruct e1 as [|c [|c' e1]]; cbn in L1; try lia.
      * rewrite app_nil_r. exact U.
      * apply NoDup_app; [exact U | repeat constructor; intros [] |].
        intros n Hn [<-|[]]. inversion N1 as [|? ? [Nm Nf] _]; subst.
        apply in_map_iff in Hn. destruct Hn as (x & Hx & Hin).
        unfold findCompany in Nf.
        pose proof (find_none _ _ Nf x Hin) as Hno. cbn in Hno.
        rewrite Hx, Nm, String.eqb_refl in Hno. discriminate.
    + constructor; [|exact F2].
      fold (findCompany (i_company j) db1) in F1.
      destruct (findCompany (i_company j) db1) as [c|] eqn:Fc; [|contradiction].
      rewrite (findCompany_grows _ db1 _ c e2 E2 Fc). discriminate.
Qed.

(** *** Saving a batch again *)

Lemma existsb_updateById (k : JobIdentifier) (l before after : list JobDoc)
      (e : JobDoc) (patch : JobDoc -> JobDoc) (k' : JobIdentifier) :
  l = (before ++ e :: after)%list ->
  matchesIdentifier k e = true ->
  matchesIdentifier k (patch e) = true ->
  existsb (matchesIdentifier k') l = true ->
  existsb (matchesIdentifier k') (before ++ patch e :: after) = true.
Proof.
  intros -> Me Mp. rewrite !existsb_app. cbn [existsb].
  destruct (existsb (matchesIdentifier k') before); [reflexivity|].
  destruct (existsb (matchesIdentifier k') after); [intros _; apply orb_true_r|].
  cbn. rewrite !orb_false_r. intros M'.
  rewrite (matches_same_doc k' k e M' Me). exact Mp.
Qed.

(** One round keeps what is stored and stores its own job. *)
Lemma saveJob_stores jobData bucket sid acc db w :
  wellFormed db ->
  let db' := snd (fst (saveJob jobData bucket sid acc db w)) in
  stored jobData db'
  /\ (forall other, stored other db -> stored other db').
Proof.
  intros [ND _] db'. subst db'.
  pose proof (saveJob_companies jobData bucket sid acc db w) as Comp.
  destruct (saveJob_cases jobData bucket sid acc db w)
    as (company & db0 & R & [[F E]|(e & F & E)]);
    rewrite E in Comp |- *; cbn [fst snd] in *;
    destruct Comp as (extra & Ex & _ & _ & _); cbn [companies] in Ex;
    destruct (resolveCompany_stable _ _ _ _ R) as (Hjobs & _ & Found).
  - split.
    + exists company. split; [exact Found|]. cbn [jobs].
      rewrite existsb_app. cbn. rewrite matches_newJobDoc. apply orb_true_r.
    + intros other (c & Fc & M). exists c. split.
      * eapply findCompany_grows; [|exact Fc]. cbn [companies]. exact Ex.
      * cbn [jobs]. rewrite existsb_app, Hjobs, M. reflexivity.
  - pose proof (find_some _ _ F) as [He Me]. rewrite Hjobs in He.
    destruct (updateById_split
                (updatePatch jobData company bucket sid (clock (ticks w)))
                _ _ ND He) as (before & after & E1 & E2).
    split.
    + exists company. split; [exact Found|]. cbn [jobs]. rewrite Hjobs, E2.
      rewrite existsb_app. cbn. rewrite matches_updatePatch.
      rewrite orb_true_l. apply orb_true_r.
    + intros other (c & Fc & M). exists c. split.
      * eapply findCompany_grows; [|exact Fc]. cbn [companies]. exact Ex.
      * cbn [jobs]. rewrite Hjobs, E2.
        eapply existsb_updateById; [exact E1 | exact Me | | exact M].
        apply matches_updatePatch.
Qed.

(** A round for a job that is stored is an update: nothing is created. *)
Lemma saveJob_of_stored jobData bucket sid acc db w :
  stored jobData db ->
  let saved := saveJob jobData bucket sid acc db w in
  newCount (fst (fst saved)) = newCount acc
  /\ updatedCount (fst (fst saved)) = S (updatedCount acc)
  /\ map j_id (jobs (snd (fst saved))) = map j_id (jobs db)
  /\ companies (snd (fst saved)) = companies db.
Proof.
  intros (c & Fc & M) saved. subst saved.
  pose proof (resolveCompany_found _ _ _ Fc) as R.
  apply find_existsb in M.
  destruct (findJob (jobIdentifier jobData c) db) as [e|] eqn:F;
    [|exfalso; apply M; exact F].
  rewrite (saveJob_update clock _ _ _ _ _ _ _ _ _ R F).
  cbn [fst snd newCount updatedCount jobs companies].
  repeat split. apply updateById_ids. reflexivity.
Qed.

Lemma saveLoop_stores (todo : list JobInput) (bucket sid : string) :
  forall acc db w (before : list JobInput),
    wellFormed db ->
    Forall (fun j => stored j db) before ->
    let db' := snd (fst (saveLoop todo bucket sid acc db w)) in
    wellFormed db' /\ Forall (fun j => stored j db') (before ++ todo).
Proof.
  induction todo as [|j more IH]; intros acc db w before W B;
    cbn [Admin.saveLoop].
  - cbn. rewrite app_nil_r. split; assumption.
  - pose proof (saveJob_stores j bucket sid acc db w W) as [Self Others].
    pose proof (saveJob_step j bucket sid acc db w) as (_ & _ & W1).
    destruct (saveJob j bucket sid acc db w) as [[acc1 db1] w1].
    cbn [fst snd] in *.
    specialize (IH acc1 db1 w1 (before ++ [j])%list (W1 W)).
    rewrite <- app_assoc in IH. apply IH.
    apply Forall_app. split; [|repeat constructor; exact Self].
    eapply Forall_impl; [|exact B]. intros x. apply Others.
Qed.

Lemma saveLoop_of_stored (todo : list JobInput) (bucket sid : string) :
  forall acc db w,
    wellFormed db ->
    Forall (fun j => stored j db) todo ->
    let saved := saveLoop todo bucket sid acc db w in
    newCount (fst (fst saved)) = newCount acc
    /\ updatedCount (fst (fst saved)) = (updatedCount acc + List.length todo)%nat
    /\ map j_id (jobs (snd (fst saved))) = map j_id (jobs db)
    /\ companies (snd (fst saved)) = companies db.
Proof.
  induction todo as [|j more IH]; intros acc db w W A; cbn [Admin.saveLoop].
  - cbn. repeat split. lia.
  - inversion A as [|? ? Sj Smore]; subst.
    pose proof (saveJob_of_stored j bucket sid acc db w Sj) as (N1 & U1 & I1 & C1).
    pose proof (saveJob_stores j bucket sid acc db w W) as [_ Others].
    pose proof (saveJob_step j bucket sid acc db w) as (_ & _ & W1).
    destruct (saveJob j bucket sid acc db w) as [[acc1 db1] w1].
    cbn [fst snd] in *.
    destruct (IH acc1 db1 w1 (W1 W)) as (N2 & U2 & I2 & C2).
    { eapply Forall_impl; [|exact Smore]. intros x. apply Others. }
    cbn zeta. rewrite N2, U2, I2, C2, N1, U1, I1, C1.
    repeat split. cbn [List.length]. lia.
Qed.

(** X19. Saving a batch a second time creates nothing: in a store with
    unique identifiers, after a first save of a list of jobs, a second save
    of the same list, under any bucket and session, counts no new record and
    one update per job, and leaves the identifiers of the jobs and the
    companies as they are. *)
Theorem second_save_only_updates
        (todo : list JobInput) (bucket1 sid1 bucket2 sid2 : string) db w :
  wellFormed db ->
  let first := saveJobsToDatabase todo bucket1 sid1 db w in
  let second := saveJobsToDatabase todo bucket2 sid2
                                   (snd (fst first)) (snd first) in
  newCount (fst (fst second)) = 0%nat
  /\ updatedCount (fst (fst second)) = List.length todo
  /\ map j_id (jobs (snd (fst second))) = map j_id (jobs (snd (fst first)))
  /\ companies (snd (fst second)) = companies (snd (fst first)).
Proof.
  intros W first second. subst second first. unfold Admin.saveJobsToDatabase.
  destruct (saveLoop_stores todo bucket1 sid1 (mkSaveResult 0 0) db w [] W
              (Forall_nil _)) as [W1 S1].
  cbn [app] in S1.
  destruct (saveLoop todo bucket1 sid1 (mkSaveResult 0 0) db w) as [[r1 db1] w1].
  cbn [fst snd] in *.
  apply (saveLoop_of_stored todo bucket2 sid2 (mkSaveResult 0 0) db1 w1 W1 S1).
Qed.

(** *** The reports after a save *)

Lemma filter_updateById_ids (p : JobDoc -> bool) (id : nat)
      (patch : JobDoc -> JobDoc) (l : list JobDoc) :
  (forall d, p (patch d) = p d) ->
  (forall d, j_id (patch d) = j_id d) ->
  map j_id (filter p (updateById id patch l)) = map j_id (filter p l).
Proof.
  intros Hp Hi. induction l as [|d l IH]; cbn; [reflexivity|].
  destruct (j_id d =? id)%nat; cbn [filter].
  - rewrite Hp. destruct (p d); cbn [map]; [rewrite Hi|]; reflexivity.
  - destruct (p d); cbn [map]; rewrite IH; reflexivity.
Qed.

Lemma filter_updateById_grows (p : JobDoc -> bool) (id : nat)
      (patch : JobDoc -> JobDoc) (l : list JobDoc) :
  (forall d, p (patch d) = true) ->
  (List.length (filter p l) <= List.length (filter p (updateById id patch l)))%nat.
Proof.
  intros Hp. induction l as [|d l IH]; cbn; [lia|].
  destruct (j_id d =? id)%nat; cbn [filter].
  - rewrite Hp. destruct (p d); cbn; lia.
  - destruct (p d); cbn; lia.
Qed.

(** What one round does to the documents of a status and of the session. *)
Lemma saveJob_reports jobData bucket sid acc db w (st : string) :
  let saved := saveJob jobData bucket sid acc db w in
  let acc' := fst (fst saved) in
  let db' := snd (fst saved) in
  let ids x := map j_id (filter (hasStatus st) (jobs x)) in
  (exists fresh,
      ids db' = (ids db ++ (if String.eqb "published" st then fresh else []))%list
      /\ (newCount acc' = newCount acc + List.length fresh)%nat)
  /\ (countJobsBySession sid db + (newCount acc' - newCount acc)
      <= countJobsBySession sid db')%nat.
Proof.
  intros saved acc' db' ids. subst acc' db' saved ids.
  destruct (saveJob_cases jobData bucket sid acc db w)
    as (company & db0 & R & [[F ->]|(e & F & ->)]);
    destruct (resolveCompany_stable _ _ _ _ R) as (Hjobs & Hnext & _);
    cbn [fst snd jobs newCount]; unfold countJobsBySession; cbn [jobs];
    rewrite Hjobs.
  - split.
    + exists [nextJobId db0]. rewrite filter_app, map_app. cbn [filter].
      unfold hasStatus at 2. cbn [newJobDoc j_status j_id].
      destruct (String.eqb "published" st); cbn; [|rewrite app_nil_r];
        split; try reflexivity; lia.
    + rewrite filter_app, length_app. cbn [filter newJobDoc j_sessionId].
      rewrite String.eqb_refl. cbn [List.length]. lia.
  - split.
    + exists []. rewrite filter_updateById_ids by reflexivity.
      destruct (String.eqb "published" st); rewrite app_nil_r;
        split; try reflexivity; cbn; lia.
    + pose proof (filter_updateById_grows
                    (fun d => String.eqb (j_sessionId d) sid) (j_id e)
                    (updatePatch jobData company bucket sid (clock (ticks w)))
                    (jobs db)) as G.
      cbn [updatePatch j_sessionId] in G.
      specialize (G (fun _ => String.eqb_refl sid)). lia.
Qed.

Lemma saveLoop_reports (todo : list JobInput) (bucket sid st : string) :
  forall acc db w,
    let saved := saveLoop todo bucket sid acc db w in
    let acc' := fst (fst saved) in
    let db' := snd (fst saved) in
    let ids x := map j_id (filter (hasStatus st) (jobs x)) in
    (exists fresh,
        ids db' = (ids db ++ (if String.eqb "published" st then fresh else []))%list
        /\ (newCount acc' = newCount acc + List.length fresh)%nat)
    /\ (countJobsBySession sid db + (newCount acc' - newCount acc)
        <= countJobsBySession sid db')%nat.
Proof.
  induction todo as [|j more IH]; intros acc db w; cbn [Admin.saveLoop].
  - cbn [fst snd]. split; [|lia].
    exists []. destruct (String.eqb "published" st); rewrite app_nil_r;
      split; try reflexivity; cbn; lia.
  - pose proof (saveJob_reports j bucket sid acc db w st) as Step.
    destruct (saveJob j bucket sid acc db w) as [[acc1 db1] w1].
    cbn [fst snd] in Step. destruct Step as ((f1 & I1 & N1) & S1).
    specialize (IH acc1 db1 w1). cbn zeta in IH |- *.
    destruct IH as ((f2 & I2 & N2) & S2).
    split; [|lia].
    exists (f1 ++ f2)%list. rewrite I2, I1, length_app.
    destruct (String.eqb "published" st); rewrite <- app_assoc;
      split; try reflexivity; lia.
Qed.

(** X20. A save leaves the moderation queue and the drafts alone: the jobs
    pending approval are the same documents by identifier before and after,
    the count of drafts is unchanged, and the total and the count of
    published jobs of the report both grow by the number of new records. *)
Theorem save_and_the_reports (todo : list JobInput) (bucket sid : string) db w :
  let saved := saveJobsToDatabase todo bucket sid db w in
  let added := newCount (fst (fst saved)) in
  let db' := snd (fst saved) in
  map j_id (listPendingJobs db') = map j_id (listPendingJobs db)
  /\ totalJobs (revenueReport db') = (totalJobs (revenueReport db) + added)%nat
  /\ published (revenueReport db') = (published (revenueReport db) + added)%nat
  /\ draft (revenueReport db') = draft (revenueReport db).
Proof.
  intros saved added db'. subst added db' saved.
  unfold Admin.saveJobsToDatabase, listPendingJobs, revenueReport.
  cbn [totalJobs published draft].
  pose proof (saveLoop_reports todo bucket sid "pending" (mkSaveResult 0 0) db w)
    as ((fp & Ip & _) & _).
  pose proof (saveLoop_reports todo bucket sid "published" (mkSaveResult 0 0) db w)
    as ((fu & Iu & Nu) & _).
  pose proof (saveLoop_reports todo bucket sid "draft" (mkSaveResult 0 0) db w)
    as ((fd & Id & _) & _).
  pose proof (saveLoop_growth todo bucket sid (mkSaveResult 0 0) db w)
    as (_ & (fresh & If & Nf) & _).
  destruct (saveLoop todo bucket sid (mkSaveResult 0 0) db w) as [[res db1] w1].
  cbn [fst snd newCount] in *.
  change (String.eqb "published" "pending") with false in Ip.
  change (String.eqb "published" "draft") with false in Id.
  change (String.eqb "published" "published") with true in Iu.
  rewrite app_nil_r in Ip, Id.
  split; [exact Ip|]. split; [|split].
  - apply (f_equal (@List.length nat)) in If.
    rewrite length_app, !length_map in If. lia.
  - apply (f_equal (@List.length nat)) in Iu.
    rewrite length_app, !length_map in Iu. lia.
  - apply (f_equal (@List.length nat)) in Id.
    rewrite !length_map in Id. exact Id.
Qed.

(** X21. The count that the verification takes after a run never falls
    short of the new records: after a save under a session, the jobs stamped
    with that session are at least as many more as the save counted new
    records. *)
Theorem session_count_covers_new_records
        (todo : list JobInput) (bucket sid : string) db w :
  let saved := saveJobsToDatabase todo bucket sid db w in
  (countJobsBySession sid db + newCount (fst (fst saved))
   <= countJobsBySession sid (snd (fst saved)))%nat.
Proof.
  intros saved. subst saved. unfold Admin.saveJobsToDatabase.
  pose proof (saveLoop_reports todo bucket sid "" (mkSaveResult 0 0) db w)
    as (_ & S).
  cbn [newCount] in S. lia.
Qed.

End Saving.

(** A job saved into an empty store creates its company once; saving the
    same batch again creates nothing. *)
Lemma save_keeps_companies_unique_witness :
  let db' := snd (fst (Admin.saveJobsToDatabase (clockFrom 0)
                         [sampleInput "x"; sampleInput "y"] "b" "s"
                         emptyStore newWorld)) in
  companyNamesUnique db' /\ map c_name (companies db') = ["Initech"].
Proof.
  intros db'.
  destruct (save_keeps_companies_unique (clockFrom 0)
              [sampleInput "x"; sampleInput "y"] "b" "s" emptyStore newWorld)
    as (_ & U & _).
  split; [apply U; constructor | vm_compute; reflexivity].
Defined.

Lemma second_save_only_updates_witness :
  let first := Admin.saveJobsToDatabase (clockFrom 0)
                 [sampleInput "x"; sampleInput "y"] "b" "s1"
                 emptyStore newWorld in
  let second := Admin.saveJobsToDatabase (clockFrom 0)
                  [sampleInput "x"; sampleInput "y"] "b" "s2"
                  (snd (fst first)) (snd first) in
  fst (fst first) = mkSaveResult 1 1 /\ fst (fst second) = mkSaveResult 0 2.
Proof.
  intros first second.
  destruct (second_save_only_updates (clockFrom 0)
              [sampleInput "x"; sampleInput "y"] "b" "s1" "b" "s2"
              emptyStore newWorld (conj (NoDup_nil _) (Forall_nil _)))
    as (N & U & _).
  fold first in N, U. fold second in N, U.
  split; [vm_compute; reflexivity|].
  destruct (fst (fst second)) as [n u]. cbn in N, U. subst. reflexivity.
Defined.

Section Orchestrating.

Variable clock : nat -> Z.
Variable searchJobs :
  JobSearchParams -> World -> outcome (list ParsedJob) * World.

Abbreviation scrapeBucket := (Admin.scrapeBucket clock searchJobs).
Abbreviation scrapeBuckets := (Admin.scrapeBuckets clock searchJobs).
Abbreviation scrapeInBackground := (Admin.scrapeInBackground clock searchJobs).

Lemma transformJobs_length (l : list ParsedJob) :
  forall w, List.length (fst (transformJobs clock l w)) = List.length l.
Proof.
  induction l as [|j l IH]; intros w; cbn [transformJobs]; [reflexivity|].
  destruct (transformJob clock j w) as [x w1].
  specialize (IH w1). destruct (transformJobs clock l w1) as [xs w2].
  cbn in *. rewrite IH. reflexivity.
Qed.

Lemma accounted_refl sid p db : accounted sid p db p db.
Proof. constructor; try lia. trivial. Qed.

Lemma accounted_trans sid p1 db1 p2 db2 p3 db3 :
  accounted sid p1 db1 p2 db2 ->
  accounted sid p2 db2 p3 db3 ->
  accounted sid p1 db1 p3 db3.
Proof. intros [] []. constructor; try lia. tauto. Qed.

Lemma scrapeBucket_accounted req mapped sid bucket p db w :
  let r := scrapeBucket req mapped sid bucket p db w in
  p_totalApiCalls (fst (fst r)) = S (p_totalApiCalls p)
  /\ accounted sid p db (fst (fst r)) (snd (fst r)).
Proof.
  intros r. subst r. unfold Admin.scrapeBucket.
  destruct (searchJobs _ w) as [[found|e] w1];
    [|split; [reflexivity | constructor; cbn; try lia; trivial]].
  destruct found as [|j l];
    [split; [reflexivity | constructor; cbn; try lia; trivial]|].
  destruct (if filterIndianJobs req
            then filterJobsByCountry (j :: l) mapped
            else Returned (j :: l)) as [kept|e] eqn:Filt.
  - assert (Len : (List.length kept <= List.length (j :: l))%nat).
    { destruct (filterIndianJobs req).
      - rewrite (FetcherMore.filterJobsByCountry_filter _ _ _ Filt).
        apply filter_length_le.
      - injection Filt as <-. lia. }
    pose proof (transformJobs_length kept w1) as TL.
    destruct (transformJobs clock kept w1) as [inputs w2]. cbn [fst] in TL.
    unfold Admin.saveJobsToDatabase.
    pose proof (saveLoop_growth clock inputs bucket sid (mkSaveResult 0 0) db w2)
      as (C & (fresh & I & N) & W).
    pose proof (saveLoop_reports clock inputs bucket sid "" (mkSaveResult 0 0) db w2)
      as (_ & S).
    destruct (Admin.saveLoop clock inputs bucket sid (mkSaveResult 0 0) db w2)
      as [[res db2] w3].
    cbn [fst snd newCount updatedCount] in *.
    split; [reflexivity|].
    apply (f_equal (@List.length nat)) in I.
    rewrite length_app, !length_map in I.
    constructor; cbn in *; try lia. exact W.
  - split; [reflexivity|].
    constructor; cbn; try lia. trivial.
Qed.

Lemma scrapeBuckets_accounted req mapped sid todo :
  forall p db w,
    let r := scrapeBuckets req mapped sid todo p db w in
    p_totalApiCalls (fst (fst r)) = (p_totalApiCalls p + List.length todo)%nat
    /\ accounted sid p db (fst (fst r)) (snd (fst r)).
Proof.
  induction todo as [|bucket more IH]; intros p db w; cbn [Admin.scrapeBuckets].
  - cbn. split; [lia | apply accounted_refl].
  - pose proof (scrapeBucket_accounted req mapped sid bucket p db w) as [T A].
    destruct (scrapeBucket req mapped sid bucket p db w) as [[p1 db1] w1].
    cbn [fst snd] in T, A.
    specialize (IH p1 db1 w1). cbn zeta in IH |- *. destruct IH as [T2 A2].
    split; [rewrite T2, T; cbn [List.length]; lia|].
    eapply accounted_trans; eassumption.
Qed.

(** X22. The figures of a finished session add up: [totalApiCalls] is the
    number of buckets; the jobs collection has grown by [newJobsAdded]
    documents; new and updated records together do not exceed the jobs
    found; [countryJobsAdded] equals [newJobsAdded] when the country filter
    is on and is 0 when it is off; at least [newJobsAdded] stored jobs carry
    the session identifier, which the count of the verification step reads;
    and the session keeps its identifier and its list of requested
    buckets. *)
Theorem session_figures_add_up req session db w :
  let r := scrapeInBackground req session db w in
  let final := fst (fst r) in
  let db' := snd (fst r) in
  totalApiCalls final = List.length (buckets req)
  /\ List.length (jobs db') = (List.length (jobs db) + newJobsAdded final)%nat
  /\ (newJobsAdded final + jobsUpdated final <= totalJobsFound final)%nat
  /\ countryJobsAdded final
     = (if filterIndianJobs req then newJobsAdded final else 0%nat)
  /\ (countJobsBySession (sessionId session) db + newJobsAdded final
      <= countJobsBySession (sessionId session) db')%nat
  /\ sessionId final = sessionId session
  /\ bucketsRequested final = bucketsRequested session
  /\ (wellFormed db -> wellFormed db').
Proof.
  intros r final db'. subst final db' r. unfold Admin.scrapeInBackground.
  pose proof (scrapeBuckets_accounted req
                (mapCountry countryMap (countryName req)) (sessionId session)
                (buckets req) (mkProgress 0 0 0 0 0 0 [] []) db w) as [T A].
  destruct (scrapeBuckets req _ (sessionId session) (buckets req) _ db w)
    as [[p db1] w1].
  cbn [fst snd] in *. destruct A as [A1 A2 A3 A4 A5 A6].
  cbn [p_newJobsAdded p_countryJobsAdded p_jobsUpdated p_totalJobsFound
       p_totalApiCalls] in *.
  unfold finishSession.
  cbn [totalApiCalls newJobsAdded jobsUpdated totalJobsFound countryJobsAdded
       sessionId bucketsRequested].
  split; [lia|]. split; [lia|]. split; [lia|].
  split; [destruct (filterIndianJobs req); lia|].
  split; [lia|]. split; [reflexivity|]. split; [reflexivity | exact A6].
Qed.

End Orchestrating.

Lemma session_figures_add_up_witness :
  let req := mkCrawlRequest ["backend"; "frontend"; "devops"] true
                            "United States" "United States" in
  let r := Admin.scrapeInBackground (clockFrom 0) (flakySearch "frontend")
             req (createSession "session-1" req) emptyStore newWorld in
  wellFormed (snd (fst r))
  /\ totalApiCalls (fst (fst r)) = 3%nat
  /\ newJobsAdded (fst (fst r)) = 1%nat
  /\ jobsUpdated (fst (fst r)) = 1%nat.
Proof.
  intros req r.
  destruct (session_figures_add_up (clockFrom 0) (flakySearch "frontend")
              req (createSession "session-1" req) emptyStore newWorld)
    as (T & _ & _ & _ & _ & _ & _ & W).
  fold r in T, W.
  split; [apply W; split; constructor|].
  split; [exact T|]. split; vm_compute; reflexivity.
Defined.

Lemma save_counts_and_growth_witness :
  let saved := Admin.saveJobsToDatabase (clockFrom 0)
                 [sampleInput "x"; sampleInput "y"] "b" "s" emptyStore newWorld in
  wellFormed (snd (fst saved))
  /\ (newCount (fst (fst saved)) + updatedCount (fst (fst saved)) = 2)%nat.
Proof.
  intros saved.
  destruct (save_counts_and_growth (clockFrom 0)
              [sampleInput "x"; sampleInput "y"] "b" "s" emptyStore newWorld)
    as (C & _ & W).
  split; [apply W; split; constructor | exact C].
Defined.

End AdminMore.

(* ------------------------------------------------------------------ *)
(** ** The moderation queue, the salary fallback and the activity label *)
(* ------------------------------------------------------------------ *)

Module ReportsMore.

Import Js.
Import Admin.
Import Reports.
Import Doubles.

(** *** [approveJob] *)

Lemma find_by_id_none (id : nat) (l : list JobDoc) :
  find (fun d => (j_id d =? id)%nat) l = None <-> ~ In id (map j_id l).
Proof.
  induction l as [|d r IH]; cbn [find map In]; [tauto|].
  destruct (j_id d =? id)%nat eqn:E.
  - apply Nat.eqb_eq in E. split; [discriminate | tauto].
  - apply Nat.eqb_neq in E. rewrite IH. tauto.
Qed.

Lemma filter_other_ids (id : nat) (keep : JobDoc -> bool) (l : list JobDoc) :
  ~ In id (map j_id l) ->
  filter (fun d => negb (j_id d =? id)%nat) (filter keep l) = filter keep l.
Proof.
  induction l as [|d r IH]; cbn [filter map In]; intros N; [reflexivity|].
  destruct (keep d); cbn [filter]; [|apply IH; tauto].
  destruct (j_id d =? id)%nat eqn:E.
  - apply Nat.eqb_eq in E. tauto.
  - cbn [negb]. f_equal. apply IH. tauto.
Qed.

Lemma publish_in_place (id : nat) (l : list JobDoc) (d : JobDoc) :
  NoDup (map j_id l) ->
  find (fun x => (j_id x =? id)%nat) l = Some d ->
  let l' := updateById id publish l in
  j_id d = id
  /\ In (publish d) l'
  /\ map j_id l' = map j_id l
  /\ (forall x, In x l -> j_id x <> id -> In x l')
  /\ filter (hasStatus "pending") l'
     = filter (fun x => negb (j_id x =? id)%nat) (filter (hasStatus "pending") l)
  /\ find (fun x => (j_id x =? id)%nat) l' = Some (publish d)
  /\ updateById id publish l' = l'.
Proof.
  induction l as [|h r IH]; cbn [find updateById map]; intros U F;
    [discriminate|].
  apply NoDup_cons_iff in U as [N U].
  destruct (j_id h =? id)%nat eqn:E.
  - injection F as ->. apply Nat.eqb_eq in E. subst id.
    cbn zeta. split; [reflexivity|]. split; [left; reflexivity|].
    split; [reflexivity|].
    split; [intros x [<-|I] Ne; [congruence | right; exact I]|].
    split.
    + cbn [filter]. replace (hasStatus "pending" (publish d)) with false
        by reflexivity.
      destruct (hasStatus "pending" d); cbn [filter];
        rewrite ?Nat.eqb_refl; cbn [negb];
        symmetry; apply filter_other_ids; exact N.
    + cbn [find updateById publish j_id]. rewrite Nat.eqb_refl.
      split; reflexivity.
  - destruct (IH U F) as (I1 & I2 & I3 & I4 & I5 & I6 & I7). cbn zeta.
    split; [exact I1|]. split; [right; exact I2|].
    split; [cbn [map]; f_equal; exact I3|].
    split; [intros x [<-|I] Ne; [left; reflexivity | right; auto]|].
    split.
    + cbn [filter]. destruct (hasStatus "pending" h); cbn [filter];
        rewrite ?E; cbn [negb]; rewrite I5; reflexivity.
    + cbn [find updateById]. rewrite E. split; [exact I6|].
      f_equal. exact I7.
Qed.

(** X23. [approveJob] on a store whose job identifiers are unique.  When
    no job has the identifier the answer is the 404 and the store is left as
    it was.  Otherwise the answer is the job with status [published]; the
    store holds it in place of the old document, with the same identifiers
    in the same order and every other job untouched; the job has left the
    pending queue and nothing else has; and approving it again gives the
    same answer and changes nothing. *)
Theorem approve_publishes_one_job (id : nat) (db : Store) :
  wellFormed db ->
  match approveJob id db with
  | (None, db') => db' = db /\ ~ In id (map j_id (jobs db))
  | (Some answer, db') =>
      j_id answer = id
      /\ j_status answer = Some "published"
      /\ In answer (jobs db')
      /\ map j_id (jobs db') = map j_id (jobs db)
      /\ (forall d, In d (jobs db) -> j_id d <> id -> In d (jobs db'))
      /\ listPendingJobs db'
         = filter (fun d => negb (j_id d =? id)%nat) (listPendingJobs db)
      /\ companies db' = companies db
      /\ approveJob id db' = (Some answer, db')
  end.
Proof.
  intros [U _]. unfold approveJob.
  destruct (find (fun d => (j_id d =? id)%nat) (jobs db)) as [d|] eqn:F.
  - destruct (publish_in_place id (jobs db) d U F)
      as (I1 & I2 & I3 & I4 & I5 & I6 & I7).
    cbn [jobs companies nextCompanyId nextJobId].
    split; [exact I1|]. split; [reflexivity|]. split; [exact I2|].
    split; [exact I3|]. split; [exact I4|]. split; [exact I5|].
    split; [reflexivity|].
    rewrite I6, I7. reflexivity.
  - split; [reflexivity | apply find_by_id_none; exact F].
Qed.

Lemma approve_publishes_one_job_witness :
  wellFormed moderatedStore
  /\ map j_id (listPendingJobs moderatedStore) = [0; 2]%nat
  /\ map j_id (listPendingJobs (snd (approveJob 2 moderatedStore))) = [0]%nat
  /\ approveJob 5 moderatedStore = (None, moderatedStore).
Proof.
  assert (W : wellFormed moderatedStore).
  { split; [|repeat constructor].
    repeat constructor; cbn; intuition discriminate. }
  split; [exact W|]. split; [reflexivity|].
  pose proof (approve_publishes_one_job 2 moderatedStore W) as A.
  pose proof (approve_publishes_one_job 5 moderatedStore W) as B.
  destruct (approveJob 2 moderatedStore) as [[answer|] db2] eqn:E2;
    [|vm_compute in E2; discriminate].
  destruct (approveJob 5 moderatedStore) as [[answer5|] db5] eqn:E5;
    [vm_compute in E5; discriminate|].
  destruct A as (_ & _ & _ & _ & _ & P & _). destruct B as [-> _].
  split; [|reflexivity].
  cbn [snd]. rewrite P. reflexivity.
Defined.

(** *** [generateFallbackSalary] *)

(** X24. The salary fallback answers for every title: the title is handed
    back as given, the period is YEARLY and the currency USD, the minimum is
    below the maximum and both lie between 60000 and 250000.  The letter
    case of the title plays no part.  The table is walked in its written
    order, so a title that names both an engineer and a manager gets the
    engineer's range unless it also names a developer; a title naming none
    of the five roles gets 60000 to 120000. *)
Theorem fallback_salary_ranges (jobTitle : string) :
  let e := generateFallbackSalary jobTitle in
  let k := toLowerCase jobTitle in
  job_title e = jobTitle
  /\ salary_period e = "YEARLY" /\ currency e = "USD"
  /\ (60000 <= min_salary e < max_salary e)%Z /\ (max_salary e <= 250000)%Z
  /\ (min_salary (generateFallbackSalary (toLowerCase jobTitle)) = min_salary e
      /\ max_salary (generateFallbackSalary (toLowerCase jobTitle))
         = max_salary e)
  /\ (includes "developer" k = false -> includes "engineer" k = true ->
      min_salary e = 90000%Z /\ max_salary e = 200000%Z)
  /\ (includes "developer" k = false -> includes "engineer" k = false ->
      includes "manager" k = false -> includes "analyst" k = false ->
      includes "designer" k = false ->
      min_salary e = 60000%Z /\ max_salary e = 120000%Z).
Proof.
  intros e k. subst e.
  unfold generateFallbackSalary.
  rewrite ClassifierMore.toLowerCase_idempotent. fold k.
  cbn [job_title salary_period currency min_salary max_salary].
  unfold baseRanges. cbn [rangeFor].
  split; [reflexivity|]. split; [reflexivity|]. split; [reflexivity|].
  split; [|split; [|split; [tauto|split]]].
  - destruct (includes "developer" k), (includes "engineer" k),
      (includes "manager" k), (includes "analyst" k),
      (includes "designer" k), (includes "default" k);
      cbn [range_min range_max defaultRange]; lia.
  - destruct (includes "developer" k), (includes "engineer" k),
      (includes "manager" k), (includes "analyst" k),
      (includes "designer" k), (includes "default" k);
      cbn [range_min range_max defaultRange]; lia.
  - intros -> ->. split; reflexivity.
  - intros -> -> -> -> ->.
    destruct (includes "default" k); split; reflexivity.
Qed.

Lemma fallback_salary_ranges_witness :
  min_salary (generateFallbackSalary "Engineering Manager") = 90000%Z
  /\ max_salary (generateFallbackSalary "Engineering Manager") = 200000%Z
  /\ min_salary (generateFallbackSalary "Nurse") = 60000%Z
  /\ max_salary (generateFallbackSalary "Nurse") = 120000%Z.
Proof.
  destruct (fallback_salary_ranges "Engineering Manager")
    as (_ & _ & _ & _ & _ & _ & E & _).
  destruct (fallback_salary_ranges "Nurse")
    as (_ & _ & _ & _ & _ & _ & _ & D).
  destruct (E eq_refl eq_refl) as [E1 E2].
  destruct (D eq_refl eq_refl eq_refl eq_refl eq_refl) as [D1 D2].
  repeat split; assumption.
Defined.

(** *** [formatLastActive] *)

Lemma quotient_between (a b q : Z) :
  (0 < b)%Z -> (q * b <= a < (q + 1) * b)%Z -> (a / b = q)%Z.
Proof.
  intros B H. symmetry. apply (Z.div_unique a b q (a - q * b)); lia.
Qed.

(** X25. The activity label, by the age [now - date] in milliseconds.  No
    date gives Never.  An age below one minute, a date in the future
    included, gives Just now.  From one minute up to the hour the label
    counts whole minutes, always with the word mins; from one hour up to
    the day, whole hours; from one day up to seven days, whole days; hour
    and day take an s from 2 on.  From seven days on the label is the short
    date of the instant. *)
Theorem last_active_label (now d : Z) :
  let age := (now - d)%Z in
  formatLastActive now None = Text "Never"
  /\ ((age < 60000)%Z -> formatLastActive now (Some d) = Text "Just now")
  /\ (forall m, (1 <= m < 60)%Z ->
        (m * 60000 <= age < (m + 1) * 60000)%Z ->
        formatLastActive now (Some d) = Text (ofZ m ++ " mins ago"))
  /\ (forall h, (1 <= h < 24)%Z ->
        (h * 3600000 <= age < (h + 1) * 3600000)%Z ->
        formatLastActive now (Some d)
        = Text (ofZ h ++ " hour" ++ (if (h =? 1)%Z then "" else "s") ++ " ago"))
  /\ (forall n, (1 <= n < 7)%Z ->
        (n * 86400000 <= age < (n + 1) * 86400000)%Z ->
        formatLastActive now (Some d)
        = Text (ofZ n ++ " day" ++ (if (n =? 1)%Z then "" else "s") ++ " ago"))
  /\ ((604800000 <= age)%Z -> formatLastActive now (Some d) = ShortDate d).
Proof.
  intros age. unfold formatLastActive. fold age. cbn zeta.
  split; [reflexivity|].
  pose proof (Z.div_le_mono 0 age 60000 ltac:(lia)) as M0.
  split; [|split; [|split; [|split]]].
  - intros A.
    assert (Q : (age / 60000 < 1)%Z)
      by (apply Z.div_lt_upper_bound; lia).
    apply Z.ltb_lt in Q. rewrite Q. reflexivity.
  - intros m M A.
    rewrite (quotient_between age 60000 m) by lia.
    replace (m <? 1)%Z with false by (symmetry; apply Z.ltb_ge; lia).
    replace (m <? 60)%Z with true by (symmetry; apply Z.ltb_lt; lia).
    reflexivity.
  - intros h H A.
    assert (Q : (60 <= age / 60000)%Z)
      by (apply Z.div_le_lower_bound; lia).
    replace (age / 60000 <? 1)%Z with false by (symmetry; apply Z.ltb_ge; lia).
    replace (age / 60000 <? 60)%Z with false
      by (symmetry; apply Z.ltb_ge; lia).
    rewrite (quotient_between age 3600000 h) by lia.
    replace (h <? 24)%Z with true by (symmetry; apply Z.ltb_lt; lia).
    unfold plural.
    destruct (Z.eqb_spec h 1) as [->|Ne]; [reflexivity|].
    replace (1 <? h)%Z with true by (symmetry; apply Z.ltb_lt; lia).
    reflexivity.
  - intros n N A.
    assert (Q : (60 <= age / 60000)%Z)
      by (apply Z.div_le_lower_bound; lia).
    assert (Q' : (24 <= age / 3600000)%Z)
      by (apply Z.div_le_lower_bound; lia).
    replace (age / 60000 <? 1)%Z with false by (symmetry; apply Z.ltb_ge; lia).
    replace (age / 60000 <? 60)%Z with false
      by (symmetry; apply Z.ltb_ge; lia).
    replace (age / 3600000 <? 24)%Z with false
      by (symmetry; apply Z.ltb_ge; lia).
    rewrite (quotient_between age 86400000 n) by lia.
    replace (n <? 7)%Z with true by (symmetry; apply Z.ltb_lt; lia).
    unfold plural.
    destruct (Z.eqb_spec n 1) as [->|Ne]; [reflexivity|].
    replace (1 <? n)%Z with true by (symmetry; apply Z.ltb_lt; lia).
    reflexivity.
  - intros A.
    assert (Q : (60 <= age / 60000)%Z)
      by (apply Z.div_le_lower_bound; lia).
    assert (Q' : (24 <= age / 3600000)%Z)
      by (apply Z.div_le_lower_bound; lia).
    assert (Q'' : (7 <= age / 86400000)%Z)
      by (apply Z.div_le_lower_bound; lia).
    replace (age / 60000 <? 1)%Z with false by (symmetry; apply Z.ltb_ge; lia).
    replace (age / 60000 <? 60)%Z with false
      by (symmetry; apply Z.ltb_ge; lia).
    replace (age / 3600000 <? 24)%Z with false
      by (symmetry; apply Z.ltb_ge; lia).
    replace (age / 86400000 <? 7)%Z with false
      by (symmetry; apply Z.ltb_ge; lia).
    reflexivity.
Qed.

Lemma last_active_label_witness :
  formatLastActive 1000000000%Z (Some 1000000500%Z) = Text "Just now"
  /\ formatLastActive 1000000000%Z (Some 999910000%Z) = Text "1 mins ago"
  /\ formatLastActive 1000000000%Z (Some 996400000%Z) = Text "1 hour ago"
  /\ formatLastActive 1000000000%Z (Some 740800000%Z) = Text "3 days ago"
  /\ formatLastActive 1000000000%Z (Some 0%Z) = ShortDate 0%Z.
Proof.
  split; [apply (last_active_label 1000000000%Z 1000000500%Z); lia|].
  split; [apply (last_active_label 1000000000%Z 999910000%Z) with (m := 1%Z); lia|].
  split; [apply (last_active_label 1000000000%Z 996400000%Z) with (h := 1%Z); lia|].
  split; [apply (last_active_label 1000000000%Z 740800000%Z) with (n := 3%Z); lia|].
  apply (last_active_label 1000000000%Z 0%Z); lia.
Defined.

End ReportsMore.
